(** * Standard script templates of dcrd's [txscript] package

    A shallow embedding of [txscript/standard.go] and of
    [internal/staging/stdscript/scriptv0.go], together with the properties
    of the classifier, the template matchers, the script-info analyser, the
    atomic-swap extractor and the stake commitment builder.

    Conventions.  A Go [byte] is a [Z] in [0, 256); a script ([[]byte]) is a
    [list Z].  A Go slice that may be [nil] is an [option (list Z)], [None]
    being [nil].  A Go function returning [(T, error)] returns a [result T];
    a function that can hit a run-time panic (index out of range) returns an
    [outcome]. *)

From Stdlib Require Import String ZArith List Bool Lia.
Import ListNotations.
Open Scope Z_scope.

(* ------------------------------------------------------------------ *)
(** ** Outcomes, results and slices *)

Inductive ErrorCode : Type :=
| ErrMalformedPush
| ErrUnsupportedScriptVersion
| ErrNotPushOnly
| ErrNotMultisigScript
| ErrUnsupportedAddress
| ErrTooMuchNullData
| ErrNotStakeOutput
| ErrScriptNotCanonical
| ErrInternal.

Inductive result (A : Type) : Type :=
| Ok (a : A)
| Err (e : ErrorCode).
Arguments Ok {A} a.
Arguments Err {A} e.

(** A Go call either returns or aborts with a run-time panic. *)
Inductive outcome (A : Type) : Type :=
| Returns (a : A)
| Panics.
Arguments Returns {A} a.
Arguments Panics {A}.

Definition bind {A B : Type} (m : outcome A) (k : A -> outcome B) : outcome B :=
  match m with
  | Returns a => k a
  | Panics => Panics
  end.

Notation "x <- m ;; k" := (bind m (fun x => k))
  (at level 61, m at next level, right associativity).

Definition bytes := list Z.

(** [s[i]] where the source has already checked [i < len(s)]. *)
Definition at_ (s : bytes) (i : nat) : Z := nth i s 0.

(** [s[i]] with Go's bounds check. *)
Definition index {A : Type} (s : list A) (i : nat) : outcome A :=
  match nth_error s i with
  | Some a => Returns a
  | None => Panics
  end.

(** [s[lo:hi]] where the source has already checked [lo <= hi <= len(s)]. *)
Definition slice (lo hi : nat) (s : bytes) : bytes :=
  firstn (hi - lo) (skipn lo s).

(** [s[len(s)-1]] where the source has already checked [len(s) >= 1]. *)
Definition lastByte (s : bytes) : Z := at_ s (length s - 1).

(** [len] of a possibly nil slice. *)
Definition len (d : option bytes) : nat :=
  match d with
  | Some l => length l
  | None => O
  end.

Definition isNil (d : option bytes) : bool :=
  match d with
  | Some _ => false
  | None => true
  end.

(* ------------------------------------------------------------------ *)
(** ** Opcode values *)

(** Modelled from the spec: the opcode constants, declared in
    [txscript/opcode.go], which is not among the sources at hand.  The values are the
    ones the test vectors of [standard_test.go] spell out in hexadecimal
    ([21 .. ac] pay-to-pubkey, [76 a9 14 .. 88 ac] pay-to-pubkey-hash,
    [a9 14 .. 87] pay-to-script-hash, [51 .. 52 ae] multisig) and the Decred
    opcode table for the others; a small-integer opcode [OP_1 .. OP_16] is
    its value plus 80. *)
Definition OP_0 : Z := 0x00.
Definition OP_DATA_1 : Z := 0x01.
Definition OP_DATA_20 : Z := 0x14.
Definition OP_DATA_30 : Z := 0x1e.
Definition OP_DATA_32 : Z := 0x20.
Definition OP_DATA_33 : Z := 0x21.
Definition OP_DATA_65 : Z := 0x41.
Definition OP_DATA_75 : Z := 0x4b.
Definition OP_PUSHDATA1 : Z := 0x4c.
Definition OP_PUSHDATA2 : Z := 0x4d.
Definition OP_PUSHDATA4 : Z := 0x4e.
Definition OP_1NEGATE : Z := 0x4f.
Definition OP_1 : Z := 0x51.
Definition OP_2 : Z := 0x52.
Definition OP_16 : Z := 0x60.
Definition OP_IF : Z := 0x63.
Definition OP_ELSE : Z := 0x67.
Definition OP_ENDIF : Z := 0x68.
Definition OP_RETURN : Z := 0x6a.
Definition OP_DROP : Z := 0x75.
Definition OP_DUP : Z := 0x76.
Definition OP_SIZE : Z := 0x82.
Definition OP_EQUAL : Z := 0x87.
Definition OP_EQUALVERIFY : Z := 0x88.
Definition OP_HASH160 : Z := 0xa9.
Definition OP_CHECKSIG : Z := 0xac.
Definition OP_CHECKMULTISIG : Z := 0xae.
Definition OP_CHECKLOCKTIMEVERIFY : Z := 0xb1.
Definition OP_SSTX : Z := 0xba.
Definition OP_SSGEN : Z := 0xbb.
Definition OP_SSRTX : Z := 0xbc.
Definition OP_SSTXCHANGE : Z := 0xbd.
Definition OP_CHECKSIGALT : Z := 0xbe.
Definition OP_SHA256 : Z := 0xc0.
Definition OP_INVALIDOPCODE : Z := 0xff.

(** Modelled from the spec: [DefaultScriptVersion], declared outside
    the sources at hand; only script version 0 is defined. *)
Definition DefaultScriptVersion : Z := 0.

(** Modelled from the spec: the signature schemes of [dcrec], declared
    outside the sources at hand: 0 is ECDSA-secp256k1 (the disabled value of the
    alternative scheme tag), 1 is Ed25519, 2 is Schnorr-secp256k1. *)
Definition STEcdsaSecp256k1 : Z := 0.
Definition STEd25519 : Z := 1.
Definition STSchnorrSecp256k1 : Z := 2.

(** Modelled from the spec: [isSmallInt] of [txscript/script.go], which is
    not among the sources at hand; the small-integer opcodes encode the literal values 0
    to 16. *)
Definition isSmallInt (op : Z) : bool :=
  (op =? OP_0) || ((OP_1 <=? op) && (op <=? OP_16)).

(** Modelled from the spec: [asSmallInt] of [txscript/script.go]; the
    numeric value of [OP_1 .. OP_16] is [opcode - 80], that of [OP_0] is 0. *)
Definition asSmallInt (op : Z) : Z :=
  if op =? OP_0 then 0 else op - (OP_1 - 1).

(** Modelled from the spec: [isStrictPubKeyEncoding], the strict encoding
    check of the elliptic-curve collaborator, which is not among the sources at hand.  A
    strictly encoded public key is a 33-byte compressed key starting [02] or
    [03], or a 65-byte uncompressed, non-hybrid key starting [04]. *)
Definition isStrictPubKeyEncoding (pubKey : option bytes) : bool :=
  match pubKey with
  | None => false
  | Some k =>
      ((length k =? 33)%nat && ((at_ k 0 =? 0x02) || (at_ k 0 =? 0x03)))
      || ((length k =? 65)%nat && (at_ k 0 =? 0x04))
  end.

(** Modelled from the spec: [IsStrictCompressedPubKeyEncoding], the
    strict compressed-key check, which is not among the sources at hand: the 33-byte
    compressed form only. *)
Definition IsStrictCompressedPubKeyEncoding (pubKey : option bytes) : bool :=
  match pubKey with
  | None => false
  | Some k => (length k =? 33)%nat && ((at_ k 0 =? 0x02) || (at_ k 0 =? 0x03))
  end.

(* ------------------------------------------------------------------ *)
(** ** Script classes *)

Definition MaxDataCarrierSize : nat := 256.

(** [type ScriptClass byte] *)
Definition ScriptClass := Z.

Definition NonStandardTy : ScriptClass := 0.
Definition PubKeyTy : ScriptClass := 1.
Definition PubKeyHashTy : ScriptClass := 2.
Definition ScriptHashTy : ScriptClass := 3.
Definition MultiSigTy : ScriptClass := 4.
Definition NullDataTy : ScriptClass := 5.
Definition StakeSubmissionTy : ScriptClass := 6.
Definition StakeGenTy : ScriptClass := 7.
Definition StakeRevocationTy : ScriptClass := 8.
Definition StakeSubChangeTy : ScriptClass := 9.
Definition PubkeyAltTy : ScriptClass := 10.
Definition PubkeyHashAltTy : ScriptClass := 11.

(** A Go slice literal with keyed elements: the slice is as long as its
    largest key plus one, and a position no key names holds the zero value. *)
Fixpoint keyedLookup (kvs : list (Z * string)) (i : Z) : string :=
  match kvs with
  | [] => EmptyString
  | (k, v) :: tl => if k =? i then v else keyedLookup tl i
  end.

Definition keyedSlice (kvs : list (Z * string)) : list string :=
  let n := fold_right (fun kv m => Z.max (fst kv + 1) m) 0 kvs in
  map (fun i => keyedLookup kvs (Z.of_nat i)) (seq 0 (Z.to_nat n)).

Definition scriptClassToName : list string :=
  keyedSlice
    [ (NonStandardTy, "nonstandard"%string);
      (PubKeyTy, "pubkey"%string);
      (PubkeyAltTy, "pubkeyalt"%string);
      (PubKeyHashTy, "pubkeyhash"%string);
      (PubkeyHashAltTy, "pubkeyhashalt"%string);
      (ScriptHashTy, "scripthash"%string);
      (MultiSigTy, "multisig"%string);
      (NullDataTy, "nulldata"%string);
      (StakeSubmissionTy, "stakesubmission"%string);
      (StakeGenTy, "stakegen"%string);
      (StakeRevocationTy, "stakerevoke"%string);
      (StakeSubChangeTy, "sstxchange"%string) ].

(** [func (t ScriptClass) String() string] *)
Definition String_ (t : ScriptClass) : outcome string :=
  if (t >? Z.of_nat (length scriptClassToName)) || (t <? 0)
  then Returns "Invalid"%string
  else index scriptClassToName (Z.to_nat t).

(* ------------------------------------------------------------------ *)
(** ** The tokenizer and the full parser *)

(** Modelled from the spec: the length column of the opcode table
    ([txscript/opcode.go], not among the sources at hand).  Opcode [00] and every opcode
    above [4e] occupy one byte; [01 .. 4b] push that many following bytes;
    [4c], [4d], [4e] read a 1-, 2- and 4-byte little-endian length (coded
    -1, -2, -4) and push that many bytes. *)
Definition opLength (op : Z) : Z :=
  if op =? OP_0 then 1
  else if (OP_DATA_1 <=? op) && (op <=? OP_DATA_75) then op + 1
  else if op =? OP_PUSHDATA1 then -1
  else if op =? OP_PUSHDATA2 then -2
  else if op =? OP_PUSHDATA4 then -4
  else 1.

(** Little-endian decoding of a few bytes. *)
Fixpoint leDecode (bs : bytes) : Z :=
  match bs with
  | [] => 0
  | b :: tl => Z.lor b (Z.shiftl (leDecode tl) 8)
  end.

(** Conversion to a signed 32-bit integer. *)
Definition int32 (z : Z) : Z :=
  let m := z mod 2 ^ 32 in
  if m >=? 2 ^ 31 then m - 2 ^ 32 else m.

(** Modelled from the spec: a decoded operation ([parsedOpcode] of
    [txscript/script.go], not among the sources at hand): an opcode value, and its
    payload for a data push ([nil] for a plain opcode). *)
Record parsedOpcode : Type := mkPop {
  opcode_value : Z;
  data : option bytes
}.

(** Modelled from the spec: [ScriptTokenizer] ([txscript/tokenizer.go], not
    among the sources at hand), which converts a raw script into decoded operations one
    at a time and enforces that every push length is satisfiable by the
    remaining bytes. *)
Record ScriptTokenizer : Type := mkTok {
  tk_script : bytes;
  tk_version : Z;
  tk_offset : nat;
  tk_op : Z;
  tk_data : option bytes;
  tk_err : option ErrorCode
}.

(** Modelled from the spec: [MakeScriptTokenizer]; a version other than 0
    makes a tokenizer that is in error from the start.  The opcode of a fresh
    tokenizer is never read by the code below: every [Opcode()] call follows
    a successful [Next()]. *)
Definition MakeScriptTokenizer (scriptVersion : Z) (script : bytes)
  : ScriptTokenizer :=
  {| tk_script := script;
     tk_version := scriptVersion;
     tk_offset := 0;
     tk_op := OP_INVALIDOPCODE;
     tk_data := None;
     tk_err := if scriptVersion =? 0 then None
               else Some ErrUnsupportedScriptVersion |}.

(** Modelled from the spec: [Done] holds once the script is consumed or a
    malformed push was met. *)
Definition Done (t : ScriptTokenizer) : bool :=
  match tk_err t with
  | Some _ => true
  | None => (length (tk_script t) <=? tk_offset t)%nat
  end.

Definition Opcode (t : ScriptTokenizer) : Z := tk_op t.
Definition Data (t : ScriptTokenizer) : option bytes := tk_data t.
Definition ByteIndex (t : ScriptTokenizer) : nat := tk_offset t.
Definition Script (t : ScriptTokenizer) : bytes := tk_script t.

Definition tokFail (t : ScriptTokenizer) : bool * ScriptTokenizer :=
  (false,
   {| tk_script := tk_script t; tk_version := tk_version t;
      tk_offset := tk_offset t; tk_op := tk_op t; tk_data := tk_data t;
      tk_err := Some ErrMalformedPush |}).

Definition tokAdvance (t : ScriptTokenizer) (n : nat) (op : Z)
  (d : option bytes) : bool * ScriptTokenizer :=
  (true,
   {| tk_script := tk_script t; tk_version := tk_version t;
      tk_offset := tk_offset t + n; tk_op := op; tk_data := d;
      tk_err := tk_err t |}).

(** Modelled from the spec: [Next] decodes the operation at the current
    offset; it returns whether one was decoded, and the tokenizer after the
    call.  A malformed push leaves opcode and data as they were and records
    the error.  Lengths are 32-bit integers in the tokenizer. *)
Definition Next (t : ScriptTokenizer) : bool * ScriptTokenizer :=
  if Done t then (false, t)
  else
    match skipn (tk_offset t) (tk_script t) with
    | [] => (false, t)
    | op :: tl =>
        let l := opLength op in
        if l =? 1 then tokAdvance t 1 op None
        else if l >? 1 then
          if (S (length tl) <? Z.to_nat l)%nat then tokFail t
          else tokAdvance t (Z.to_nat l) op (Some (firstn (Z.to_nat l - 1) tl))
        else
          let n := Z.to_nat (- l) in
          if (length tl <? n)%nat then tokFail t
          else
            let dataLen := int32 (leDecode (firstn n tl)) in
            let script := skipn n tl in
            if (dataLen >? Z.of_nat (length script)) || (dataLen <? 0)
            then tokFail t
            else tokAdvance t (1 + n + Z.to_nat dataLen) op
                   (Some (firstn (Z.to_nat dataLen) script))
    end.

(** Modelled from the spec: one iteration of the loop of [parseScript]
    ([txscript/script.go], not among the sources at hand) on the unparsed rest
    [op :: tl]: the decoded operation and what is left after it, or [None]
    for a push that the remaining bytes cannot satisfy. *)
Definition parseOne (op : Z) (tl : bytes) : option (parsedOpcode * bytes) :=
  let l := opLength op in
  if l =? 1 then Some (mkPop op None, tl)
  else if l >? 1 then
    if (S (length tl) <? Z.to_nat l)%nat then None
    else Some (mkPop op (Some (firstn (Z.to_nat l - 1) tl)),
               skipn (Z.to_nat l - 1) tl)
  else
    let n := Z.to_nat (- l) in
    if (length tl <? n)%nat then None
    else
      let dataLen := leDecode (firstn n tl) in
      let rest := skipn n tl in
      if dataLen >? Z.of_nat (length rest) then None
      else Some (mkPop op (Some (firstn (Z.to_nat dataLen) rest)),
                 skipn (Z.to_nat dataLen) rest).

(** Modelled from the spec: the loop of [parseScript].  It runs while bytes
    remain; every iteration consumes at least one byte, so [length script]
    iterations are always enough (see [parseLoop_fuel] and
    [parseScript_total]). *)
Fixpoint parseLoop (fuel : nat) (script : bytes) : result (list parsedOpcode) :=
  match script with
  | [] => Ok []
  | op :: tl =>
      match fuel with
      | O => Err ErrInternal
      | S fuel' =>
          match parseOne op tl with
          | None => Err ErrMalformedPush
          | Some (pop, rest) =>
              match parseLoop fuel' rest with
              | Ok pops => Ok (pop :: pops)
              | Err e => Err e
              end
          end
      end
  end.

(** Modelled from the spec: [parseScript] yields the decoded operation
    sequence of a script, or the parse error. *)
Definition parseScript (script : bytes) : result (list parsedOpcode) :=
  parseLoop (length script) script.

(** The default of a (never taken) out-of-range read of [pops]. *)
Definition noPop : parsedOpcode := mkPop OP_INVALIDOPCODE None.

(** [pops[i].opcode.value] where the source has checked [i < len(pops)]. *)
Definition opAt (pops : list parsedOpcode) (i : nat) : Z :=
  opcode_value (nth i pops noPop).

Definition dataAt (pops : list parsedOpcode) (i : nat) : option bytes :=
  data (nth i pops noPop).

(* ------------------------------------------------------------------ *)
(** ** Fixed-length template matchers ([txscript/standard.go]) *)

Definition extractCompressedPubKey (script : bytes) : option bytes :=
  if (length script =? 35)%nat
     && (at_ script 34 =? OP_CHECKSIG)
     && (at_ script 0 =? OP_DATA_33)
     && ((at_ script 1 =? 0x02) || (at_ script 1 =? 0x03))
  then Some (slice 1 34 script)
  else None.

Definition extractUncompressedPubKey (script : bytes) : option bytes :=
  if (length script =? 67)%nat
     && (at_ script 66 =? OP_CHECKSIG)
     && (at_ script 0 =? OP_DATA_65)
     && (at_ script 1 =? 0x04)
  then Some (slice 1 66 script)
  else None.

Definition extractPubKey (script : bytes) : option bytes :=
  match extractCompressedPubKey script with
  | Some pubKey => Some pubKey
  | None => extractUncompressedPubKey script
  end.

Definition isPubKeyScript (script : bytes) : bool :=
  negb (isNil (extractPubKey script)).

Definition extractPubKeyAltDetails (script : bytes) : option bytes * Z :=
  if (length script <? 3)%nat || negb (lastByte script =? OP_CHECKSIGALT)
  then (None, 0)
  else if (length script =? 35)%nat && (at_ script 0 =? OP_DATA_32)
          && isSmallInt (at_ script 33)
          && (asSmallInt (at_ script 33) =? STEd25519)
  then (Some (slice 1 33 script), STEd25519)
  else if (length script =? 36)%nat && (at_ script 0 =? OP_DATA_33)
          && isSmallInt (at_ script 34)
          && (asSmallInt (at_ script 34) =? STSchnorrSecp256k1)
          && isStrictPubKeyEncoding (Some (slice 1 34 script))
  then (Some (slice 1 34 script), STSchnorrSecp256k1)
  else (None, 0).

Definition isPubKeyAltScript (script : bytes) : bool :=
  negb (isNil (fst (extractPubKeyAltDetails script))).

Definition extractPubKeyHash (script : bytes) : option bytes :=
  if (length script =? 25)%nat
     && (at_ script 0 =? OP_DUP)
     && (at_ script 1 =? OP_HASH160)
     && (at_ script 2 =? OP_DATA_20)
     && (at_ script 23 =? OP_EQUALVERIFY)
     && (at_ script 24 =? OP_CHECKSIG)
  then Some (slice 3 23 script)
  else None.

Definition isPubKeyHashScript (script : bytes) : bool :=
  negb (isNil (extractPubKeyHash script)).

Definition isStandardAltSignatureType (op : Z) : bool :=
  if negb (isSmallInt op) then false
  else
    let sigType := asSmallInt op in
    (sigType =? STEd25519) || (sigType =? STSchnorrSecp256k1).

Definition extractPubKeyHashAltDetails (script : bytes) : option bytes * Z :=
  if (length script =? 26)%nat
     && (at_ script 0 =? OP_DUP)
     && (at_ script 1 =? OP_HASH160)
     && (at_ script 2 =? OP_DATA_20)
     && (at_ script 23 =? OP_EQUALVERIFY)
     && isStandardAltSignatureType (at_ script 24)
     && (at_ script 25 =? OP_CHECKSIGALT)
  then (Some (slice 3 23 script), asSmallInt (at_ script 24))
  else (None, 0).

Definition isPubKeyHashAltScript (script : bytes) : bool :=
  negb (isNil (fst (extractPubKeyHashAltDetails script))).

(** Modelled from the spec: [extractScriptHash] of [txscript/script.go],
    which is not among the sources at hand.  A pay-to-script-hash script is the 23 bytes
    [HASH160 DATA_20 <20 bytes> EQUAL] (the test vector [a9 14 .. 87]); the
    payload is the 20 hash bytes. *)
Definition extractScriptHash (script : bytes) : option bytes :=
  if (length script =? 23)%nat
     && (at_ script 0 =? OP_HASH160)
     && (at_ script 1 =? OP_DATA_20)
     && (at_ script 22 =? OP_EQUAL)
  then Some (slice 2 22 script)
  else None.

(** Modelled from the spec: [isScriptHashScript] of [txscript/script.go]. *)
Definition isScriptHashScript (script : bytes) : bool :=
  negb (isNil (extractScriptHash script)).

Definition extractStakePubKeyHash (script : bytes) (stakeOpcode : Z)
  : option bytes :=
  if (length script <? 1)%nat || negb (at_ script 0 =? stakeOpcode)
  then None
  else extractPubKeyHash (skipn 1 script).

Definition extractStakeScriptHash (script : bytes) (stakeOpcode : Z)
  : option bytes :=
  if (length script <? 1)%nat || negb (at_ script 0 =? stakeOpcode)
  then None
  else extractScriptHash (skipn 1 script).

Definition isStakeSubmissionScript (scriptVersion : Z) (script : bytes) : bool :=
  if negb (scriptVersion =? 0) then false
  else
    let stakeOpcode := OP_SSTX in
    negb (isNil (extractStakePubKeyHash script stakeOpcode))
    || negb (isNil (extractStakeScriptHash script stakeOpcode)).

(* ------------------------------------------------------------------ *)
(** ** Tokenizer-based template matchers *)

Record multiSigDetails : Type := mkMultiSigDetails {
  requiredSigs : Z;
  numPubKeys : Z;
  pubKeys : option (list (option bytes));
  valid : bool
}.

(** The zero value [multiSigDetails{}]. *)
Definition noMultiSig : multiSigDetails :=
  {| requiredSigs := 0; numPubKeys := 0; pubKeys := None; valid := false |}.

(** The loop [for tokenizer.Next() { ... }] of
    [extractMultisigScriptDetails]: it stops at the first operation whose
    data is not a strictly encoded public key (that operation stays the
    tokenizer's current one) or when [Next] fails.  Every successful [Next]
    moves the offset forward, so [length script] rounds are always enough
    (see [pubKeyLoop_fuel]). *)
Fixpoint pubKeyLoop (fuel : nat) (tokenizer : ScriptTokenizer) (numPubKeys : Z)
  (pubKeys : option (list (option bytes)))
  : ScriptTokenizer * Z * option (list (option bytes)) :=
  match fuel with
  | O => (tokenizer, numPubKeys, pubKeys)
  | S fuel' =>
      let (ok, tokenizer) := Next tokenizer in
      if ok then
        let data := Data tokenizer in
        if negb (isStrictPubKeyEncoding data)
        then (tokenizer, numPubKeys, pubKeys)
        else pubKeyLoop fuel' tokenizer (numPubKeys + 1)
               (option_map (fun ks => ks ++ [data]) pubKeys)
      else (tokenizer, numPubKeys, pubKeys)
  end.

Definition extractMultisigScriptDetails (scriptVersion : Z) (script : bytes)
  (extractPubKeys : bool) : multiSigDetails :=
  if negb (scriptVersion =? 0) then noMultiSig
  else if (length script <? 3)%nat
          || negb (lastByte script =? OP_CHECKMULTISIG)
  then noMultiSig
  else
    let tokenizer := MakeScriptTokenizer scriptVersion script in
    let (ok, tokenizer) := Next tokenizer in
    if negb ok || negb (isSmallInt (Opcode tokenizer)) then noMultiSig
    else
      let requiredSigs := asSmallInt (Opcode tokenizer) in
      let pubKeys := if extractPubKeys then Some [] else None in
      let '(tokenizer, numPubKeys, pubKeys) :=
        pubKeyLoop (length script) tokenizer 0 pubKeys in
      if Done tokenizer then noMultiSig
      else
        let op := Opcode tokenizer in
        if negb (isSmallInt op) || negb (asSmallInt op =? numPubKeys)
        then noMultiSig
        else if negb (Z.of_nat (length (Script tokenizer))
                      - Z.of_nat (ByteIndex tokenizer) =? 1)
        then noMultiSig
        else {| requiredSigs := requiredSigs;
                numPubKeys := numPubKeys;
                pubKeys := pubKeys;
                valid := true |}.

Definition isMultisigScript (scriptVersion : Z) (script : bytes) : bool :=
  valid (extractMultisigScriptDetails scriptVersion script false).

Definition isNullDataScript (scriptVersion : Z) (script : bytes) : bool :=
  if negb (scriptVersion =? 0) then false
  else if (length script <? 1)%nat || negb (at_ script 0 =? OP_RETURN)
  then false
  else if (length script =? 1)%nat then true
  else
    let tokenizer := MakeScriptTokenizer scriptVersion (skipn 1 script) in
    let (ok, tokenizer) := Next tokenizer in
    ok && Done tokenizer
    && (isSmallInt (Opcode tokenizer) || (Opcode tokenizer <=? OP_PUSHDATA4))
    && (len (Data tokenizer) <=? MaxDataCarrierSize)%nat.

(* ------------------------------------------------------------------ *)
(** ** Matchers on the decoded operation sequence *)

(** [isStakeGen]: a stake generation script, pubkey-hash or script-hash. *)
Definition isStakeGen (pops : list parsedOpcode) : bool :=
  if (length pops =? 6)%nat
     && (opAt pops 0 =? OP_SSGEN)
     && (opAt pops 1 =? OP_DUP)
     && (opAt pops 2 =? OP_HASH160)
     && (opAt pops 3 =? OP_DATA_20)
     && (opAt pops 4 =? OP_EQUALVERIFY)
     && (opAt pops 5 =? OP_CHECKSIG)
  then true
  else if (length pops =? 4)%nat
     && (opAt pops 0 =? OP_SSGEN)
     && (opAt pops 1 =? OP_HASH160)
     && (opAt pops 2 =? OP_DATA_20)
     && (opAt pops 3 =? OP_EQUAL)
  then true
  else false.

(** [isStakeRevocation]: a stake revocation script. *)
Definition isStakeRevocation (pops : list parsedOpcode) : bool :=
  if (length pops =? 6)%nat
     && (opAt pops 0 =? OP_SSRTX)
     && (opAt pops 1 =? OP_DUP)
     && (opAt pops 2 =? OP_HASH160)
     && (opAt pops 3 =? OP_DATA_20)
     && (opAt pops 4 =? OP_EQUALVERIFY)
     && (opAt pops 5 =? OP_CHECKSIG)
  then true
  else if (length pops =? 4)%nat
     && (opAt pops 0 =? OP_SSRTX)
     && (opAt pops 1 =? OP_HASH160)
     && (opAt pops 2 =? OP_DATA_20)
     && (opAt pops 3 =? OP_EQUAL)
  then true
  else false.

(** [isSStxChange]: a stake submission change script. *)
Definition isSStxChange (pops : list parsedOpcode) : bool :=
  if (length pops =? 6)%nat
     && (opAt pops 0 =? OP_SSTXCHANGE)
     && (opAt pops 1 =? OP_DUP)
     && (opAt pops 2 =? OP_HASH160)
     && (opAt pops 3 =? OP_DATA_20)
     && (opAt pops 4 =? OP_EQUALVERIFY)
     && (opAt pops 5 =? OP_CHECKSIG)
  then true
  else if (length pops =? 4)%nat
     && (opAt pops 0 =? OP_SSTXCHANGE)
     && (opAt pops 1 =? OP_HASH160)
     && (opAt pops 2 =? OP_DATA_20)
     && (opAt pops 3 =? OP_EQUAL)
  then true
  else false.

(* ------------------------------------------------------------------ *)
(** ** The classifier *)

Definition typeOfScript (scriptVersion : Z) (script : bytes) : ScriptClass :=
  if negb (scriptVersion =? 0) then NonStandardTy
  else if isPubKeyScript script then PubKeyTy
  else if isPubKeyAltScript script then PubkeyAltTy
  else if isPubKeyHashScript script then PubKeyHashTy
  else if isPubKeyHashAltScript script then PubkeyHashAltTy
  else if isScriptHashScript script then ScriptHashTy
  else if isMultisigScript scriptVersion script then MultiSigTy
  else if isNullDataScript scriptVersion script then NullDataTy
  else if isStakeSubmissionScript scriptVersion script then StakeSubmissionTy
  else
    match parseScript script with
    | Err _ => NonStandardTy
    | Ok pops =>
        if isStakeGen pops then StakeGenTy
        else if isStakeRevocation pops then StakeRevocationTy
        else if isSStxChange pops then StakeSubChangeTy
        else NonStandardTy
    end.

Definition GetScriptClass (version : Z) (script : bytes) : ScriptClass :=
  if negb (version =? DefaultScriptVersion) then NonStandardTy
  else typeOfScript version script.

(* ------------------------------------------------------------------ *)
(** ** Script information *)

Definition isStakeClass (class : ScriptClass) : bool :=
  (class =? StakeSubmissionTy) || (class =? StakeGenTy)
  || (class =? StakeRevocationTy) || (class =? StakeSubChangeTy).

(** [expectedInputs]; the multisig case reads [pops[0]], which panics on an
    empty operation sequence. *)
Definition expectedInputs (pops : list parsedOpcode) (class subclass : ScriptClass)
  : outcome Z :=
  if class =? PubKeyTy then Returns 1
  else if class =? PubKeyHashTy then Returns 2
  else if class =? StakeSubmissionTy then
    if subclass =? PubKeyHashTy then Returns 2 else Returns 1
  else if class =? StakeGenTy then
    if subclass =? PubKeyHashTy then Returns 2 else Returns 1
  else if class =? StakeRevocationTy then
    if subclass =? PubKeyHashTy then Returns 2 else Returns 1
  else if class =? StakeSubChangeTy then
    if subclass =? PubKeyHashTy then Returns 2 else Returns 1
  else if class =? ScriptHashTy then Returns 1
  else if class =? MultiSigTy then
    pop <- index pops 0 ;; Returns (asSmallInt (opcode_value pop))
  else Returns (-1).

Record ScriptInfo : Type := mkScriptInfo {
  PkScriptClass : ScriptClass;
  NumInputs : Z;
  ExpectedInputs : Z;
  SigOps : Z
}.

(** Modelled from the spec: [checkScriptParses] ([txscript/script.go], not
    among the sources at hand) reports the parse error of the script, if any. *)
Definition checkScriptParses (scriptVersion : Z) (script : bytes)
  : option ErrorCode :=
  match parseScript script with
  | Ok _ => None
  | Err e => Some e
  end.

(** [pkScript[1:]], which panics on an empty script. *)
Definition tailFrom1 (s : bytes) : outcome bytes :=
  match s with
  | [] => Panics
  | _ :: tl => Returns tl
  end.

Definition GetStakeOutSubclass (pkScript : bytes) : outcome (result ScriptClass) :=
  let scriptVersion := 0 in
  match checkScriptParses scriptVersion pkScript with
  | Some e => Returns (Err e)
  | None =>
      let class := typeOfScript scriptVersion pkScript in
      if isStakeClass class then
        sub <- tailFrom1 pkScript ;;
        Returns (Ok (typeOfScript scriptVersion sub))
      else Returns (Err ErrNotStakeOutput)
  end.

(** Modelled from the spec: [isPushOnly] ([txscript/script.go], not among
    the sources at hand): a script is push-only when it consists of data-push operations
    only, that is of opcodes up to [OP_16]. *)
Definition isPushOnly (pops : list parsedOpcode) : bool :=
  forallb (fun pop => opcode_value pop <=? OP_16) pops.

(** The data of a decoded operation read as a script; [nil] is the empty
    script. *)
Definition asScript (d : option bytes) : bytes :=
  match d with
  | Some l => l
  | None => []
  end.

(** [pops[len(pops)-1]]: Go evaluates the index [len(pops)-1] as an [int],
    so on an empty slice the index is [-1] and the access panics. *)
Definition lastPop (pops : list parsedOpcode) : outcome parsedOpcode :=
  match pops with
  | [] => Panics
  | _ :: _ => index pops (length pops - 1)
  end.

Section ScriptInfoAnalyser.

(** [getSigOpCount] ([txscript/script.go]) is not among the sources at hand; the
    signature-operation count it returns is left abstract. *)
Variable getSigOpCount : list parsedOpcode -> bool -> Z.

Definition CalcScriptInfo (sigScript pkScript : bytes) (bip16 : bool)
  : outcome (result ScriptInfo) :=
  let scriptVersion := 0 in
  match parseScript sigScript with
  | Err e => Returns (Err e)
  | Ok sigPops =>
  match parseScript pkScript with
  | Err e => Returns (Err e)
  | Ok pkPops =>
      let class := typeOfScript scriptVersion pkScript in
      if negb (isPushOnly sigPops) then Returns (Err ErrNotPushOnly)
      else
        sub <- (if isStakeClass class then GetStakeOutSubclass pkScript
                else Returns (Ok 0)) ;;
        match sub with
        | Err e => Returns (Err e)
        | Ok subClass =>
            expected <- expectedInputs pkPops class subClass ;;
            let numInputs := Z.of_nat (length sigPops) in
            if ((class =? ScriptHashTy) || (subClass =? ScriptHashTy)) && bip16
            then
              final <- lastPop sigPops ;;
              let script := asScript (data final) in
              match parseScript script with
              | Err e => Returns (Err e)
              | Ok shPops =>
                  let reedeemClass := typeOfScript scriptVersion script in
                  shInputs <- expectedInputs shPops reedeemClass 0 ;;
                  let expected' :=
                    if shInputs =? -1 then -1 else expected + shInputs in
                  Returns (Ok {| PkScriptClass := class;
                                 NumInputs := numInputs;
                                 ExpectedInputs := expected';
                                 SigOps := getSigOpCount shPops true |})
              end
            else
              Returns (Ok {| PkScriptClass := class;
                             NumInputs := numInputs;
                             ExpectedInputs := expected;
                             SigOps := getSigOpCount pkPops true |})
        end
  end
  end.

End ScriptInfoAnalyser.

Definition CalcMultiSigStats (script : bytes) : result (Z * Z) :=
  match parseScript script with
  | Err e => Err e
  | Ok pops =>
      if (length pops <? 4)%nat then Err ErrNotMultisigScript
      else
        let numSigs := asSmallInt (opAt pops 0) in
        let numPubKeys := asSmallInt (opAt pops (length pops - 2)) in
        Ok (numPubKeys, numSigs)
  end.

Definition MultisigRedeemScriptFromScriptSig (script : bytes)
  : outcome (result (option bytes)) :=
  match parseScript script with
  | Err e => Returns (Err e)
  | Ok pops =>
      pop <- lastPop pops ;;
      Returns (Ok (data pop))
  end.

(* ------------------------------------------------------------------ *)
(** ** Atomic swap contracts *)

(** Modelled from the spec: [canonicalPush] ([txscript/script.go], not
    among the sources at hand): a push is canonical when it uses the smallest opcode that can
    push its data; an opcode above [OP_16] is no push and counts as
    canonical. *)
Definition canonicalPush (pop : parsedOpcode) : bool :=
  let opcode := opcode_value pop in
  let dataLen := len (data pop) in
  if opcode >? OP_16 then true
  else if (opcode <? OP_PUSHDATA1) && (opcode >? OP_0)
          && (dataLen =? 1)%nat && (at_ (asScript (data pop)) 0 <=? 16)
  then false
  else if (opcode =? OP_PUSHDATA1) && (Z.of_nat dataLen <? OP_PUSHDATA1)
  then false
  else if (opcode =? OP_PUSHDATA2) && (Z.of_nat dataLen <=? 0xff)
  then false
  else if (opcode =? OP_PUSHDATA4) && (Z.of_nat dataLen <=? 0xffff)
  then false
  else true.

(** Modelled from the spec: the minimal-encoding test of script numbers
    ([txscript/scriptnum.go], not among the sources at hand): the most significant byte is
    not zero apart from the sign bit, unless that bit is needed to keep the
    sign apart. *)
Definition checkMinimalDataEncoding (v : bytes) : bool :=
  match v with
  | [] => true
  | _ =>
      if Z.land (lastByte v) 0x7f =? 0 then
        negb ((length v =? 1)%nat
              || (Z.land (at_ v (length v - 2)) 0x80 =? 0))
      else true
  end.

(** Modelled from the spec: [makeScriptNum] ([txscript/scriptnum.go], not
    among the sources at hand) decodes a minimally encoded little-endian sign-magnitude
    script number of at most [scriptNumLen] bytes; [None] stands for its
    error. *)
Definition makeScriptNum (v : bytes) (scriptNumLen : nat) : option Z :=
  if (scriptNumLen <? length v)%nat then None
  else if negb (checkMinimalDataEncoding v) then None
  else
    match v with
    | [] => Some 0
    | _ =>
        let result := leDecode v in
        if negb (Z.land (lastByte v) 0x80 =? 0) then
          Some (- (Z.land result
                     (Z.lnot (Z.shiftl 0x80 (8 * (Z.of_nat (length v) - 1))))))
        else Some result
    end.

Record AtomicSwapDataPushes : Type := mkAtomicSwapDataPushes {
  RecipientHash160 : bytes;
  RefundHash160 : bytes;
  SecretHash : bytes;
  SecretSize : Z;
  LockTime : Z
}.

(** [copy(dst[:], src)] into a zeroed array of [n] bytes. *)
Definition copyInto (n : nat) (src : option bytes) : bytes :=
  let s := firstn n (asScript src) in
  s ++ repeat 0 (n - length s).

(** The decoding of one of the two numeric operands; [None] is the
    [return nil, nil] of the source. *)
Definition swapOperand (pop : parsedOpcode) : option Z :=
  match data pop with
  | Some d => makeScriptNum d 5
  | None =>
      if isSmallInt (opcode_value pop) then Some (asSmallInt (opcode_value pop))
      else None
  end.

Definition ExtractAtomicSwapDataPushes (version : Z) (pkScript : bytes)
  : result (option AtomicSwapDataPushes) :=
  match parseScript pkScript with
  | Err e => Err e
  | Ok pops =>
      if negb (length pops =? 20)%nat then Ok None
      else
        let pop i := nth i pops noPop in
        let isAtomicSwap :=
          (opAt pops 0 =? OP_IF)
          && (opAt pops 1 =? OP_SIZE)
          && canonicalPush (pop 2%nat)
          && (opAt pops 3 =? OP_EQUALVERIFY)
          && (opAt pops 4 =? OP_SHA256)
          && (opAt pops 5 =? OP_DATA_32)
          && (opAt pops 6 =? OP_EQUALVERIFY)
          && (opAt pops 7 =? OP_DUP)
          && (opAt pops 8 =? OP_HASH160)
          && (opAt pops 9 =? OP_DATA_20)
          && (opAt pops 10 =? OP_ELSE)
          && canonicalPush (pop 11%nat)
          && (opAt pops 12 =? OP_CHECKLOCKTIMEVERIFY)
          && (opAt pops 13 =? OP_DROP)
          && (opAt pops 14 =? OP_DUP)
          && (opAt pops 15 =? OP_HASH160)
          && (opAt pops 16 =? OP_DATA_20)
          && (opAt pops 17 =? OP_ENDIF)
          && (opAt pops 18 =? OP_EQUALVERIFY)
          && (opAt pops 19 =? OP_CHECKSIG) in
        if negb isAtomicSwap then Ok None
        else
          let secretHash := copyInto 32 (dataAt pops 5) in
          let recipientHash160 := copyInto 20 (dataAt pops 9) in
          let refundHash160 := copyInto 20 (dataAt pops 16) in
          match swapOperand (pop 2%nat) with
          | None => Ok None
          | Some secretSize =>
              match swapOperand (pop 11%nat) with
              | None => Ok None
              | Some lockTime =>
                  Ok (Some {| RecipientHash160 := recipientHash160;
                              RefundHash160 := refundHash160;
                              SecretHash := secretHash;
                              SecretSize := secretSize;
                              LockTime := lockTime |})
              end
          end
  end.

(* ------------------------------------------------------------------ *)
(** ** Script builder and addresses *)

(** Modelled from the spec: the size limits of the script builder
    ([txscript/scriptbuilder.go] and the engine, not among the sources at hand). *)
Definition MaxScriptSize : Z := 16384.
Definition MaxScriptElementSize : Z := 2048.

(** Modelled from the spec: [ScriptBuilder] ([txscript/scriptbuilder.go], not
    among the sources at hand) produces the canonical byte script: [AddOp] appends one
    opcode, [AddData] appends the smallest push of its data (a small-integer
    opcode for an empty or one-byte small value, [OP_DATA_n] below 76 bytes,
    then [OP_PUSHDATA1/2/4]); a script above the maximum script size, or a
    push above the maximum element size, is an error. *)
Record ScriptBuilder : Type := mkBuilder {
  sb_script : bytes;
  sb_err : option ErrorCode
}.

Definition NewScriptBuilder : ScriptBuilder :=
  {| sb_script := []; sb_err := None |}.

(** Little-endian encoding on [n] bytes. *)
Fixpoint leEncode (n : nat) (v : Z) : bytes :=
  match n with
  | O => []
  | S n' => (v mod 256) :: leEncode n' (Z.shiftr v 8)
  end.

(** Modelled from the spec: [AddOp] appends one opcode. *)
Definition AddOp (b : ScriptBuilder) (opcode : Z) : ScriptBuilder :=
  match sb_err b with
  | Some _ => b
  | None =>
      if MaxScriptSize <? Z.of_nat (length (sb_script b) + 1)
      then {| sb_script := sb_script b; sb_err := Some ErrScriptNotCanonical |}
      else {| sb_script := sb_script b ++ [opcode]; sb_err := None |}
  end.

(** Modelled from the spec: the size of the canonical push of [d]. *)
Definition canonicalDataSize (d : bytes) : nat :=
  let dataLen := length d in
  if (dataLen =? 0)%nat then 1
  else if (dataLen =? 1)%nat && (at_ d 0 <=? 16) then 1
  else if (dataLen =? 1)%nat && (at_ d 0 =? 0x81) then 1
  else if (Z.of_nat dataLen <? OP_PUSHDATA1) then 1 + dataLen
  else if (Z.of_nat dataLen <=? 0xff) then 2 + dataLen
  else if (Z.of_nat dataLen <=? 0xffff) then 3 + dataLen
  else 5 + dataLen.

(** Modelled from the spec: the canonical push of [d] appended to
    [script]. *)
Definition addData (script d : bytes) : bytes :=
  let dataLen := length d in
  if (dataLen =? 0)%nat || ((dataLen =? 1)%nat && (at_ d 0 =? 0))
  then script ++ [OP_0]
  else if (dataLen =? 1)%nat && (at_ d 0 <=? 16)
  then script ++ [(OP_1 - 1) + at_ d 0]
  else if (dataLen =? 1)%nat && (at_ d 0 =? 0x81)
  then script ++ [OP_1NEGATE]
  else
    let prefix :=
      if (Z.of_nat dataLen <? OP_PUSHDATA1)
      then [(OP_DATA_1 - 1) + Z.of_nat dataLen]
      else if (Z.of_nat dataLen <=? 0xff)
      then OP_PUSHDATA1 :: leEncode 1 (Z.of_nat dataLen)
      else if (Z.of_nat dataLen <=? 0xffff)
      then OP_PUSHDATA2 :: leEncode 2 (Z.of_nat dataLen)
      else OP_PUSHDATA4 :: leEncode 4 (Z.of_nat dataLen) in
    script ++ prefix ++ d.

(** Modelled from the spec: [AddData] appends the canonical push of [d],
    within the size limits. *)
Definition AddData (b : ScriptBuilder) (d : bytes) : ScriptBuilder :=
  match sb_err b with
  | Some _ => b
  | None =>
      if MaxScriptSize <? Z.of_nat (length (sb_script b) + canonicalDataSize d)
      then {| sb_script := sb_script b; sb_err := Some ErrScriptNotCanonical |}
      else if MaxScriptElementSize <? Z.of_nat (length d)
      then {| sb_script := sb_script b; sb_err := Some ErrScriptNotCanonical |}
      else {| sb_script := addData (sb_script b) d; sb_err := None |}
  end.

(** Modelled from the spec: the builder's [Script()]: the script built, or
    the first error met. *)
Definition BuilderScript (b : ScriptBuilder) : result bytes :=
  match sb_err b with
  | Some e => Err e
  | None => Ok (sb_script b)
  end.

(** Modelled from the spec: the pubkey-hash variant of [dcrutil.Address]
    (outside the sources at hand), reporting its 20-byte hash and its signature scheme. *)
Record AddressPubKeyHash : Type := mkAddressPubKeyHash {
  pkh_hash : bytes;
  pkh_DSA : Z
}.

(** Modelled from the spec: the script-hash variant of [dcrutil.Address],
    reporting its 20-byte hash. *)
Record AddressScriptHash : Type := mkAddressScriptHash {
  sh_hash : bytes
}.

(** Modelled from the spec: [dcrutil.Address], an opaque identity
    distinguishing the pubkey-hash and script-hash variants from the others.
    An interface value holds a typed pointer, which may be nil ([None]). *)
Inductive Address : Type :=
| PubKeyHashAddr (a : option AddressPubKeyHash)
| ScriptHashAddr (a : option AddressScriptHash)
| OtherAddr.

(** [copy(dst[off:off+n], src)]: as many bytes as both sides have. *)
Definition copyAt (off n : nat) (src dst : bytes) : bytes :=
  let k := Nat.min (Nat.min n (length src)) (length dst - off) in
  firstn off dst ++ firstn k src ++ skipn (off + k) dst.

(** [dst[i] |= mask] where [i < len(dst)]. *)
Definition orAt (i : nat) (mask : Z) (dst : bytes) : bytes :=
  firstn i dst ++ Z.lor (at_ dst i) mask :: skipn (S i) dst.

(** Conversion of an [int64] to [uint64]. *)
Definition uint64 (z : Z) : Z := z mod 2 ^ 64.

Definition GenerateSStxAddrPush (addr : Address) (amount limits : Z)
  : result bytes :=
  let checked :=
    match addr with
    | PubKeyHashAddr None => Err ErrUnsupportedAddress
    | PubKeyHashAddr (Some a) =>
        if negb (pkh_DSA a =? STEcdsaSecp256k1) then Err ErrUnsupportedAddress
        else Ok (PubKeyHashTy, pkh_hash a)
    | ScriptHashAddr None => Err ErrUnsupportedAddress
    | ScriptHashAddr (Some a) => Ok (ScriptHashTy, sh_hash a)
    | OtherAddr => Err ErrUnsupportedAddress
    end in
  match checked with
  | Err e => Err e
  | Ok (scriptType, scriptAddress) =>
      let adBytes := repeat 0 (20 + 8 + 2) in
      let adBytes := copyAt 0 20 scriptAddress adBytes in
      let adBytes := copyAt 20 8 (leEncode 8 (uint64 amount)) adBytes in
      let adBytes := copyAt 28 2 (leEncode 2 limits) adBytes in
      let adBytes :=
        if scriptType =? ScriptHashTy
        then orAt 27 (Z.shiftl 1 7) adBytes
        else adBytes in
      BuilderScript (AddData (AddOp NewScriptBuilder OP_RETURN) adBytes)
  end.

(* ------------------------------------------------------------------ *)
(** ** The staging package ([internal/staging/stdscript/scriptv0.go]) *)

Module stdscript.

(** Modelled from the spec: the [ScriptType] enumeration is declared in a
    file of the staging package that is not among the sources at hand; only the four
    values [DetermineScriptTypeV0] returns are needed. *)
Inductive ScriptType : Type :=
| STNonStandard
| STPubKeyEcdsaSecp256k1
| STPubKeyEd25519
| STPubKeySchnorrSecp256k1.

Definition ExtractCompressedPubKeyV0 (script : bytes) : option bytes :=
  if (length script =? 35)%nat
     && (at_ script 34 =? OP_CHECKSIG)
     && (at_ script 0 =? OP_DATA_33)
     && ((at_ script 1 =? 0x02) || (at_ script 1 =? 0x03))
  then Some (slice 1 34 script)
  else None.

Definition ExtractUncompressedPubKeyV0 (script : bytes) : option bytes :=
  if (length script =? 67)%nat
     && (at_ script 66 =? OP_CHECKSIG)
     && (at_ script 0 =? OP_DATA_65)
     && (at_ script 1 =? 0x04)
  then Some (slice 1 66 script)
  else None.

Definition ExtractPubKeyV0 (script : bytes) : option bytes :=
  match ExtractCompressedPubKeyV0 script with
  | Some pubKey => Some pubKey
  | None => ExtractUncompressedPubKeyV0 script
  end.

Definition IsPubKeyScriptV0 (script : bytes) : bool :=
  negb (isNil (ExtractPubKeyV0 script)).

Definition ExtractPubKeyAltDetailsV0 (script : bytes) : option bytes * Z :=
  if (length script <? 3)%nat || negb (lastByte script =? OP_CHECKSIGALT)
  then (None, 0)
  else if (length script =? 35)%nat && (at_ script 0 =? OP_DATA_32)
          && isSmallInt (at_ script 33)
          && (asSmallInt (at_ script 33) =? STEd25519)
  then (Some (slice 1 33 script), STEd25519)
  else if (length script =? 36)%nat && (at_ script 0 =? OP_DATA_33)
          && isSmallInt (at_ script 34)
          && (asSmallInt (at_ script 34) =? STSchnorrSecp256k1)
          && IsStrictCompressedPubKeyEncoding (Some (slice 1 34 script))
  then (Some (slice 1 34 script), STSchnorrSecp256k1)
  else (None, 0).

Definition IsPubKeyEd25519ScriptV0 (script : bytes) : bool :=
  let (pk, sigType) := ExtractPubKeyAltDetailsV0 script in
  negb (isNil pk) && (sigType =? STEd25519).

Definition IsPubKeySchnorrSecp256k1ScriptV0 (script : bytes) : bool :=
  let (pk, sigType) := ExtractPubKeyAltDetailsV0 script in
  negb (isNil pk) && (sigType =? STSchnorrSecp256k1).

Definition DetermineScriptTypeV0 (script : bytes) : ScriptType :=
  if IsPubKeyScriptV0 script then STPubKeyEcdsaSecp256k1
  else if IsPubKeyEd25519ScriptV0 script then STPubKeyEd25519
  else if IsPubKeySchnorrSecp256k1ScriptV0 script then STPubKeySchnorrSecp256k1
  else STNonStandard.

End stdscript.

(* ------------------------------------------------------------------ *)
(** ** The specification's reading of the classifier and of the swap template *)

(** An ordered list of checks: the first one that holds decides. *)
Fixpoint firstMatch (checks : list (bool * ScriptClass)) (otherwise : ScriptClass)
  : ScriptClass :=
  match checks with
  | [] => otherwise
  | (true, c) :: _ => c
  | (false, _) :: tl => firstMatch tl otherwise
  end.

(** The eight template checks of a version 0 script, in priority order. *)
Definition templateChecks (script : bytes) : list (bool * ScriptClass) :=
  [ (isPubKeyScript script, PubKeyTy);
    (isPubKeyAltScript script, PubkeyAltTy);
    (isPubKeyHashScript script, PubKeyHashTy);
    (isPubKeyHashAltScript script, PubkeyHashAltTy);
    (isScriptHashScript script, ScriptHashTy);
    (isMultisigScript 0 script, MultiSigTy);
    (isNullDataScript 0 script, NullDataTy);
    (isStakeSubmissionScript 0 script, StakeSubmissionTy) ].

(** The three checks on the decoded operation sequence, in order. *)
Definition parsedChecks (pops : list parsedOpcode) : list (bool * ScriptClass) :=
  [ (isStakeGen pops, StakeGenTy);
    (isStakeRevocation pops, StakeRevocationTy);
    (isSStxChange pops, StakeSubChangeTy) ].

(** What is left when no template check holds: the full parse. *)
Definition parsedFallback (script : bytes) : ScriptClass :=
  match parseScript script with
  | Err _ => NonStandardTy
  | Ok pops => firstMatch (parsedChecks pops) NonStandardTy
  end.

(** The atomic swap template, one slot per operation: a fixed opcode, or one
    of the two numeric operands (a canonical push that decodes as a script
    number of at most 5 bytes, or a small-integer opcode). *)
Inductive slot : Type :=
| Fixed (op : Z)
| Operand.

Definition atomicSwapTemplate : list slot :=
  [ Fixed OP_IF; Fixed OP_SIZE; Operand; Fixed OP_EQUALVERIFY; Fixed OP_SHA256;
    Fixed OP_DATA_32; Fixed OP_EQUALVERIFY; Fixed OP_DUP; Fixed OP_HASH160;
    Fixed OP_DATA_20; Fixed OP_ELSE; Operand; Fixed OP_CHECKLOCKTIMEVERIFY;
    Fixed OP_DROP; Fixed OP_DUP; Fixed OP_HASH160; Fixed OP_DATA_20;
    Fixed OP_ENDIF; Fixed OP_EQUALVERIFY; Fixed OP_CHECKSIG ].

Definition slotMatches (s : slot) (pop : parsedOpcode) : bool :=
  match s with
  | Fixed op => opcode_value pop =? op
  | Operand =>
      canonicalPush pop
      && match swapOperand pop with Some _ => true | None => false end
  end.

Fixpoint matchesTemplate (tpl : list slot) (pops : list parsedOpcode) : bool :=
  match tpl, pops with
  | [], [] => true
  | s :: tpl', pop :: pops' => slotMatches s pop && matchesTemplate tpl' pops'
  | _, _ => false
  end.

Definition isAtomicSwapContract (pops : list parsedOpcode) : bool :=
  matchesTemplate atomicSwapTemplate pops.

(** A well-formed decoded operation: [OP_DATA_n] carries exactly [n] bytes. *)
Definition popWf (pop : parsedOpcode) : Prop :=
  OP_DATA_1 <= opcode_value pop <= OP_DATA_75 ->
  exists d, data pop = Some d /\ Z.of_nat (length d) = opcode_value pop.

(* ------------------------------------------------------------------ *)
(** ** Example scripts and proof tactics *)

(** A 1-of-1 multisig script over a compressed key. *)
Definition oneOfOneMultisig : bytes :=
  [OP_1; OP_DATA_33] ++ (0x02 :: repeat 0x11 32) ++ [OP_1; OP_CHECKMULTISIG].

(** A pay-to-script-hash script, and a signature script that redeems it
    with [oneOfOneMultisig] as its final push. *)
Definition exampleP2SH : bytes :=
  [OP_HASH160; OP_DATA_20] ++ repeat 0x07 20 ++ [OP_EQUAL].

Definition exampleRedeemSigScript : bytes :=
  [OP_0; 0x25] ++ oneOfOneMultisig.

(** The atomic swap contract used as an example: secret size 32 pushed as
    one data byte, lock time pushed as four data bytes. *)
Definition exampleSwap : bytes :=
  [OP_IF; OP_SIZE; 0x01; 0x20; OP_EQUALVERIFY; OP_SHA256; OP_DATA_32]
  ++ repeat 9 32
  ++ [OP_EQUALVERIFY; OP_DUP; OP_HASH160; OP_DATA_20] ++ repeat 1 20
  ++ [OP_ELSE; 0x04; 0x00; 0x00; 0x00; 0x01; OP_CHECKLOCKTIMEVERIFY; OP_DROP;
      OP_DUP; OP_HASH160; OP_DATA_20] ++ repeat 2 20
  ++ [OP_ENDIF; OP_EQUALVERIFY; OP_CHECKSIG].

(** Rewrites to [false] the length tests that arithmetic refutes. *)
Ltac len_false :=
  repeat match goal with
  | |- context [(length ?s =? ?n)%nat] =>
      replace (length s =? n)%nat with false
        by (symmetry; apply Nat.eqb_neq; lia)
  end.

(** Case split on the next conjunct of a chain of checks. *)
Ltac atom a := destruct a eqn:?; cbn [andb negb]; [| try reflexivity].

(* ------------------------------------------------------------------ *)
(** ** The remaining analysers of [txscript/standard.go] *)

(** Modelled from the spec: the small-integer opcodes [OP_3 .. OP_15],
    declared in [txscript/opcode.go] with the others. *)
Definition OP_3 : Z := 0x53.
Definition OP_4 : Z := 0x54.
Definition OP_5 : Z := 0x55.
Definition OP_6 : Z := 0x56.
Definition OP_7 : Z := 0x57.
Definition OP_8 : Z := 0x58.
Definition OP_9 : Z := 0x59.
Definition OP_10 : Z := 0x5a.
Definition OP_11 : Z := 0x5b.
Definition OP_12 : Z := 0x5c.
Definition OP_13 : Z := 0x5d.
Definition OP_14 : Z := 0x5e.
Definition OP_15 : Z := 0x5f.

(** An error of a function that reports plain errors next to the script
    errors: [E] is the type of its own errors. *)
Inductive resultOf (E A : Type) : Type :=
| Success (a : A)
| Failure (e : E).
Arguments Success {E A} a.
Arguments Failure {E A} e.

Definition isOneByteMaxDataPush (po : parsedOpcode) : bool :=
  (opcode_value po =? OP_1)
  || (opcode_value po =? OP_2)
  || (opcode_value po =? OP_3)
  || (opcode_value po =? OP_4)
  || (opcode_value po =? OP_5)
  || (opcode_value po =? OP_6)
  || (opcode_value po =? OP_7)
  || (opcode_value po =? OP_8)
  || (opcode_value po =? OP_9)
  || (opcode_value po =? OP_10)
  || (opcode_value po =? OP_11)
  || (opcode_value po =? OP_12)
  || (opcode_value po =? OP_13)
  || (opcode_value po =? OP_14)
  || (opcode_value po =? OP_15)
  || (opcode_value po =? OP_16)
  || (opcode_value po =? OP_DATA_1).

Definition isPubkeyAlt (pops : list parsedOpcode) : bool :=
  (length pops =? 3)%nat
  && (len (dataAt pops 0) <? 512)%nat
  && isOneByteMaxDataPush (nth 1 pops noPop)
  && (opAt pops 2 =? OP_CHECKSIGALT).

Definition isPubkeyHashAlt (pops : list parsedOpcode) : bool :=
  (length pops =? 6)%nat
  && (opAt pops 0 =? OP_DUP)
  && (opAt pops 1 =? OP_HASH160)
  && (opAt pops 2 =? OP_DATA_20)
  && (opAt pops 3 =? OP_EQUALVERIFY)
  && isOneByteMaxDataPush (nth 4 pops noPop)
  && (opAt pops 5 =? OP_CHECKSIGALT).

Definition IsMultisigScript (script : bytes) : bool * option ErrorCode :=
  let scriptVersion := 0 in
  (isMultisigScript scriptVersion script, None).

Definition IsStakeOutput (pkScript : bytes) : bool :=
  let scriptVersion := 0 in
  let class := typeOfScript scriptVersion pkScript in
  (class =? StakeSubmissionTy)
  || (class =? StakeGenTy)
  || (class =? StakeRevocationTy)
  || (class =? StakeSubChangeTy).

(** [getStakeOutSubscript]: [pkScript[1:]], which panics on an empty
    script. *)
Definition getStakeOutSubscript (pkScript : bytes) : outcome bytes :=
  tailFrom1 pkScript.

(** Modelled from the spec: [isStakeOpcode] ([txscript/opcode.go], not among
    the sources at hand): the four stake-tagging opcodes, submission,
    generation, revocation and change. *)
Definition isStakeOpcode (op : Z) : bool :=
  (OP_SSTX <=? op) && (op <=? OP_SSTXCHANGE).

Definition ContainsStakeOpCodes (pkScript : bytes) : result bool :=
  match parseScript pkScript with
  | Err e => Err e
  | Ok shPops => Ok (existsb (fun pop => isStakeOpcode (opcode_value pop)) shPops)
  end.

(** The loop of [GetScriptHashFromP2SHScript]: the data of the operation
    that follows the first [OP_HASH160]. *)
Fixpoint scriptHashLoop (pops : list parsedOpcode)
  (reachedHash160DataPush : bool) : option bytes :=
  match pops with
  | [] => None
  | p :: tl =>
      if opcode_value p =? OP_HASH160 then scriptHashLoop tl true
      else if reachedHash160DataPush then data p
      else scriptHashLoop tl reachedHash160DataPush
  end.

Definition GetScriptHashFromP2SHScript (pkScript : bytes)
  : result (option bytes) :=
  match parseScript pkScript with
  | Err e => Err e
  | Ok pops => Ok (scriptHashLoop pops false)
  end.

(** The loop of [PushedData]: the data of every operation that carries
    some, and a nil entry for every [OP_0]. *)
Fixpoint pushedDataLoop (pops : list parsedOpcode) : list (option bytes) :=
  match pops with
  | [] => []
  | pop :: tl =>
      match data pop with
      | Some d => Some d :: pushedDataLoop tl
      | None =>
          if opcode_value pop =? OP_0 then None :: pushedDataLoop tl
          else pushedDataLoop tl
      end
  end.

Definition PushedData (script : bytes) : result (list (option bytes)) :=
  match parseScript script with
  | Err e => Err e
  | Ok pops => Ok (pushedDataLoop pops)
  end.

(** Conversion of an [int] to [uint8]. *)
Definition uint8 (z : Z) : Z := z mod 256.

Definition GetMultisigMandN (script : bytes) : result (Z * Z) :=
  match CalcMultiSigStats script with
  | Err e => Err e
  | Ok (numPubKeys, requiredSigs) => Ok (uint8 requiredSigs, uint8 numPubKeys)
  end.

(** [extractOneBytePush]; [po.data[0]] panics on empty data. *)
Definition extractOneBytePush (po : parsedOpcode) : outcome Z :=
  if negb (isOneByteMaxDataPush po) then Returns (-1)
  else if (opcode_value po =? OP_1)
          || (opcode_value po =? OP_2)
          || (opcode_value po =? OP_3)
          || (opcode_value po =? OP_4)
          || (opcode_value po =? OP_5)
          || (opcode_value po =? OP_6)
          || (opcode_value po =? OP_7)
          || (opcode_value po =? OP_8)
          || (opcode_value po =? OP_9)
          || (opcode_value po =? OP_10)
          || (opcode_value po =? OP_11)
          || (opcode_value po =? OP_12)
          || (opcode_value po =? OP_13)
          || (opcode_value po =? OP_14)
          || (opcode_value po =? OP_15)
          || (opcode_value po =? OP_16)
  then Returns (opcode_value po - 80)
  else index (asScript (data po)) 0.

(** The errors of [ExtractPkScriptAltSigType]. *)
Inductive AltSigError : Type :=
| AltSigParseError (e : ErrorCode)
| WrongScriptType
| BadTypePush
| BadSignatureSchemeType.

Definition ExtractPkScriptAltSigType (pkScript : bytes)
  : outcome (resultOf AltSigError Z) :=
  match parseScript pkScript with
  | Err e => Returns (Failure (AltSigParseError e))
  | Ok pops =>
      let isPKA := isPubkeyAlt pops in
      let isPKHA := isPubkeyHashAlt pops in
      if negb (isPKA || isPKHA) then Returns (Failure WrongScriptType)
      else
        let sigTypeLoc := if isPKHA then 4%nat else 1%nat in
        pop <- index pops sigTypeLoc ;;
        valInt <- extractOneBytePush pop ;;
        if valInt <? 0 then Returns (Failure BadTypePush)
        else if valInt =? STEd25519 then Returns (Success valInt)
        else if valInt =? STSchnorrSecp256k1 then Returns (Success valInt)
        else Returns (Failure BadSignatureSchemeType)
  end.

(* ------------------------------------------------------------------ *)
(** ** The script builders of [txscript/standard.go] *)

Definition payToPubKeyHashScript (pubKeyHash : bytes) : result bytes :=
  BuilderScript
    (AddOp (AddOp (AddData (AddOp (AddOp NewScriptBuilder OP_DUP) OP_HASH160)
                     pubKeyHash) OP_EQUALVERIFY) OP_CHECKSIG).

Definition payToPubKeyHashEdwardsScript (pubKeyHash : bytes) : result bytes :=
  let edwardsData := [STEd25519] in
  BuilderScript
    (AddOp (AddData (AddOp (AddData (AddOp (AddOp NewScriptBuilder OP_DUP)
                                       OP_HASH160) pubKeyHash)
                       OP_EQUALVERIFY) edwardsData) OP_CHECKSIGALT).

Definition payToPubKeyHashSchnorrScript (pubKeyHash : bytes) : result bytes :=
  let schnorrData := [STSchnorrSecp256k1] in
  BuilderScript
    (AddOp (AddData (AddOp (AddData (AddOp (AddOp NewScriptBuilder OP_DUP)
                                       OP_HASH160) pubKeyHash)
                       OP_EQUALVERIFY) schnorrData) OP_CHECKSIGALT).

Definition payToScriptHashScript (scriptHash : bytes) : result bytes :=
  BuilderScript
    (AddOp (AddData (AddOp NewScriptBuilder OP_HASH160) scriptHash) OP_EQUAL).

Definition PayToScriptHashScript (scriptHash : bytes) : result bytes :=
  payToScriptHashScript scriptHash.

Definition payToPubKeyScript (serializedPubKey : bytes) : result bytes :=
  BuilderScript (AddOp (AddData NewScriptBuilder serializedPubKey) OP_CHECKSIG).

Definition payToEdwardsPubKeyScript (serializedPubKey : bytes) : result bytes :=
  let edwardsData := [STEd25519] in
  BuilderScript
    (AddOp (AddData (AddData NewScriptBuilder serializedPubKey) edwardsData)
       OP_CHECKSIGALT).

Definition payToSchnorrPubKeyScript (serializedPubKey : bytes) : result bytes :=
  let schnorrData := [STSchnorrSecp256k1] in
  BuilderScript
    (AddOp (AddData (AddData NewScriptBuilder serializedPubKey) schnorrData)
       OP_CHECKSIGALT).

(** The type switch that opens [PayToSStx], [PayToSStxChange], [PayToSSGen]
    and [PayToSSRtx] (it is the one of [GenerateSStxAddrPush]): the script
    type and the hash of a supported address. *)
Definition stakeAddress (addr : Address) : result (ScriptClass * bytes) :=
  match addr with
  | PubKeyHashAddr None => Err ErrUnsupportedAddress
  | PubKeyHashAddr (Some a) =>
      if negb (pkh_DSA a =? STEcdsaSecp256k1) then Err ErrUnsupportedAddress
      else Ok (PubKeyHashTy, pkh_hash a)
  | ScriptHashAddr None => Err ErrUnsupportedAddress
  | ScriptHashAddr (Some a) => Ok (ScriptHashTy, sh_hash a)
  | OtherAddr => Err ErrUnsupportedAddress
  end.

(** The two scripts those four builders end with, for the stake opcode of
    each. *)
Definition stakeTagged (stakeOpcode : Z) (scriptType : ScriptClass)
  (hash : bytes) : result bytes :=
  if scriptType =? PubKeyHashTy then
    BuilderScript
      (AddOp (AddOp (AddData (AddOp (AddOp (AddOp NewScriptBuilder stakeOpcode)
                                       OP_DUP) OP_HASH160) hash)
                OP_EQUALVERIFY) OP_CHECKSIG)
  else
    BuilderScript
      (AddOp (AddData (AddOp (AddOp NewScriptBuilder stakeOpcode) OP_HASH160)
                hash) OP_EQUAL).

Definition PayToSStx (addr : Address) : result bytes :=
  match stakeAddress addr with
  | Err e => Err e
  | Ok (scriptType, hash) => stakeTagged OP_SSTX scriptType hash
  end.

Definition PayToSStxChange (addr : Address) : result bytes :=
  match stakeAddress addr with
  | Err e => Err e
  | Ok (scriptType, hash) => stakeTagged OP_SSTXCHANGE scriptType hash
  end.

Definition PayToSSGen (addr : Address) : result bytes :=
  match stakeAddress addr with
  | Err e => Err e
  | Ok (scriptType, hash) => stakeTagged OP_SSGEN scriptType hash
  end.

Definition PayToSSRtx (addr : Address) : result bytes :=
  match stakeAddress addr with
  | Err e => Err e
  | Ok (scriptType, hash) => stakeTagged OP_SSRTX scriptType hash
  end.





(** [blockHash] is a 32-byte array in the source; [copy] takes as many
    bytes as both sides have. *)
Definition GenerateSSGenBlockRef (blockHash : bytes) (height : Z)
  : result bytes :=
  let brBytes := repeat 0 (32 + 4) in
  let brBytes := copyAt 0 32 blockHash brBytes in
  let brBytes := copyAt 32 4 (leEncode 4 height) brBytes in
  BuilderScript (AddData (AddOp NewScriptBuilder OP_RETURN) brBytes).

Definition GenerateSSGenVotes (votebits : Z) : result bytes :=
  let vbBytes := repeat 0 2 in
  let vbBytes := copyAt 0 2 (leEncode 2 votebits) vbBytes in
  BuilderScript (AddData (AddOp NewScriptBuilder OP_RETURN) vbBytes).

Definition GenerateProvablyPruneableOut (d : bytes) : result bytes :=
  if (MaxDataCarrierSize <? length d)%nat then Err ErrTooMuchNullData
  else BuilderScript (AddData (AddOp NewScriptBuilder OP_RETURN) d).

(** Modelled from the spec: the address variants [PayToAddrScript]
    dispatches on ([dcrutil], outside the sources at hand): pubkey hash,
    script hash, and the three raw public key variants, each reporting its
    hash or its serialized key; an interface value holds a typed pointer,
    which may be nil ([None]). *)
Inductive PaymentAddress : Type :=
| PayPubKeyHash (a : option AddressPubKeyHash)
| PayScriptHash (a : option AddressScriptHash)
| PaySecpPubKey (serialized : option bytes)
| PayEdwardsPubKey (serialized : option bytes)
| PaySecSchnorrPubKey (serialized : option bytes)
| PayOther.

Definition PayToAddrScript (addr : PaymentAddress) : result bytes :=
  match addr with
  | PayPubKeyHash None => Err ErrUnsupportedAddress
  | PayPubKeyHash (Some a) =>
      if pkh_DSA a =? STEcdsaSecp256k1
      then payToPubKeyHashScript (pkh_hash a)
      else if pkh_DSA a =? STEd25519
      then payToPubKeyHashEdwardsScript (pkh_hash a)
      else if pkh_DSA a =? STSchnorrSecp256k1
      then payToPubKeyHashSchnorrScript (pkh_hash a)
      else Err ErrUnsupportedAddress
  | PayScriptHash None => Err ErrUnsupportedAddress
  | PayScriptHash (Some a) => payToScriptHashScript (sh_hash a)
  | PaySecpPubKey None => Err ErrUnsupportedAddress
  | PaySecpPubKey (Some k) => payToPubKeyScript k
  | PayEdwardsPubKey None => Err ErrUnsupportedAddress
  | PayEdwardsPubKey (Some k) => payToEdwardsPubKeyScript k
  | PaySecSchnorrPubKey None => Err ErrUnsupportedAddress
  | PaySecSchnorrPubKey (Some k) => payToSchnorrPubKeyScript k
  | PayOther => Err ErrUnsupportedAddress
  end.

(** Modelled from the spec: the minimal sign-magnitude little-endian
    encoding of a script number ([scriptNum.Bytes] of
    [txscript/scriptnum.go], not among the sources at hand); an [int64] has
    at most 8 magnitude bytes. *)
Fixpoint magnitudeBytes (fuel : nat) (n : Z) : bytes :=
  match fuel with
  | O => []
  | S fuel' =>
      if n >? 0 then Z.land n 0xff :: magnitudeBytes fuel' (Z.shiftr n 8)
      else []
  end.

Definition scriptNumBytes (n : Z) : bytes :=
  if n =? 0 then []
  else
    let isNegative := n <? 0 in
    let result := magnitudeBytes 8 (Z.abs n) in
    if negb (Z.land (lastByte result) 0x80 =? 0) then
      result ++ [if isNegative then 0x80 else 0x00]
    else if isNegative then
      firstn (length result - 1) result ++ [Z.lor (lastByte result) 0x80]
    else result.

(** Modelled from the spec: [AddInt64] of the script builder: the
    small-integer opcode for 0, -1 and 1 to 16, the canonical push of the
    script number otherwise. *)
Definition AddInt64 (b : ScriptBuilder) (val : Z) : ScriptBuilder :=
  match sb_err b with
  | Some _ => b
  | None =>
      if MaxScriptSize <? Z.of_nat (length (sb_script b) + 1)
      then {| sb_script := sb_script b; sb_err := Some ErrScriptNotCanonical |}
      else if val =? 0
      then {| sb_script := sb_script b ++ [OP_0]; sb_err := None |}
      else if (val =? -1) || ((1 <=? val) && (val <=? 16))
      then {| sb_script := sb_script b ++ [(OP_1 - 1) + val]; sb_err := None |}
      else AddData b (scriptNumBytes val)
  end.

(** The errors of [MultiSigScript]: its own, and the builder's. *)
Inductive MultiSigScriptError : Type :=
| ErrTooManyRequiredSigs
| MultiSigBuilderError (e : ErrorCode).

(** [pubkeys] holds the serialized key each address reports. *)
Definition MultiSigScript (pubkeys : list bytes) (nrequired : Z)
  : resultOf MultiSigScriptError bytes :=
  if Z.of_nat (length pubkeys) <? nrequired then Failure ErrTooManyRequiredSigs
  else
    let builder := AddInt64 NewScriptBuilder nrequired in
    let builder := fold_left AddData pubkeys builder in
    let builder := AddInt64 builder (Z.of_nat (length pubkeys)) in
    let builder := AddOp builder OP_CHECKMULTISIG in
    match BuilderScript builder with
    | Ok script => Success script
    | Err e => Failure (MultiSigBuilderError e)
    end.

(* ------------------------------------------------------------------ *)
(** ** Helpers of the statements and proofs below *)

(** The one payload whose canonical push is no data push and no small
    integer: the single byte [0x81], pushed as [OP_1NEGATE]. *)
Definition isOneNegate (d : bytes) : bool :=
  match d with
  | [b] => b =? 0x81
  | _ => false
  end.

(** A byte string proper: every element is a byte. *)
Definition allBytes (d : bytes) : Prop := Forall (fun b => 0 <= b < 256) d.

(** Splits a list of known length into its elements. *)
Tactic Notation "explode" ident(l) integer(n) hyp(H) :=
  do n (destruct l as [|? l]; [discriminate H|]);
  destruct l; [|discriminate H]; clear H.

(** The class a supported payment address is paid to, and [None] for an
    address [PayToAddrScript] refuses. *)
Definition classOfAddress (addr : PaymentAddress) : option ScriptClass :=
  match addr with
  | PayPubKeyHash (Some a) =>
      if pkh_DSA a =? STEcdsaSecp256k1 then Some PubKeyHashTy
      else if (pkh_DSA a =? STEd25519) || (pkh_DSA a =? STSchnorrSecp256k1)
      then Some PubkeyHashAltTy
      else None
  | PayScriptHash (Some _) => Some ScriptHashTy
  | PaySecpPubKey (Some _) => Some PubKeyTy
  | PayEdwardsPubKey (Some _) => Some PubkeyAltTy
  | PaySecSchnorrPubKey (Some _) => Some PubkeyAltTy
  | _ => None
  end.

(** The sizes the address types guarantee: 20-byte hashes, a strictly
    encoded secp256k1 key, a 32-byte Ed25519 key, a compressed key for
    Schnorr. *)
Definition addressSized (addr : PaymentAddress) : bool :=
  match addr with
  | PayPubKeyHash (Some a) => (length (pkh_hash a) =? 20)%nat
  | PayScriptHash (Some a) => (length (sh_hash a) =? 20)%nat
  | PaySecpPubKey (Some k) => isStrictPubKeyEncoding (Some k)
  | PayEdwardsPubKey (Some k) => (length k =? 32)%nat
  | PaySecSchnorrPubKey (Some k) => IsStrictCompressedPubKeyEncoding (Some k)
  | _ => true
  end.

(** The stake address of a hash: script hash or ECDSA pubkey hash. *)
Definition stakeAddrOf (isP2SH : bool) (hash : bytes) : Address :=
  if isP2SH then ScriptHashAddr (Some (mkAddressScriptHash hash))
  else PubKeyHashAddr (Some (mkAddressPubKeyHash hash STEcdsaSecp256k1)).

(** The addresses the stake builders refuse. *)
Definition unsupportedStakeAddr (addr : Address) : bool :=
  match addr with
  | PubKeyHashAddr (Some a) => negb (pkh_DSA a =? STEcdsaSecp256k1)
  | ScriptHashAddr (Some _) => false
  | _ => true
  end.

(** The decoded operations [ps] are what the parser reads off the front of
    [s], one [parseOne] round each, leaving [rest]. *)
Fixpoint parsesTo (ps : list parsedOpcode) (s rest : bytes) : Prop :=
  match ps with
  | [] => s = rest
  | p :: ps' =>
      exists op tl mid,
        s = op :: tl /\ parseOne op tl = Some (p, mid) /\ parsesTo ps' mid rest
  end.

(** The opcode [AddInt64] emits for a small integer. *)
Definition smallIntOp (v : Z) : Z :=
  if v =? 0 then OP_0 else (OP_1 - 1) + v.

(** The canonical pushes of a list of public keys, one after the other. *)
Definition keyPushes (keys : list bytes) : bytes :=
  flat_map (fun k => Z.of_nat (length k) :: k) keys.

(** Every key is strictly encoded. *)
Definition strictKeys (keys : list bytes) : Prop :=
  Forall (fun k => isStrictPubKeyEncoding (Some k) = true) keys.

(** Proof tactics: the facts behind boolean tests, and the branches of the
    conditionals of a hypothesis. *)
Ltac bool_facts :=
  repeat match goal with
  | H : _ && _ = true |- _ => apply andb_true_iff in H; destruct H
  | H : _ || _ = false |- _ => apply orb_false_iff in H; destruct H
  | H : negb _ = false |- _ => apply negb_false_iff in H
  | H : negb _ = true |- _ => apply negb_true_iff in H
  | H : (_ =? _)%nat = true |- _ => apply Nat.eqb_eq in H
  | H : (_ <? _)%nat = false |- _ => apply Nat.ltb_ge in H
  | H : (_ =? _) = true |- _ => apply Z.eqb_eq in H
  | H : (_ <=? _) = true |- _ => apply Z.leb_le in H
  end.

Ltac split_ifs H :=
  repeat match type of H with
         | context [if ?c then _ else _] => destruct c eqn:?; cbv iota in H
         end;
  cbn [negb isNil fst snd] in H;
  try discriminate H.

(* ------------------------------------------------------------------ *)
(** ** The parser and the tokenizer loop never run out of rounds *)

Lemma parseOne_shorter op tl pop rest :
  parseOne op tl = Some (pop, rest) -> (length rest <= length tl)%nat.
Proof.
  unfold parseOne.
  destruct (opLength op =? 1).
  - intros H; inversion H; subst; lia.
  - destruct (opLength op >? 1).
    + destruct (S (length tl) <? Z.to_nat (opLength op))%nat; [discriminate|].
      intros H; inversion H; subst. rewrite length_skipn. lia.
    + destruct (length tl <? Z.to_nat (- opLength op))%nat; [discriminate|].
      destruct (_ >? _); [discriminate|].
      intros H; inversion H; subst. rewrite !length_skipn. lia.
Qed.

Lemma parseLoop_fuel fuel script :
  (length script <= fuel)%nat ->
  parseLoop fuel script = parseScript script.
Proof.
  unfold parseScript.
  remember (length script) as n eqn:Hn.
  assert (Hle : (length script <= n)%nat) by lia. clear Hn.
  revert script fuel Hle.
  induction n as [|n IH]; intros script fuel Hle Hf.
  - destruct script; [destruct fuel; reflexivity | simpl in Hle; lia].
  - destruct script as [|op tl]; [destruct fuel; reflexivity|].
    destruct fuel as [|fuel]; [lia|]. simpl in Hle.
    simpl. destruct (parseOne op tl) as [[pop rest]|] eqn:E; [|reflexivity].
    apply parseOne_shorter in E.
    rewrite (IH rest fuel) by lia. reflexivity.
Qed.

Lemma parseScript_cons op tl :
  parseScript (op :: tl) =
  match parseOne op tl with
  | None => Err ErrMalformedPush
  | Some (pop, rest) =>
      match parseScript rest with
      | Ok pops => Ok (pop :: pops)
      | Err e => Err e
      end
  end.
Proof.
  unfold parseScript at 1. simpl.
  destruct (parseOne op tl) as [[pop rest]|] eqn:E; [|reflexivity].
  rewrite parseLoop_fuel; [reflexivity|].
  apply parseOne_shorter in E. exact E.
Qed.

(** The parser never reports that it ran out of rounds. *)
Lemma parseScript_total script :
  parseScript script <> Err ErrInternal.
Proof.
  remember (length script) as n eqn:Hn.
  assert (Hle : (length script <= n)%nat) by lia. clear Hn.
  revert script Hle. induction n as [|n IH]; intros script Hle.
  - destruct script; [discriminate | simpl in Hle; lia].
  - destruct script as [|op tl]; [discriminate|].
    rewrite parseScript_cons.
    destruct (parseOne op tl) as [[pop rest]|] eqn:E; [|discriminate].
    apply parseOne_shorter in E. simpl in Hle.
    specialize (IH rest ltac:(lia)).
    destruct (parseScript rest); [discriminate|]. congruence.
Qed.

Lemma Next_true t t' :
  Next t = (true, t') ->
  tk_script t' = tk_script t
  /\ (tk_offset t < tk_offset t')%nat
  /\ (tk_offset t < length (tk_script t))%nat.
Proof.
  unfold Next, Done.
  destruct (tk_err t) eqn:Ee; [discriminate|].
  destruct (length (tk_script t) <=? tk_offset t)%nat eqn:El; [discriminate|].
  apply Nat.leb_gt in El.
  destruct (skipn (tk_offset t) (tk_script t)) as [|op tl]; [discriminate|].
  unfold tokAdvance, tokFail.
  destruct (opLength op =? 1) eqn:E1.
  - intros H; inversion H; subst; simpl. repeat split; lia.
  - apply Z.eqb_neq in E1.
    destruct (opLength op >? 1) eqn:E2.
    + destruct (_ <? _)%nat; [discriminate|].
      intros H; inversion H; subst; simpl. repeat split; lia.
    + destruct (_ <? _)%nat; [discriminate|].
      destruct (_ || _); [discriminate|].
      intros H; inversion H; subst; simpl. repeat split; lia.
Qed.

Lemma pubKeyLoop_fuel fuel1 fuel2 t n ks :
  (length (tk_script t) - tk_offset t < fuel1)%nat ->
  (length (tk_script t) - tk_offset t < fuel2)%nat ->
  pubKeyLoop fuel1 t n ks = pubKeyLoop fuel2 t n ks.
Proof.
  revert fuel2 t n ks.
  induction fuel1 as [|f1 IH]; intros fuel2 t n ks H1 H2; [lia|].
  destruct fuel2 as [|f2]; [lia|].
  simpl. destruct (Next t) as [ok t'] eqn:EN.
  destruct ok; [|reflexivity].
  destruct (negb (isStrictPubKeyEncoding (Data t'))); [reflexivity|].
  apply Next_true in EN. destruct EN as (Hs & Ho & Hl).
  apply IH; rewrite Hs; lia.
Qed.

(** In [extractMultisigScriptDetails] the loop starts after one successful
    [Next], so [length script] rounds cover it: more rounds change nothing. *)
Lemma pubKeyLoop_enough script t0 t fuel n ks :
  Next t0 = (true, t) -> tk_script t0 = script ->
  (length script <= fuel)%nat ->
  pubKeyLoop fuel t n ks = pubKeyLoop (length script) t n ks.
Proof.
  intros HN Hs Hf. apply Next_true in HN. destruct HN as (Hs' & Ho & Hl).
  apply pubKeyLoop_fuel; rewrite Hs', Hs in *; lia.
Qed.

(* ------------------------------------------------------------------ *)
(** ** Small evaluation lemmas *)

Lemma firstMatch_app pre c post d :
  Forall (fun p => fst p = false) pre ->
  firstMatch (pre ++ (true, c) :: post) d = c.
Proof.
  induction 1 as [|[b c'] pre Hb _ IH]; [reflexivity|].
  simpl in *. subst b. exact IH.
Qed.

Lemma firstMatch_none checks d :
  Forall (fun p => fst p = false) checks -> firstMatch checks d = d.
Proof.
  induction 1 as [|[b c'] pre Hb _ IH]; [reflexivity|].
  simpl in *. subst b. exact IH.
Qed.

Lemma firstMatch_in checks d :
  firstMatch checks d = d \/
  exists pre c post,
    checks = pre ++ (true, c) :: post
    /\ Forall (fun p => fst p = false) pre
    /\ firstMatch checks d = c.
Proof.
  induction checks as [|[b c] tl IH]; [left; reflexivity|].
  destruct b.
  - right. exists [], c, tl. repeat split. constructor.
  - simpl. destruct IH as [IH | (pre & c' & post & E & F & R)]; [left; exact IH|].
    right. exists ((false, c) :: pre), c', post. subst tl.
    repeat split; [constructor; [reflexivity | exact F] | exact R].
Qed.

Lemma firstMatch_prefix pre c post d :
  In (firstMatch (pre ++ (true, c) :: post) d) (map snd (pre ++ [(true, c)])).
Proof.
  induction pre as [|[b c'] pre IH]; simpl; [left; reflexivity|].
  destruct b; [left; reflexivity | right; exact IH].
Qed.

Lemma NoDup_app_disjoint (A : Type) (l1 l2 : list A) (x : A) :
  NoDup (l1 ++ l2) -> In x l1 -> ~ In x l2.
Proof.
  induction l1 as [|a l1 IH]; simpl; intros ND H1 H2; [exact H1|].
  inversion ND as [|? ? Hn ND']; subst.
  destruct H1 as [->|H1].
  - apply Hn. apply in_or_app. right. exact H2.
  - exact (IH ND' H1 H2).
Qed.

Lemma templateChecks_classes script :
  map snd (templateChecks script) =
  [PubKeyTy; PubkeyAltTy; PubKeyHashTy; PubkeyHashAltTy; ScriptHashTy;
   MultiSigTy; NullDataTy; StakeSubmissionTy].
Proof. reflexivity. Qed.

Lemma typeOfScript_firstMatch script :
  typeOfScript 0 script =
  firstMatch (templateChecks script) (parsedFallback script).
Proof.
  unfold typeOfScript, templateChecks, parsedFallback, parsedChecks. simpl.
  destruct (isPubKeyScript script); [reflexivity|].
  destruct (isPubKeyAltScript script); [reflexivity|].
  destruct (isPubKeyHashScript script); [reflexivity|].
  destruct (isPubKeyHashAltScript script); [reflexivity|].
  destruct (isScriptHashScript script); [reflexivity|].
  destruct (isMultisigScript 0 script); [reflexivity|].
  destruct (isNullDataScript 0 script); [reflexivity|].
  destruct (isStakeSubmissionScript 0 script); [reflexivity|].
  destruct (parseScript script) as [pops|e]; [|reflexivity].
  destruct (isStakeGen pops); [reflexivity|].
  destruct (isStakeRevocation pops); [reflexivity|].
  destruct (isSStxChange pops); reflexivity.
Qed.

(** C1.  At script version 0 the classifier is the first-match evaluation of
    the eight template checks in the order pay-to-pubkey, pay-to-pubkey-alt,
    pay-to-pubkey-hash, pay-to-pubkey-hash-alt, pay-to-script-hash,
    multisig, null-data, stake-submission: the first check that holds
    decides, and the class of a later check is never returned.  When none
    holds the script is fully parsed: a parse failure is NonStandard, and
    otherwise stake-generation, stake-revocation and stake-change are tried
    in that order on the decoded operations, NonStandard being the result
    when none matches. *)
Theorem typeOfScript_priority (script : bytes) :
  typeOfScript 0 script
  = firstMatch (templateChecks script) (parsedFallback script)
  /\ (forall pre c post,
        templateChecks script = pre ++ (true, c) :: post ->
        Forall (fun p => fst p = false) pre ->
        typeOfScript 0 script = c)
  /\ (forall pre c post,
        templateChecks script = pre ++ (true, c) :: post ->
        ~ In (typeOfScript 0 script) (map snd post))
  /\ (Forall (fun p => fst p = false) (templateChecks script) ->
        (forall e, parseScript script = Err e ->
           typeOfScript 0 script = NonStandardTy)
        /\ (forall pops, parseScript script = Ok pops ->
              typeOfScript 0 script
              = if isStakeGen pops then StakeGenTy
                else if isStakeRevocation pops then StakeRevocationTy
                else if isSStxChange pops then StakeSubChangeTy
                else NonStandardTy)).
Proof.
  pose proof (typeOfScript_firstMatch script) as Hfm.
  split; [exact Hfm|]. split; [|split].
  - intros pre c post E F. rewrite Hfm, E. apply firstMatch_app. exact F.
  - intros pre c post E.
    rewrite Hfm, E.
    apply NoDup_app_disjoint with (l1 := map snd (pre ++ [(true, c)])).
    + rewrite <- map_app, <- app_assoc. simpl. rewrite <- E.
      rewrite templateChecks_classes.
      repeat (constructor; [simpl; intuition discriminate|]). constructor.
    + apply firstMatch_prefix.
  - intros F. rewrite Hfm, (firstMatch_none _ _ F). unfold parsedFallback.
    split.
    + intros e E. rewrite E. reflexivity.
    + intros pops E. rewrite E. unfold parsedChecks. simpl.
      destruct (isStakeGen pops); [reflexivity|].
      destruct (isStakeRevocation pops); [reflexivity|].
      destruct (isSStxChange pops); reflexivity.
Qed.

(** The pay-to-script-hash test vector matches the fifth check only. *)
Lemma typeOfScript_priority_witness :
  typeOfScript 0 ([0xa9; 0x14] ++ repeat 7 20 ++ [0x87]) = ScriptHashTy.
Proof.
  apply (proj1 (proj2 (typeOfScript_priority ([0xa9; 0x14] ++ repeat 7 20 ++ [0x87])))
           [ (false, PubKeyTy); (false, PubkeyAltTy); (false, PubKeyHashTy);
             (false, PubkeyHashAltTy) ]
           ScriptHashTy
           [ (false, MultiSigTy); (false, NullDataTy);
             (false, StakeSubmissionTy) ]).
  - reflexivity.
  - repeat constructor.
Defined.

(** C2.  For every script version other than 0 and every byte string, both
    [GetScriptClass] and [typeOfScript] return NonStandard, whatever the
    script holds. *)
Theorem nonzero_version_nonstandard (version : Z) (script : bytes) :
  version <> 0 ->
  GetScriptClass version script = NonStandardTy
  /\ typeOfScript version script = NonStandardTy.
Proof.
  intros Hv. apply Z.eqb_neq in Hv.
  unfold GetScriptClass, typeOfScript, DefaultScriptVersion.
  rewrite Hv. simpl. split; reflexivity.
Qed.

(** Version 1 on the pay-to-script-hash test vector, which is ScriptHash at
    version 0. *)
Lemma nonzero_version_nonstandard_witness :
  GetScriptClass 1 ([0xa9; 0x14] ++ repeat 7 20 ++ [0x87]) = NonStandardTy
  /\ typeOfScript 1 ([0xa9; 0x14] ++ repeat 7 20 ++ [0x87]) = NonStandardTy.
Proof.
  apply (nonzero_version_nonstandard 1 ([0xa9; 0x14] ++ repeat 7 20 ++ [0x87])).
  discriminate.
Defined.

(* ------------------------------------------------------------------ *)
(** ** Display names of script classes *)

Lemma scriptClassToName_length : length scriptClassToName = 12%nat.
Proof. reflexivity. Qed.

(** Every defined class displays its canonical lowercase name. *)
Lemma String_defined :
  map String_ [NonStandardTy; PubKeyTy; PubKeyHashTy; ScriptHashTy; MultiSigTy;
               NullDataTy; StakeSubmissionTy; StakeGenTy; StakeRevocationTy;
               StakeSubChangeTy; PubkeyAltTy; PubkeyHashAltTy]
  = map Returns
      [ "nonstandard"; "pubkey"; "pubkeyhash"; "scripthash"; "multisig";
        "nulldata"; "stakesubmission"; "stakegen"; "stakerevoke";
        "sstxchange"; "pubkeyalt"; "pubkeyhashalt" ]%string.
Proof. reflexivity. Qed.

(** Every byte value above 12 displays as "Invalid". *)
Lemma String_above_length (t : ScriptClass) :
  12 < t -> String_ t = Returns "Invalid"%string.
Proof.
  intros H. unfold String_. rewrite scriptClassToName_length.
  replace (t >? Z.of_nat 12) with true by (symmetry; apply Z.gtb_lt; lia).
  reflexivity.
Qed.

(** C7 (evaluation at the failing input).  The guard of [String] compares
    with [>] where [>=] is needed: for the first out-of-range value, 12, it
    lets the lookup through, and the access to the 12-element name table is
    out of range. *)
Theorem String_first_invalid_panics :
  length scriptClassToName = 12%nat /\ String_ 12 = Panics.
Proof. split; reflexivity. Qed.

(* ------------------------------------------------------------------ *)
(** ** The redeem script of a signature script *)

Lemma parseScript_nil_inv script :
  parseScript script = Ok [] -> script = [].
Proof.
  destruct script as [|op tl]; [reflexivity|].
  rewrite parseScript_cons.
  destruct (parseOne op tl) as [[pop rest]|]; [|discriminate].
  destruct (parseScript rest); discriminate.
Qed.

Lemma lastPop_cons pop pops : exists p, lastPop (pop :: pops) = Returns p.
Proof.
  unfold lastPop, index.
  destruct (nth_error (pop :: pops) (length (pop :: pops) - 1)) eqn:E.
  - eexists; reflexivity.
  - apply nth_error_None in E. simpl in E. lia.
Qed.

(** Away from the empty script the function returns: a parse error, or the
    data of the final operation. *)
Lemma MultisigRedeemScriptFromScriptSig_nonempty (script : bytes) :
  script <> [] ->
  (exists e, parseScript script = Err e
             /\ MultisigRedeemScriptFromScriptSig script = Returns (Err e))
  \/ (exists pops pop, parseScript script = Ok pops
                       /\ lastPop pops = Returns pop
                       /\ MultisigRedeemScriptFromScriptSig script
                          = Returns (Ok (data pop))).
Proof.
  intros Hne. unfold MultisigRedeemScriptFromScriptSig.
  destruct (parseScript script) as [pops|e] eqn:E.
  - right. destruct pops as [|pop pops].
    + apply parseScript_nil_inv in E. contradiction.
    + destruct (lastPop_cons pop pops) as [p Hp].
      exists (pop :: pops), p. rewrite Hp. repeat split.
  - left. exists e. split; reflexivity.
Qed.

(** C8 (evaluation at the failing input).  The empty script parses to zero
    operations without error, and the access to the last operation then
    panics. *)
Theorem MultisigRedeemScriptFromScriptSig_empty_panics :
  parseScript [] = Ok []
  /\ MultisigRedeemScriptFromScriptSig [] = Panics.
Proof. split; reflexivity. Qed.

(* ------------------------------------------------------------------ *)
(** ** Multisig scripts without public keys *)

(** C4 (evaluation at the failing input).  The three-byte script
    [OP_0 OP_0 OP_CHECKMULTISIG] decodes to three operations, yet the
    multisig matcher accepts it (zero public keys, key count [OP_0]) and the
    classifier returns MultiSig, while [CalcMultiSigStats] refuses the same
    script as not multisig because it has fewer than four operations. *)
Theorem multisig_three_operations :
  let script := [OP_0; OP_0; OP_CHECKMULTISIG] in
  parseScript script
  = Ok [mkPop OP_0 None; mkPop OP_0 None; mkPop OP_CHECKMULTISIG None]
  /\ extractMultisigScriptDetails 0 script false
     = {| requiredSigs := 0; numPubKeys := 0; pubKeys := None; valid := true |}
  /\ isMultisigScript 0 script = true
  /\ typeOfScript 0 script = MultiSigTy
  /\ CalcMultiSigStats script = Err ErrNotMultisigScript.
Proof. repeat split; reflexivity. Qed.

(* ------------------------------------------------------------------ *)
(** ** Expected inputs of a multisig script *)

(** C5 (evaluation at the failing input).  For the 1-of-1 multisig script
    and the empty signature script the pair is accepted, the class is
    MultiSig, the encoded required-signature count is 1, and the expected
    input count is 1: no extra input is added. *)
Theorem CalcScriptInfo_multisig_no_extra_input
  (getSigOpCount : list parsedOpcode -> bool -> Z) (bip16 : bool) :
  requiredSigs (extractMultisigScriptDetails 0 oneOfOneMultisig false) = 1
  /\ exists si,
       CalcScriptInfo getSigOpCount [] oneOfOneMultisig bip16 = Returns (Ok si)
       /\ PkScriptClass si = MultiSigTy
       /\ ExpectedInputs si = 1.
Proof.
  split; [reflexivity|].
  destruct bip16; eexists; (split; [reflexivity | split; reflexivity]).
Qed.

(** Behind a pay-to-script-hash script in legacy-compat mode the expected
    count is 2: 1 for the script-hash class and the required-signature
    count 1 of the redeem script, again without an extra input. *)
Lemma CalcScriptInfo_p2sh_multisig
  (getSigOpCount : list parsedOpcode -> bool -> Z) :
  exists si,
    CalcScriptInfo getSigOpCount exampleRedeemSigScript exampleP2SH true
    = Returns (Ok si)
    /\ PkScriptClass si = ScriptHashTy
    /\ NumInputs si = 2
    /\ ExpectedInputs si = 2.
Proof. eexists. repeat split. Qed.

(* ------------------------------------------------------------------ *)
(** ** The staging extractors against the original ones *)

Lemma slice_length lo hi (s : bytes) :
  (hi <= length s)%nat -> length (slice lo hi s) = (hi - lo)%nat.
Proof.
  intros H. unfold slice. rewrite length_firstn, length_skipn. lia.
Qed.

(** On a 33-byte key the two strict encoding checks coincide. *)
Lemma strict_encodings_agree_33 (k : bytes) :
  length k = 33%nat ->
  IsStrictCompressedPubKeyEncoding (Some k) = isStrictPubKeyEncoding (Some k).
Proof.
  intros H. unfold IsStrictCompressedPubKeyEncoding, isStrictPubKeyEncoding.
  rewrite H. simpl. rewrite orb_false_r. reflexivity.
Qed.

Lemma ExtractPubKeyAltDetailsV0_eq (script : bytes) :
  stdscript.ExtractPubKeyAltDetailsV0 script = extractPubKeyAltDetails script.
Proof.
  unfold stdscript.ExtractPubKeyAltDetailsV0, extractPubKeyAltDetails.
  destruct (_ || _); [reflexivity|].
  destruct (_ && _ && _ && _) eqn:E35; [reflexivity|]. clear E35.
  destruct (length script =? 36)%nat eqn:E36; [|reflexivity].
  apply Nat.eqb_eq in E36.
  rewrite strict_encodings_agree_33; [reflexivity|].
  rewrite slice_length; lia.
Qed.

Lemma extractPubKeyAltDetails_cases (script : bytes) :
  extractPubKeyAltDetails script = (None, 0)
  \/ (exists k, extractPubKeyAltDetails script = (Some k, STEd25519))
  \/ (exists k, extractPubKeyAltDetails script = (Some k, STSchnorrSecp256k1)).
Proof.
  unfold extractPubKeyAltDetails.
  destruct (_ || _); [left; reflexivity|].
  destruct (_ && _ && _ && _); [right; left; eexists; reflexivity|].
  destruct (_ && _ && _ && _ && _); [right; right; eexists; reflexivity|].
  left; reflexivity.
Qed.

Lemma typeOfScript_PubKeyTy (script : bytes) :
  typeOfScript 0 script = PubKeyTy <-> isPubKeyScript script = true.
Proof.
  rewrite typeOfScript_firstMatch.
  unfold templateChecks, parsedFallback, parsedChecks. simpl.
  destruct (isPubKeyScript script); [split; reflexivity|].
  destruct (isPubKeyAltScript script); [split; discriminate|].
  destruct (isPubKeyHashScript script); [split; discriminate|].
  destruct (isPubKeyHashAltScript script); [split; discriminate|].
  destruct (isScriptHashScript script); [split; discriminate|].
  destruct (isMultisigScript 0 script); [split; discriminate|].
  destruct (isNullDataScript 0 script); [split; discriminate|].
  destruct (isStakeSubmissionScript 0 script); [split; discriminate|].
  destruct (parseScript script) as [pops|e]; [|split; discriminate].
  simpl.
  destruct (isStakeGen pops); [split; discriminate|].
  destruct (isStakeRevocation pops); [split; discriminate|].
  destruct (isSStxChange pops); split; discriminate.
Qed.

Lemma typeOfScript_PubkeyAltTy (script : bytes) :
  typeOfScript 0 script = PubkeyAltTy
  <-> isPubKeyScript script = false /\ isPubKeyAltScript script = true.
Proof.
  rewrite typeOfScript_firstMatch.
  unfold templateChecks, parsedFallback, parsedChecks. simpl.
  destruct (isPubKeyScript script); [split; [discriminate | intros []; discriminate]|].
  destruct (isPubKeyAltScript script); [split; auto|].
  destruct (isPubKeyHashScript script); [split; [discriminate | intros []; discriminate]|].
  destruct (isPubKeyHashAltScript script); [split; [discriminate | intros []; discriminate]|].
  destruct (isScriptHashScript script); [split; [discriminate | intros []; discriminate]|].
  destruct (isMultisigScript 0 script); [split; [discriminate | intros []; discriminate]|].
  destruct (isNullDataScript 0 script); [split; [discriminate | intros []; discriminate]|].
  destruct (isStakeSubmissionScript 0 script); [split; [discriminate | intros []; discriminate]|].
  destruct (parseScript script) as [pops|e]; [|split; [discriminate | intros []; discriminate]].
  simpl.
  destruct (isStakeGen pops); [split; [discriminate | intros []; discriminate]|].
  destruct (isStakeRevocation pops); [split; [discriminate | intros []; discriminate]|].
  destruct (isSStxChange pops); split; try discriminate; intros []; discriminate.
Qed.

(** C10.  On every byte string the staging extractors return what the
    original ones return: [ExtractCompressedPubKeyV0],
    [ExtractUncompressedPubKeyV0], [ExtractPubKeyV0] and
    [ExtractPubKeyAltDetailsV0] equal [extractCompressedPubKey],
    [extractUncompressedPubKey], [extractPubKey] and
    [extractPubKeyAltDetails].  Hence [DetermineScriptTypeV0] reports the
    ECDSA pubkey type exactly when [typeOfScript] at version 0 returns
    PubKey, and the Ed25519 or Schnorr pubkey type exactly when it returns
    PubKeyAlt. *)
Theorem staging_extractors_agree (script : bytes) :
  stdscript.ExtractCompressedPubKeyV0 script = extractCompressedPubKey script
  /\ stdscript.ExtractUncompressedPubKeyV0 script
     = extractUncompressedPubKey script
  /\ stdscript.ExtractPubKeyV0 script = extractPubKey script
  /\ stdscript.ExtractPubKeyAltDetailsV0 script
     = extractPubKeyAltDetails script
  /\ (stdscript.DetermineScriptTypeV0 script = stdscript.STPubKeyEcdsaSecp256k1
      <-> typeOfScript 0 script = PubKeyTy)
  /\ (stdscript.DetermineScriptTypeV0 script = stdscript.STPubKeyEd25519
      \/ stdscript.DetermineScriptTypeV0 script
         = stdscript.STPubKeySchnorrSecp256k1
      <-> typeOfScript 0 script = PubkeyAltTy).
Proof.
  assert (Hc : stdscript.ExtractCompressedPubKeyV0 script
               = extractCompressedPubKey script) by reflexivity.
  assert (Hu : stdscript.ExtractUncompressedPubKeyV0 script
               = extractUncompressedPubKey script) by reflexivity.
  assert (Hp : stdscript.ExtractPubKeyV0 script = extractPubKey script)
    by reflexivity.
  pose proof (ExtractPubKeyAltDetailsV0_eq script) as Ha.
  repeat (split; [assumption|]).
  rewrite typeOfScript_PubKeyTy, typeOfScript_PubkeyAltTy.
  unfold stdscript.DetermineScriptTypeV0, stdscript.IsPubKeyScriptV0,
    stdscript.IsPubKeyEd25519ScriptV0, stdscript.IsPubKeySchnorrSecp256k1ScriptV0,
    isPubKeyScript, isPubKeyAltScript.
  rewrite Hp, Ha.
  destruct (negb (isNil (extractPubKey script))).
  - split; split; try reflexivity; try (intros [H|H]; discriminate);
      intros [H _]; discriminate.
  - destruct (extractPubKeyAltDetails_cases script)
      as [E | [[k E] | [k E]]]; rewrite E; simpl;
      (split; split; try discriminate; try (intros [H|H]; discriminate);
       try (intros [_ H]; discriminate); auto).
Qed.

(** A pay-to-pubkey script over a compressed key is the ECDSA pubkey type
    of the staging package. *)
Lemma staging_extractors_agree_witness :
  stdscript.DetermineScriptTypeV0
    ([OP_DATA_33] ++ (0x02 :: repeat 0x11 32) ++ [OP_CHECKSIG])
  = stdscript.STPubKeyEcdsaSecp256k1.
Proof.
  apply (proj2 (proj1 (proj2 (proj2 (proj2 (proj2
           (staging_extractors_agree
              ([OP_DATA_33] ++ (0x02 :: repeat 0x11 32) ++ [OP_CHECKSIG])))))))).
  reflexivity.
Defined.

(* ------------------------------------------------------------------ *)
(** ** Null-data scripts *)

Lemma int32_small (z : Z) : 0 <= z < 2 ^ 31 -> int32 z = z.
Proof.
  intros H. unfold int32.
  rewrite Z.mod_small by lia.
  destruct (z >=? 2 ^ 31) eqn:E; [|reflexivity].
  apply Z.geb_le in E. lia.
Qed.

(** A script that parses to exactly one operation carrying data is read
    by the tokenizer as that one operation, after which it is done. *)
Lemma parse_single_Next (rest : bytes) (op : Z) (d : option bytes) :
  parseScript rest = Ok [mkPop op d] ->
  (0 < len d)%nat -> Z.of_nat (len d) < 2 ^ 31 ->
  (len d < length rest)%nat
  /\ exists t,
       Next (MakeScriptTokenizer 0 rest) = (true, t)
       /\ Opcode t = op /\ Data t = d /\ Done t = true.
Proof.
  intros HP Hpos Hlt.
  destruct rest as [|o tl]; [discriminate|].
  rewrite parseScript_cons in HP.
  destruct (parseOne o tl) as [[pop rest']|] eqn:E; [|discriminate].
  destruct (parseScript rest') as [pops|] eqn:E'; [|discriminate].
  inversion HP; subst pop pops. clear HP.
  apply parseScript_nil_inv in E'. subst rest'.
  unfold parseOne in E.
  unfold Next, Done, MakeScriptTokenizer, tokAdvance, tokFail, Opcode, Data.
  cbn [tk_err tk_script tk_offset tk_version tk_op tk_data skipn Z.eqb].
  change (length (o :: tl) <=? 0)%nat with false. cbv iota.
  destruct (opLength o =? 1).
  - inversion E; subst. simpl in Hpos. lia.
  - destruct (opLength o >? 1) eqn:E2.
    + destruct (S (length tl) <? Z.to_nat (opLength o))%nat eqn:E3;
        [discriminate|].
      apply Nat.ltb_ge in E3.
      inversion E as [[Ho Hd Hs]]. subst o.
      assert (Hl : (length tl <= Z.to_nat (opLength op) - 1)%nat).
      { pose proof (length_skipn (Z.to_nat (opLength op) - 1) tl) as L.
        rewrite Hs in L. simpl in L. lia. }
      split.
      * simpl. rewrite length_firstn. lia.
      * eexists. split; [reflexivity|]. cbn [tk_op tk_data tk_err tk_script tk_offset].
        repeat split. apply Nat.leb_le. simpl. lia.
    + destruct (length tl <? Z.to_nat (- opLength o))%nat eqn:E3;
        [discriminate|].
      apply Nat.ltb_ge in E3.
      set (n := Z.to_nat (- opLength o)) in *.
      set (dataLen := leDecode (firstn n tl)) in *.
      destruct (dataLen >? Z.of_nat (length (skipn n tl))) eqn:E4;
        [discriminate|].
      inversion E as [[Ho Hd Hs]]. subst o.
      assert (Hle : dataLen <= Z.of_nat (length (skipn n tl))).
      { destruct (Z.gtb_spec dataLen (Z.of_nat (length (skipn n tl))));
          [discriminate | lia]. }
      assert (Hl : (length (skipn n tl) <= Z.to_nat dataLen)%nat).
      { pose proof (length_skipn (Z.to_nat dataLen) (skipn n tl)) as L.
        rewrite Hs in L. simpl in L. lia. }
      assert (Hd' : length (firstn (Z.to_nat dataLen) (skipn n tl))
                    = Z.to_nat dataLen).
      { rewrite length_firstn. lia. }
      rewrite <- Hd in Hpos, Hlt. simpl in Hpos, Hlt. rewrite Hd' in Hpos, Hlt.
      assert (Hsk : length (skipn n tl) = Z.to_nat dataLen) by lia.
      pose proof (length_skipn n tl) as Lsk.
      split.
      * simpl. rewrite Hd'. lia.
      * rewrite int32_small by lia.
        replace (dataLen >? Z.of_nat (length (skipn n tl))) with false.
        replace (dataLen <? 0) with false by (symmetry; apply Z.ltb_ge; lia).
        cbn [orb]. cbv iota.
        eexists. split; [reflexivity|].
        cbn [tk_op tk_data tk_err tk_script tk_offset].
        repeat split. apply Nat.leb_le. simpl. lia.
Qed.

(** No fixed-length template has more than 67 bytes. *)
Lemma long_script_no_fixed_template (script : bytes) :
  (67 < length script)%nat ->
  isPubKeyScript script = false
  /\ isPubKeyAltScript script = false
  /\ isPubKeyHashScript script = false
  /\ isPubKeyHashAltScript script = false
  /\ isScriptHashScript script = false.
Proof.
  intros H.
  unfold isPubKeyScript, extractPubKey, extractCompressedPubKey,
    extractUncompressedPubKey, isPubKeyAltScript, extractPubKeyAltDetails,
    isPubKeyHashScript, extractPubKeyHash, isPubKeyHashAltScript,
    extractPubKeyHashAltDetails, isScriptHashScript, extractScriptHash.
  len_false. cbn [andb].
  repeat split. destruct (_ || _); reflexivity.
Qed.

Lemma return_script_not_multisig (rest : bytes) :
  isMultisigScript 0 (OP_RETURN :: rest) = false.
Proof.
  unfold isMultisigScript, extractMultisigScriptDetails.
  change (negb (0 =? 0)) with false. cbv iota.
  destruct (_ || _); [reflexivity|].
  reflexivity.
Qed.

Lemma return_script_not_stake_submission (rest : bytes) :
  isStakeSubmissionScript 0 (OP_RETURN :: rest) = false.
Proof. reflexivity. Qed.

Lemma parseScript_return (rest : bytes) :
  parseScript (OP_RETURN :: rest) =
  match parseScript rest with
  | Ok pops => Ok (mkPop OP_RETURN None :: pops)
  | Err e => Err e
  end.
Proof. rewrite parseScript_cons. reflexivity. Qed.

(** C3.  At version 0 a lone [OP_RETURN] is NullData.  A script made of
    [OP_RETURN] followed by exactly one operation, a small integer or a
    data push, whose payload has exactly 256 bytes is NullData; with a
    payload of 257 bytes it is NonStandard. *)
Theorem nulldata_boundary (rest : bytes) (op : Z) (d : option bytes) :
  parseScript rest = Ok [mkPop op d] ->
  isSmallInt op || (op <=? OP_PUSHDATA4) = true ->
  typeOfScript 0 [OP_RETURN] = NullDataTy
  /\ (len d = 256%nat -> typeOfScript 0 (OP_RETURN :: rest) = NullDataTy)
  /\ (len d = 257%nat -> typeOfScript 0 (OP_RETURN :: rest) = NonStandardTy).
Proof.
  intros HP Hop.
  split; [reflexivity|].
  assert (Hcommon : forall n : nat, (256 <= n <= 257)%nat -> len d = n ->
            isNullDataScript 0 (OP_RETURN :: rest) = (n <=? 256)%nat
            /\ typeOfScript 0 (OP_RETURN :: rest)
               = if isNullDataScript 0 (OP_RETURN :: rest) then NullDataTy
                 else NonStandardTy).
  { intros n Hn Hd.
    destruct (parse_single_Next rest op d HP) as (Hlen & t & HN & Ho & Hdt & Hdone);
      [lia | lia |].
    assert (Hnd : isNullDataScript 0 (OP_RETURN :: rest) = (n <=? 256)%nat).
    { unfold isNullDataScript.
      change (negb (0 =? 0)) with false.
      change ((length (OP_RETURN :: rest) <? 1)%nat
              || negb (at_ (OP_RETURN :: rest) 0 =? OP_RETURN)) with false.
      cbv iota.
      replace (length (OP_RETURN :: rest) =? 1)%nat with false
        by (symmetry; apply Nat.eqb_neq; simpl; lia).
      change (skipn 1 (OP_RETURN :: rest)) with rest.
      rewrite HN, Hdone, Ho, Hdt, Hop, Hd. reflexivity. }
    split; [exact Hnd|].
    destruct (long_script_no_fixed_template (OP_RETURN :: rest))
      as (H1 & H2 & H3 & H4 & H5); [simpl; lia|].
    unfold typeOfScript. change (negb (0 =? 0)) with false. cbv iota.
    rewrite H1, H2, H3, H4, H5, return_script_not_multisig,
      return_script_not_stake_submission.
    destruct (isNullDataScript 0 (OP_RETURN :: rest)); [reflexivity|].
    rewrite parseScript_return, HP. reflexivity. }
  split; intros Hd.
  - destruct (Hcommon 256%nat ltac:(lia) Hd) as [Hnd ->]. rewrite Hnd. reflexivity.
  - destruct (Hcommon 257%nat ltac:(lia) Hd) as [Hnd ->]. rewrite Hnd. reflexivity.
Qed.

(** [OP_RETURN OP_PUSHDATA2 <256> <256 zero bytes>]. *)
Lemma nulldata_boundary_witness :
  typeOfScript 0 (OP_RETURN :: OP_PUSHDATA2 :: leEncode 2 256 ++ repeat 0 256)
  = NullDataTy
  /\ typeOfScript 0 (OP_RETURN :: OP_PUSHDATA2 :: leEncode 2 257 ++ repeat 0 257)
     = NonStandardTy.
Proof.
  split.
  - apply (proj1 (proj2 (nulldata_boundary
             (OP_PUSHDATA2 :: leEncode 2 256 ++ repeat 0 256)
             OP_PUSHDATA2 (Some (repeat 0 256))
             ltac:(vm_compute; reflexivity) ltac:(reflexivity)))).
    reflexivity.
  - apply (proj2 (proj2 (nulldata_boundary
             (OP_PUSHDATA2 :: leEncode 2 257 ++ repeat 0 257)
             OP_PUSHDATA2 (Some (repeat 0 257))
             ltac:(vm_compute; reflexivity) ltac:(reflexivity)))).
    reflexivity.
Defined.

(* ------------------------------------------------------------------ *)
(** ** The atomic swap extractor *)

Lemma opLength_data (op : Z) :
  OP_DATA_1 <= op <= OP_DATA_75 -> opLength op = op + 1.
Proof.
  unfold OP_DATA_1, OP_DATA_75. intros H. unfold opLength.
  replace (op =? OP_0) with false
    by (symmetry; apply Z.eqb_neq; unfold OP_0; lia).
  replace ((OP_DATA_1 <=? op) && (op <=? OP_DATA_75)) with true; [reflexivity|].
  symmetry. apply andb_true_iff.
  split; apply Z.leb_le; unfold OP_DATA_1, OP_DATA_75; lia.
Qed.

Lemma parseOne_wf op tl pop rest :
  parseOne op tl = Some (pop, rest) -> popWf pop.
Proof.
  unfold parseOne, popWf. intros E Hr.
  assert (Hop : opcode_value pop = op).
  { destruct (opLength op =? 1); [inversion E; reflexivity|].
    destruct (opLength op >? 1).
    - destruct (_ <? _)%nat; [discriminate|]. inversion E; reflexivity.
    - destruct (_ <? _)%nat; [discriminate|].
      destruct (_ >? _); [discriminate|]. inversion E; reflexivity. }
  rewrite Hop in *. rewrite (opLength_data op Hr) in E.
  unfold OP_DATA_1, OP_DATA_75 in Hr.
  replace (op + 1 =? 1) with false in E by (symmetry; apply Z.eqb_neq; lia).
  replace (op + 1 >? 1) with true in E by (symmetry; apply Z.gtb_lt; lia).
  destruct (S (length tl) <? Z.to_nat (op + 1))%nat eqn:E3; [discriminate|].
  apply Nat.ltb_ge in E3. inversion E; subst. simpl.
  eexists. split; [reflexivity|]. rewrite length_firstn. lia.
Qed.

(** Every operation the parser returns is well formed. *)
Lemma parseScript_wf (script : bytes) (pops : list parsedOpcode) :
  parseScript script = Ok pops -> Forall popWf pops.
Proof.
  remember (length script) as n eqn:Hn.
  assert (Hle : (length script <= n)%nat) by lia. clear Hn.
  revert script pops Hle. induction n as [|n IH]; intros script pops Hle HP.
  - destruct script; [|simpl in Hle; lia].
    inversion HP. constructor.
  - destruct script as [|op tl]; [inversion HP; constructor|].
    rewrite parseScript_cons in HP.
    destruct (parseOne op tl) as [[pop rest]|] eqn:E; [|discriminate].
    destruct (parseScript rest) as [pops'|] eqn:E'; [|discriminate].
    inversion HP; subst. constructor.
    + exact (parseOne_wf _ _ _ _ E).
    + apply (IH rest); [|exact E'].
      apply parseOne_shorter in E. simpl in Hle. lia.
Qed.

Lemma matchesTemplate_length tpl pops :
  matchesTemplate tpl pops = true -> length pops = length tpl.
Proof.
  revert pops. induction tpl as [|s tpl IH]; intros [|pop pops] H;
    try discriminate; [reflexivity|].
  simpl in H. apply andb_true_iff in H. destruct H as [_ H].
  simpl. f_equal. exact (IH _ H).
Qed.

Lemma copyInto_exact (n : nat) (d : bytes) :
  length d = n -> copyInto n (Some d) = d.
Proof.
  intros H. unfold copyInto, asScript.
  rewrite firstn_all2 by lia. rewrite H, Nat.sub_diag. simpl.
  apply app_nil_r.
Qed.

Lemma popWf_data (pop : parsedOpcode) (op : Z) :
  popWf pop -> (opcode_value pop =? op) = true ->
  OP_DATA_1 <= op <= OP_DATA_75 ->
  exists d, data pop = Some d /\ length d = Z.to_nat op.
Proof.
  intros Hwf E Hr. apply Z.eqb_eq in E. rewrite <- E in Hr.
  destruct (Hwf Hr) as (d & Hd & Hl). exists d. split; [exact Hd|]. lia.
Qed.

(** The extractor in terms of the parse and of the template. *)
Lemma ExtractAtomicSwapDataPushes_cases (version : Z) (pkScript : bytes) :
  match parseScript pkScript with
  | Err e => ExtractAtomicSwapDataPushes version pkScript = Err e
  | Ok pops =>
      if isAtomicSwapContract pops then
        exists recipient refund secret secretSize lockTime,
          dataAt pops 9 = Some recipient /\ length recipient = 20%nat
          /\ dataAt pops 16 = Some refund /\ length refund = 20%nat
          /\ dataAt pops 5 = Some secret /\ length secret = 32%nat
          /\ swapOperand (nth 2 pops noPop) = Some secretSize
          /\ swapOperand (nth 11 pops noPop) = Some lockTime
          /\ ExtractAtomicSwapDataPushes version pkScript
             = Ok (Some {| RecipientHash160 := recipient;
                           RefundHash160 := refund;
                           SecretHash := secret;
                           SecretSize := secretSize;
                           LockTime := lockTime |})
      else ExtractAtomicSwapDataPushes version pkScript = Ok None
  end.
Proof.
  unfold ExtractAtomicSwapDataPushes.
  destruct (parseScript pkScript) as [pops|e] eqn:HP; [|reflexivity].
  apply parseScript_wf in HP.
  destruct (length pops =? 20)%nat eqn:E20; cbn [negb].
  2:{ destruct (isAtomicSwapContract pops) eqn:EC; [|reflexivity].
      apply matchesTemplate_length in EC. apply Nat.eqb_neq in E20.
      simpl in EC. lia. }
  apply Nat.eqb_eq in E20.
  do 20 (destruct pops as [|? pops]; [discriminate E20|]).
  destruct pops; [|discriminate E20].
  clear E20.
  repeat match goal with
         | H : Forall _ (_ :: _) |- _ => inversion H; clear H; subst
         end.
  unfold isAtomicSwapContract, opAt, dataAt.
  cbn [atomicSwapTemplate matchesTemplate slotMatches nth].
  atom (opcode_value p =? OP_IF).
  atom (opcode_value p0 =? OP_SIZE).
  atom (canonicalPush p1).
  destruct (swapOperand p1) as [secretSize|] eqn:ES; cbn [andb negb];
    [| destruct (negb _); reflexivity].
  atom (opcode_value p2 =? OP_EQUALVERIFY).
  atom (opcode_value p3 =? OP_SHA256).
  atom (opcode_value p4 =? OP_DATA_32).
  atom (opcode_value p5 =? OP_EQUALVERIFY).
  atom (opcode_value p6 =? OP_DUP).
  atom (opcode_value p7 =? OP_HASH160).
  atom (opcode_value p8 =? OP_DATA_20).
  atom (opcode_value p9 =? OP_ELSE).
  atom (canonicalPush p10).
  destruct (swapOperand p10) as [lockTime|] eqn:EL; cbn [andb negb];
    [| destruct (negb _); reflexivity].
  atom (opcode_value p11 =? OP_CHECKLOCKTIMEVERIFY).
  atom (opcode_value p12 =? OP_DROP).
  atom (opcode_value p13 =? OP_DUP).
  atom (opcode_value p14 =? OP_HASH160).
  atom (opcode_value p15 =? OP_DATA_20).
  atom (opcode_value p16 =? OP_ENDIF).
  atom (opcode_value p17 =? OP_EQUALVERIFY).
  atom (opcode_value p18 =? OP_CHECKSIG).
  destruct (popWf_data p4 OP_DATA_32) as (secret & Hs & Ls);
    [assumption | assumption | unfold OP_DATA_1, OP_DATA_32, OP_DATA_75; lia |].
  destruct (popWf_data p8 OP_DATA_20) as (recipient & Hr & Lr);
    [assumption | assumption | unfold OP_DATA_1, OP_DATA_20, OP_DATA_75; lia |].
  destruct (popWf_data p15 OP_DATA_20) as (refund & Hf & Lf);
    [assumption | assumption | unfold OP_DATA_1, OP_DATA_20, OP_DATA_75; lia |].
  exists recipient, refund, secret, secretSize, lockTime.
  rewrite Hs, Hr, Hf, !copyInto_exact by assumption.
  repeat split; assumption.
Qed.

(** C6.  [ExtractAtomicSwapDataPushes] returns an error exactly when the
    script does not parse, and then the parse error.  On a script that
    parses but is not the 20-operation atomic swap template (two numeric
    operands that fail to decode as a script number of at most 5 bytes
    included) it returns no match and no error.  On a script that is the
    template it returns the 20-byte recipient and refund hashes, the 32-byte
    secret hash and the decoded secret size and lock time. *)
Theorem ExtractAtomicSwapDataPushes_spec (version : Z) (pkScript : bytes) :
  ((exists e, ExtractAtomicSwapDataPushes version pkScript = Err e)
   <-> (exists e, parseScript pkScript = Err e))
  /\ (forall pops,
        parseScript pkScript = Ok pops -> isAtomicSwapContract pops = false ->
        ExtractAtomicSwapDataPushes version pkScript = Ok None)
  /\ (forall pops,
        parseScript pkScript = Ok pops -> isAtomicSwapContract pops = true ->
        exists recipient refund secret secretSize lockTime,
          dataAt pops 9 = Some recipient /\ length recipient = 20%nat
          /\ dataAt pops 16 = Some refund /\ length refund = 20%nat
          /\ dataAt pops 5 = Some secret /\ length secret = 32%nat
          /\ swapOperand (nth 2 pops noPop) = Some secretSize
          /\ swapOperand (nth 11 pops noPop) = Some lockTime
          /\ ExtractAtomicSwapDataPushes version pkScript
             = Ok (Some {| RecipientHash160 := recipient;
                           RefundHash160 := refund;
                           SecretHash := secret;
                           SecretSize := secretSize;
                           LockTime := lockTime |})).
Proof.
  pose proof (ExtractAtomicSwapDataPushes_cases version pkScript) as H.
  destruct (parseScript pkScript) as [pops|e] eqn:HP.
  - split; [|split].
    + split; intros [e He]; [|discriminate].
      destruct (isAtomicSwapContract pops).
      * destruct H as (? & ? & ? & ? & ? & H). decompose [and] H. congruence.
      * congruence.
    + intros pops' E EC. inversion E; subst pops'. rewrite EC in H. exact H.
    + intros pops' E EC. inversion E; subst pops'. rewrite EC in H. exact H.
  - split; [|split].
    + split; intros _; exists e; [reflexivity | exact H].
    + intros pops' E. discriminate.
    + intros pops' E. discriminate.
Qed.

(** The example contract yields its hashes, secret size 32 and lock time
    [0x01000000]. *)
Lemma ExtractAtomicSwapDataPushes_spec_witness :
  exists recipient refund secret secretSize lockTime,
    Some (repeat 1 20) = Some recipient /\ length recipient = 20%nat
    /\ Some (repeat 2 20) = Some refund /\ length refund = 20%nat
    /\ Some (repeat 9 32) = Some secret /\ length secret = 32%nat
    /\ Some 32 = Some secretSize
    /\ Some 16777216 = Some lockTime
    /\ ExtractAtomicSwapDataPushes 0 exampleSwap
       = Ok (Some {| RecipientHash160 := recipient;
                     RefundHash160 := refund;
                     SecretHash := secret;
                     SecretSize := secretSize;
                     LockTime := lockTime |}).
Proof.
  apply (proj2 (proj2 (ExtractAtomicSwapDataPushes_spec 0 exampleSwap))
           _ eq_refl eq_refl).
Defined.

(* ------------------------------------------------------------------ *)
(** ** The stake commitment push *)

Lemma leEncode8_top (v : Z) :
  0 <= v < 2 ^ 63 -> Z.testbit (at_ (leEncode 8 v) 7) 7 = false.
Proof.
  intros H. cbn [leEncode at_ nth].
  rewrite Z.mod_pow2_bits_low with (n := 8) by lia.
  rewrite !Z.shiftr_spec by lia.
  change (7 + 8 + 8 + 8 + 8 + 8 + 8 + 8) with 63.
  destruct (Z.eq_dec v 0) as [->|Hz]; [reflexivity|].
  apply Z.bits_above_log2; [lia|].
  apply Z.log2_lt_pow2; lia.
Qed.

(** C9 as stated fails.  For a script-hash address, amount 0 and limit 0
    the push is [OP_RETURN OP_DATA_30] and 30 payload bytes; the second byte
    of the limit field (payload byte 29) is 0, its top bit is not set, and
    the flag sits in the last byte of the amount field (payload byte 27).
    For a pubkey-hash address and limit [0x8000] the top bit of the limit's
    second byte is set although the address is no script hash. *)
Lemma GenerateSStxAddrPush_limit_flag_counterexample :
  (exists payload,
     GenerateSStxAddrPush
       (ScriptHashAddr (Some (mkAddressScriptHash (repeat 0x07 20)))) 0 0
     = Ok (OP_RETURN :: OP_DATA_30 :: payload)
     /\ length payload = 30%nat
     /\ Z.testbit (at_ payload 29) 7 = false
     /\ Z.testbit (at_ payload 27) 7 = true)
  /\ (exists payload,
        GenerateSStxAddrPush
          (PubKeyHashAddr
             (Some (mkAddressPubKeyHash (repeat 0x07 20) STEcdsaSecp256k1)))
          0 0x8000
        = Ok (OP_RETURN :: OP_DATA_30 :: payload)
        /\ length payload = 30%nat
        /\ Z.testbit (at_ payload 29) 7 = true).
Proof.
  split; eexists; (split; [reflexivity|]); repeat split; reflexivity.
Qed.

(** C9, amended.  For a supported pubkey-hash or script-hash address
    [GenerateSStxAddrPush] produces [OP_RETURN] followed by a single 30-byte
    push laid out as the 20-byte hash, the little-endian 8-byte amount and
    the little-endian 2-byte fee limit, where the top bit of the last byte
    of the amount field (payload byte 27) is or-ed in when the address is a
    script-hash address, and the limit bytes are left as encoded; for an
    amount that is not negative that bit is set exactly when the address is
    a script-hash address. *)
Theorem GenerateSStxAddrPush_layout (hash : bytes) (amount limits : Z)
  (isP2SH : bool) :
  length hash = 20%nat ->
  let addr := if isP2SH then ScriptHashAddr (Some (mkAddressScriptHash hash))
              else PubKeyHashAddr
                     (Some (mkAddressPubKeyHash hash STEcdsaSecp256k1)) in
  let amt := leEncode 8 (uint64 amount) in
  let flagged := if isP2SH then Z.lor (at_ amt 7) 0x80 else at_ amt 7 in
  GenerateSStxAddrPush addr amount limits
  = Ok ([OP_RETURN; OP_DATA_30] ++ hash ++ firstn 7 amt ++ [flagged]
        ++ leEncode 2 limits)
  /\ (0 <= amount < 2 ^ 63 -> Z.testbit flagged 7 = isP2SH).
Proof.
  intros Hlen addr amt flagged.
  split.
  - do 20 (destruct hash as [|? hash]; [discriminate Hlen|]).
    destruct hash; [|discriminate Hlen]. clear Hlen.
    subst addr amt flagged.
    unfold GenerateSStxAddrPush.
    destruct isP2SH; reflexivity.
  - intros Ha. subst flagged amt. unfold uint64.
    rewrite Z.mod_small by lia.
    pose proof (leEncode8_top amount Ha) as Ht.
    destruct isP2SH; [|exact Ht].
    rewrite Z.lor_spec, Ht. reflexivity.
Qed.

(** A script-hash address, amount [0x0102030405060708], limit [0x8001]. *)
Lemma GenerateSStxAddrPush_layout_witness :
  GenerateSStxAddrPush
    (ScriptHashAddr (Some (mkAddressScriptHash (repeat 0x07 20))))
    0x0102030405060708 0x8001
  = Ok ([OP_RETURN; OP_DATA_30] ++ repeat 0x07 20
        ++ [0x08; 0x07; 0x06; 0x05; 0x04; 0x03; 0x02] ++ [0x81]
        ++ [0x01; 0x80])
  /\ Z.testbit 0x81 7 = true.
Proof.
  pose proof (GenerateSStxAddrPush_layout (repeat 0x07 20) 0x0102030405060708
                0x8001 true eq_refl) as [H1 H2].
  split.
  - exact H1.
  - apply H2. lia.
Defined.

(* ------------------------------------------------------------------ *)
(** ** Round trips of the builders through the classifier *)

(** X1.  For every 20-byte hash, [payToPubKeyHashScript] builds
    [OP_DUP OP_HASH160 OP_DATA_20 <hash> OP_EQUALVERIFY OP_CHECKSIG]; the
    classifier returns PubKeyHash on it and [extractPubKeyHash] gives the
    hash back. *)
Theorem payToPubKeyHashScript_roundtrip (pubKeyHash : bytes) :
  length pubKeyHash = 20%nat ->
  exists script,
    payToPubKeyHashScript pubKeyHash = Ok script
    /\ script = [OP_DUP; OP_HASH160; OP_DATA_20] ++ pubKeyHash
                ++ [OP_EQUALVERIFY; OP_CHECKSIG]
    /\ typeOfScript 0 script = PubKeyHashTy
    /\ extractPubKeyHash script = Some pubKeyHash.
Proof.
  intros H. explode pubKeyHash 20 H.
  eexists. repeat split.
Qed.

Lemma payToPubKeyHashScript_roundtrip_witness :
  exists script,
    payToPubKeyHashScript (repeat 7 20) = Ok script
    /\ typeOfScript 0 script = PubKeyHashTy
    /\ extractPubKeyHash script = Some (repeat 7 20).
Proof.
  destruct (payToPubKeyHashScript_roundtrip (repeat 7 20) eq_refl)
    as (s & E & _ & C & X).
  exists s. repeat split; assumption.
Defined.

(** X2.  For every 20-byte hash, [PayToScriptHashScript] builds
    [OP_HASH160 OP_DATA_20 <hash> OP_EQUAL]; the classifier returns
    ScriptHash on it, and both [extractScriptHash] and
    [GetScriptHashFromP2SHScript] give the hash back. *)
Theorem payToScriptHashScript_roundtrip (scriptHash : bytes) :
  length scriptHash = 20%nat ->
  exists script,
    PayToScriptHashScript scriptHash = Ok script
    /\ script = [OP_HASH160; OP_DATA_20] ++ scriptHash ++ [OP_EQUAL]
    /\ typeOfScript 0 script = ScriptHashTy
    /\ extractScriptHash script = Some scriptHash
    /\ GetScriptHashFromP2SHScript script = Ok (Some scriptHash).
Proof.
  intros H. explode scriptHash 20 H.
  eexists. repeat split.
Qed.

Lemma payToScriptHashScript_roundtrip_witness :
  exists script,
    PayToScriptHashScript (repeat 7 20) = Ok script
    /\ typeOfScript 0 script = ScriptHashTy
    /\ GetScriptHashFromP2SHScript script = Ok (Some (repeat 7 20)).
Proof.
  destruct (payToScriptHashScript_roundtrip (repeat 7 20) eq_refl)
    as (s & E & _ & C & _ & X).
  exists s. repeat split; assumption.
Defined.

(** X3.  For every 20-byte hash, the Ed25519 and the Schnorr pubkey-hash
    builders give scripts the classifier returns PubkeyHashAlt on;
    [extractPubKeyHashAltDetails] gives back the hash with the signature
    type of the builder, and [ExtractPkScriptAltSigType] that signature
    type. *)
Theorem payToPubKeyHashAlt_roundtrip (pubKeyHash : bytes) :
  length pubKeyHash = 20%nat ->
  exists edwards schnorr,
    payToPubKeyHashEdwardsScript pubKeyHash = Ok edwards
    /\ payToPubKeyHashSchnorrScript pubKeyHash = Ok schnorr
    /\ typeOfScript 0 edwards = PubkeyHashAltTy
    /\ typeOfScript 0 schnorr = PubkeyHashAltTy
    /\ extractPubKeyHashAltDetails edwards = (Some pubKeyHash, STEd25519)
    /\ extractPubKeyHashAltDetails schnorr
       = (Some pubKeyHash, STSchnorrSecp256k1)
    /\ ExtractPkScriptAltSigType edwards = Returns (Success STEd25519)
    /\ ExtractPkScriptAltSigType schnorr
       = Returns (Success STSchnorrSecp256k1).
Proof.
  intros H. explode pubKeyHash 20 H.
  do 2 eexists. repeat split.
Qed.

Lemma payToPubKeyHashAlt_roundtrip_witness :
  exists edwards schnorr,
    payToPubKeyHashEdwardsScript (repeat 7 20) = Ok edwards
    /\ payToPubKeyHashSchnorrScript (repeat 7 20) = Ok schnorr
    /\ ExtractPkScriptAltSigType edwards = Returns (Success STEd25519)
    /\ ExtractPkScriptAltSigType schnorr
       = Returns (Success STSchnorrSecp256k1).
Proof.
  destruct (payToPubKeyHashAlt_roundtrip (repeat 7 20) eq_refl)
    as (s1 & s2 & E1 & E2 & _ & _ & _ & _ & X1 & X2).
  exists s1, s2. repeat split; assumption.
Defined.

(** X4.  For every strictly encoded secp256k1 public key (33 bytes
    starting 02 or 03, or 65 bytes starting 04), [payToPubKeyScript] builds
    [<push of the key> OP_CHECKSIG]; the classifier returns PubKey on it and
    [extractPubKey] gives the key back. *)
Theorem payToPubKeyScript_roundtrip (serializedPubKey : bytes) :
  isStrictPubKeyEncoding (Some serializedPubKey) = true ->
  exists script,
    payToPubKeyScript serializedPubKey = Ok script
    /\ script = Z.of_nat (length serializedPubKey) :: serializedPubKey
                ++ [OP_CHECKSIG]
    /\ typeOfScript 0 script = PubKeyTy
    /\ extractPubKey script = Some serializedPubKey.
Proof.
  unfold isStrictPubKeyEncoding. intros H.
  apply orb_true_iff in H. destruct H as [H|H];
    apply andb_true_iff in H; destruct H as [Hl Hb].
  - apply Nat.eqb_eq in Hl. explode serializedPubKey 33 Hl.
    cbn [at_ nth] in Hb. apply orb_true_iff in Hb.
    destruct Hb as [Hb|Hb]; apply Z.eqb_eq in Hb; subst;
      eexists; repeat split.
  - apply Nat.eqb_eq in Hl. explode serializedPubKey 65 Hl.
    cbn [at_ nth] in Hb. apply Z.eqb_eq in Hb; subst.
    eexists; repeat split.
Qed.

Lemma payToPubKeyScript_roundtrip_witness :
  exists script,
    payToPubKeyScript (0x04 :: repeat 0x11 64) = Ok script
    /\ typeOfScript 0 script = PubKeyTy
    /\ extractPubKey script = Some (0x04 :: repeat 0x11 64).
Proof.
  destruct (payToPubKeyScript_roundtrip (0x04 :: repeat 0x11 64) eq_refl)
    as (s & E & _ & C & X).
  exists s. repeat split; assumption.
Defined.

(** X5.  For every 32-byte Ed25519 key and every strictly encoded
    compressed key, [payToEdwardsPubKeyScript] and
    [payToSchnorrPubKeyScript] give scripts the classifier returns PubkeyAlt
    on; [extractPubKeyAltDetails] gives back the key with the signature type
    of the builder, and [ExtractPkScriptAltSigType] that signature type. *)
Theorem payToPubKeyAlt_roundtrip (edwardsKey schnorrKey : bytes) :
  length edwardsKey = 32%nat ->
  IsStrictCompressedPubKeyEncoding (Some schnorrKey) = true ->
  exists edwards schnorr,
    payToEdwardsPubKeyScript edwardsKey = Ok edwards
    /\ payToSchnorrPubKeyScript schnorrKey = Ok schnorr
    /\ typeOfScript 0 edwards = PubkeyAltTy
    /\ typeOfScript 0 schnorr = PubkeyAltTy
    /\ extractPubKeyAltDetails edwards = (Some edwardsKey, STEd25519)
    /\ extractPubKeyAltDetails schnorr = (Some schnorrKey, STSchnorrSecp256k1)
    /\ ExtractPkScriptAltSigType edwards = Returns (Success STEd25519)
    /\ ExtractPkScriptAltSigType schnorr
       = Returns (Success STSchnorrSecp256k1).
Proof.
  intros He Hs. unfold IsStrictCompressedPubKeyEncoding in Hs.
  apply andb_true_iff in Hs. destruct Hs as [Hl Hb].
  apply Nat.eqb_eq in Hl.
  explode edwardsKey 32 He. explode schnorrKey 33 Hl.
  cbn [at_ nth] in Hb. apply orb_true_iff in Hb.
  destruct Hb as [Hb|Hb]; apply Z.eqb_eq in Hb; subst;
    do 2 eexists; repeat split.
Qed.

Lemma payToPubKeyAlt_roundtrip_witness :
  exists edwards schnorr,
    payToEdwardsPubKeyScript (repeat 5 32) = Ok edwards
    /\ payToSchnorrPubKeyScript (0x03 :: repeat 0x11 32) = Ok schnorr
    /\ extractPubKeyAltDetails edwards = (Some (repeat 5 32), STEd25519)
    /\ extractPubKeyAltDetails schnorr
       = (Some (0x03 :: repeat 0x11 32), STSchnorrSecp256k1).
Proof.
  destruct (payToPubKeyAlt_roundtrip (repeat 5 32) (0x03 :: repeat 0x11 32)
              eq_refl eq_refl)
    as (s1 & s2 & E1 & E2 & _ & _ & X1 & X2 & _).
  exists s1, s2. repeat split; assumption.
Defined.

(* ------------------------------------------------------------------ *)
(** ** Null-data scripts in general *)

Lemma return_script_no_fixed_template (rest : bytes) :
  isPubKeyScript (OP_RETURN :: rest) = false
  /\ isPubKeyAltScript (OP_RETURN :: rest) = false
  /\ isPubKeyHashScript (OP_RETURN :: rest) = false
  /\ isPubKeyHashAltScript (OP_RETURN :: rest) = false
  /\ isScriptHashScript (OP_RETURN :: rest) = false.
Proof.
  unfold isPubKeyScript, extractPubKey, extractCompressedPubKey,
    extractUncompressedPubKey, isPubKeyAltScript, extractPubKeyAltDetails,
    isPubKeyHashScript, extractPubKeyHash, isPubKeyHashAltScript,
    extractPubKeyHashAltDetails, isScriptHashScript, extractScriptHash.
  change (at_ (OP_RETURN :: rest) 0) with OP_RETURN.
  change (OP_RETURN =? OP_DATA_33) with false.
  change (OP_RETURN =? OP_DATA_65) with false.
  change (OP_RETURN =? OP_DATA_32) with false.
  change (OP_RETURN =? OP_DUP) with false.
  change (OP_RETURN =? OP_HASH160) with false.
  repeat rewrite andb_false_r. cbn [andb].
  repeat split. destruct (_ || _); reflexivity.
Qed.

(** [OP_RETURN] followed by one data push of 1 to 256 bytes is null data,
    whatever the push opcode. *)
Lemma nulldata_single_push (rest : bytes) (op : Z) (d : option bytes) :
  parseScript rest = Ok [mkPop op d] ->
  isSmallInt op || (op <=? OP_PUSHDATA4) = true ->
  (0 < len d <= 256)%nat ->
  typeOfScript 0 (OP_RETURN :: rest) = NullDataTy.
Proof.
  intros HP Hop Hd.
  destruct (parse_single_Next rest op d HP) as (Hlen & t & HN & Ho & Hdt & Hdone);
    [lia | lia |].
  destruct (return_script_no_fixed_template rest) as (H1 & H2 & H3 & H4 & H5).
  unfold typeOfScript. change (negb (0 =? 0)) with false. cbv iota.
  rewrite H1, H2, H3, H4, H5, return_script_not_multisig.
  replace (isNullDataScript 0 (OP_RETURN :: rest)) with true; [reflexivity|].
  unfold isNullDataScript.
  change (negb (0 =? 0)) with false.
  change ((length (OP_RETURN :: rest) <? 1)%nat
          || negb (at_ (OP_RETURN :: rest) 0 =? OP_RETURN)) with false.
  cbv iota.
  replace (length (OP_RETURN :: rest) =? 1)%nat with false
    by (symmetry; apply Nat.eqb_neq; simpl; lia).
  change (skipn 1 (OP_RETURN :: rest)) with rest.
  rewrite HN, Hdone, Ho, Hdt, Hop. cbn [andb].
  symmetry. apply Nat.leb_le. unfold MaxDataCarrierSize. lia.
Qed.

Lemma firstn_app_exact (A : Type) (l1 l2 : list A) :
  firstn (length l1) (l1 ++ l2) = l1.
Proof.
  rewrite firstn_app, Nat.sub_diag, firstn_all. simpl. apply app_nil_r.
Qed.

Lemma skipn_app_exact (A : Type) (l1 l2 : list A) :
  skipn (length l1) (l1 ++ l2) = l2.
Proof.
  rewrite skipn_app, Nat.sub_diag, skipn_all. reflexivity.
Qed.

(** A byte string is recognised by checking its elements. *)
Lemma allBytes_check (d : bytes) :
  forallb (fun b => (0 <=? b) && (b <? 256)) d = true -> allBytes d.
Proof.
  intros H. apply Forall_forall. intros b Hb.
  pose proof (proj1 (forallb_forall _ d) H b Hb) as Hc.
  apply andb_true_iff in Hc. destruct Hc as [H0 H1].
  apply Z.leb_le in H0. apply Z.ltb_lt in H1. lia.
Qed.

Lemma gtb_false (a b : Z) : a <= b -> (a >? b) = false.
Proof. intros H. rewrite Z.gtb_ltb. apply Z.ltb_ge. exact H. Qed.

(** The parser on the three push encodings the builder uses. *)
Lemma parseOne_data (d rest : bytes) :
  (1 <= length d <= 75)%nat ->
  parseOne (Z.of_nat (length d)) (d ++ rest)
  = Some (mkPop (Z.of_nat (length d)) (Some d), rest).
Proof.
  intros H. unfold parseOne.
  rewrite opLength_data by (unfold OP_DATA_1, OP_DATA_75; lia).
  replace (Z.of_nat (length d) + 1 =? 1) with false
    by (symmetry; apply Z.eqb_neq; lia).
  replace (Z.of_nat (length d) + 1 >? 1) with true
    by (symmetry; apply Z.gtb_lt; lia).
  replace (Z.to_nat (Z.of_nat (length d) + 1)) with (S (length d)) by lia.
  replace (S (length (d ++ rest)) <? S (length d))%nat with false
    by (symmetry; apply Nat.ltb_ge; rewrite length_app; lia).
  replace (S (length d) - 1)%nat with (length d) by lia.
  rewrite firstn_app_exact, skipn_app_exact. reflexivity.
Qed.

Lemma parseOne_pushdata1 (d rest : bytes) :
  (length d <= 255)%nat ->
  parseOne OP_PUSHDATA1 (Z.of_nat (length d) :: d ++ rest)
  = Some (mkPop OP_PUSHDATA1 (Some d), rest).
Proof.
  intros H. unfold parseOne.
  change (opLength OP_PUSHDATA1) with (-1).
  change (-1 =? 1) with false. change (-1 >? 1) with false. cbv iota.
  change (Z.to_nat (- -1)) with 1%nat.
  cbn [length Nat.ltb Nat.leb firstn skipn leDecode].
  rewrite Z.shiftl_0_l, Z.lor_0_r.
  replace (Z.of_nat (length d) >? Z.of_nat (length (d ++ rest))) with false
    by (symmetry; apply gtb_false; rewrite length_app; lia).
  rewrite Nat2Z.id, firstn_app_exact, skipn_app_exact. reflexivity.
Qed.

Lemma leDecode_leEncode (n : nat) (v : Z) :
  0 <= v < 2 ^ (8 * Z.of_nat n) -> leDecode (leEncode n v) = v.
Proof.
  revert v. induction n as [|n IH]; intros v H.
  - simpl in *. lia.
  - cbn [leEncode leDecode].
    rewrite IH.
    + rewrite Z.shiftl_mul_pow2, Z.shiftr_div_pow2 by lia.
      assert (Hl : Z.land (v mod 2 ^ 8) (v / 2 ^ 8 * 2 ^ 8) = 0).
      { apply Z.bits_inj'. intros k Hk.
        rewrite Z.land_spec, Z.bits_0.
        destruct (Z.lt_ge_cases k 8).
        - rewrite (Z.mul_pow2_bits_low (v / 2 ^ 8) 8 k) by lia.
          apply andb_false_r.
        - rewrite Z.mod_pow2_bits_high by lia. reflexivity. }
      change (v mod 256) with (v mod 2 ^ 8).
      rewrite <- Z.lxor_lor, <- Z.add_nocarry_lxor by exact Hl.
      pose proof (Z.div_mod v (2 ^ 8)). lia.
    + rewrite Z.shiftr_div_pow2 by lia.
      replace (8 * Z.of_nat (S n)) with (8 + 8 * Z.of_nat n) in H by lia.
      rewrite Z.pow_add_r in H by lia.
      split; [apply Z.div_pos; lia|].
      apply Z.div_lt_upper_bound; lia.
Qed.

Lemma leEncode_length (n : nat) (v : Z) : length (leEncode n v) = n.
Proof. revert v. induction n; intros; simpl; [reflexivity | f_equal; auto]. Qed.

Lemma parseOne_pushdata2 (d rest : bytes) :
  Z.of_nat (length d) <= 65535 ->
  parseOne OP_PUSHDATA2 (leEncode 2 (Z.of_nat (length d)) ++ d ++ rest)
  = Some (mkPop OP_PUSHDATA2 (Some d), rest).
Proof.
  intros H. unfold parseOne.
  change (opLength OP_PUSHDATA2) with (-2).
  change (-2 =? 1) with false. change (-2 >? 1) with false. cbv iota.
  change (Z.to_nat (- -2)) with 2%nat.
  replace (length (leEncode 2 (Z.of_nat (length d)) ++ d ++ rest) <? 2)%nat
    with false
    by (symmetry; apply Nat.ltb_ge; rewrite length_app, leEncode_length; lia).
  pose proof (firstn_app_exact _ (leEncode 2 (Z.of_nat (length d))) (d ++ rest)) as F.
  pose proof (skipn_app_exact _ (leEncode 2 (Z.of_nat (length d))) (d ++ rest)) as S.
  rewrite leEncode_length in F, S. rewrite F, S.
  rewrite leDecode_leEncode by (change (2 ^ (8 * Z.of_nat 2)) with 65536; lia).
  replace (Z.of_nat (length d) >? Z.of_nat (length (d ++ rest))) with false
    by (symmetry; apply gtb_false; rewrite length_app; lia).
  rewrite Nat2Z.id, firstn_app_exact, skipn_app_exact. reflexivity.
Qed.

(* ------------------------------------------------------------------ *)
(** ** Provably prunable outputs *)

Lemma canonicalDataSize_le (d : bytes) :
  (canonicalDataSize d <= 5 + length d)%nat.
Proof.
  unfold canonicalDataSize.
  repeat match goal with |- context [if ?c then _ else _] => destruct c end;
    lia.
Qed.

Lemma GenerateProvablyPruneableOut_script (d : bytes) :
  (length d <= 256)%nat ->
  GenerateProvablyPruneableOut d = Ok (addData [OP_RETURN] d).
Proof.
  intros H. unfold GenerateProvablyPruneableOut, MaxDataCarrierSize.
  replace (256 <? length d)%nat with false
    by (symmetry; apply Nat.ltb_ge; lia).
  change (AddOp NewScriptBuilder OP_RETURN)
    with {| sb_script := [OP_RETURN]; sb_err := None |}.
  unfold AddData, BuilderScript, MaxScriptSize, MaxScriptElementSize.
  cbn [sb_err sb_script length].
  pose proof (canonicalDataSize_le d).
  replace (16384 <? Z.of_nat (1 + canonicalDataSize d)) with false
    by (symmetry; apply Z.ltb_ge; lia).
  replace (2048 <? Z.of_nat (length d)) with false
    by (symmetry; apply Z.ltb_ge; lia).
  reflexivity.
Qed.

Lemma parseScript_single (op : Z) (tl : bytes) (pop : parsedOpcode) :
  parseOne op tl = Some (pop, []) -> parseScript (op :: tl) = Ok [pop].
Proof. intros H. rewrite parseScript_cons, H. reflexivity. Qed.


(** X13.  On a byte string of more than 256 bytes
    [GenerateProvablyPruneableOut] fails with ErrTooMuchNullData.  On one of
    at most 256 bytes it returns a script, and the classifier returns
    NullData on that script unless the data is the single byte [0x81]: its
    canonical push is [OP_1NEGATE], which the null-data matcher does not
    accept, and the classifier returns NonStandard. *)
Theorem GenerateProvablyPruneableOut_spec (d : bytes) :
  allBytes d ->
  ((256 < length d)%nat ->
     GenerateProvablyPruneableOut d = Err ErrTooMuchNullData)
  /\ ((length d <= 256)%nat ->
        exists script,
          GenerateProvablyPruneableOut d = Ok script
          /\ typeOfScript 0 script
             = if isOneNegate d then NonStandardTy else NullDataTy).
Proof.
  intros Hb. split.
  - intros H. unfold GenerateProvablyPruneableOut, MaxDataCarrierSize.
    replace (256 <? length d)%nat with true
      by (symmetry; apply Nat.ltb_lt; lia).
    reflexivity.
  - intros H. rewrite GenerateProvablyPruneableOut_script by exact H.
    eexists. split; [reflexivity|].
    destruct d as [|b d]; [reflexivity|].
    destruct d as [|b' d].
    + (* one byte *)
      inversion Hb as [|? ? Hr _]; subst. cbn [isOneNegate].
      destruct (Z.eq_dec b 0x81) as [->|H81]; [reflexivity|].
      replace (b =? 0x81) with false by (symmetry; apply Z.eqb_neq; exact H81).
      destruct (Z.le_gt_cases b 16) as [Hle|Hgt].
      * assert (Hcases : In b [0;1;2;3;4;5;6;7;8;9;10;11;12;13;14;15;16]).
        { simpl. lia. }
        simpl in Hcases.
        repeat (destruct Hcases as [<-|Hcases]; [reflexivity|]).
        contradiction.
      * unfold addData. cbn [length Nat.eqb at_ nth orb andb].
        replace (b =? 0) with false by (symmetry; apply Z.eqb_neq; lia).
        replace (b <=? 16) with false by (symmetry; apply Z.leb_gt; lia).
        replace (b =? 0x81) with false by (symmetry; apply Z.eqb_neq; exact H81).
        cbn -[typeOfScript].
        apply nulldata_single_push with (op := 1) (d := Some [b]);
          [reflexivity | reflexivity | simpl; lia].
    + (* two bytes and more *)
      cbn [isOneNegate].
      set (data := b :: b' :: d) in *.
      assert (Hl : (2 <= length data)%nat) by (simpl; lia).
      clearbody data.
      unfold addData.
      replace (length data =? 0)%nat with false
        by (symmetry; apply Nat.eqb_neq; lia).
      replace (length data =? 1)%nat with false
        by (symmetry; apply Nat.eqb_neq; lia).
      cbn [orb andb]. cbv iota.
      destruct (Z.of_nat (length data) <? OP_PUSHDATA1) eqn:E1.
      * apply Z.ltb_lt in E1. unfold OP_PUSHDATA1 in E1.
        change (OP_DATA_1 - 1 + Z.of_nat (length data))
          with (0 + Z.of_nat (length data)).
        rewrite Z.add_0_l. cbn [app].
        apply nulldata_single_push
          with (op := Z.of_nat (length data)) (d := Some data).
        -- apply parseScript_single.
           rewrite <- (app_nil_r data) at 2.
           apply parseOne_data. lia.
        -- apply orb_true_iff. right. apply Z.leb_le.
           unfold OP_PUSHDATA4. lia.
        -- simpl len. lia.
      * apply Z.ltb_ge in E1. unfold OP_PUSHDATA1 in E1.
        destruct (Z.of_nat (length data) <=? 255) eqn:E2.
        -- apply Z.leb_le in E2. cbn [app leEncode].
           rewrite Z.mod_small by lia.
           apply nulldata_single_push with (op := OP_PUSHDATA1) (d := Some data).
           ++ apply parseScript_single.
              rewrite <- (app_nil_r data) at 2.
              apply parseOne_pushdata1. lia.
           ++ reflexivity.
           ++ simpl len. lia.
        -- apply Z.leb_gt in E2.
           replace (Z.of_nat (length data) <=? 65535) with true
             by (symmetry; apply Z.leb_le; lia).
           cbn [app].
           apply nulldata_single_push with (op := OP_PUSHDATA2) (d := Some data).
           ++ apply parseScript_single.
              rewrite <- (app_nil_r data) at 2.
              apply parseOne_pushdata2. lia.
           ++ reflexivity.
           ++ simpl len. lia.
Qed.

Lemma GenerateProvablyPruneableOut_spec_witness :
  GenerateProvablyPruneableOut (repeat 0 257) = Err ErrTooMuchNullData
  /\ (exists script,
        GenerateProvablyPruneableOut [0x81] = Ok script
        /\ typeOfScript 0 script = NonStandardTy)
  /\ (exists script,
        GenerateProvablyPruneableOut (repeat 0 256) = Ok script
        /\ typeOfScript 0 script = NullDataTy).
Proof.
  split; [|split].
  - apply (proj1 (GenerateProvablyPruneableOut_spec (repeat 0 257)
                    (allBytes_check (repeat 0 257) eq_refl))).
    simpl. lia.
  - apply (proj2 (GenerateProvablyPruneableOut_spec [0x81]
                    (allBytes_check [0x81] eq_refl))).
    simpl. lia.
  - apply (proj2 (GenerateProvablyPruneableOut_spec (repeat 0 256)
                    (allBytes_check (repeat 0 256) eq_refl))).
    simpl. lia.
Defined.

(* ------------------------------------------------------------------ *)
(** ** Payment scripts of addresses *)

(** X6.  On an address whose hash or key has the size its type
    guarantees, [PayToAddrScript] fails with ErrUnsupportedAddress exactly
    for a nil address, an address of another kind and a pubkey-hash address
    of an unknown signature scheme; otherwise it returns a script on which
    the classifier returns the class of the address: PubKeyHash or
    PubkeyHashAlt by signature scheme, ScriptHash, PubKey, PubkeyAlt. *)
Theorem PayToAddrScript_class (addr : PaymentAddress) :
  addressSized addr = true ->
  match classOfAddress addr with
  | None => PayToAddrScript addr = Err ErrUnsupportedAddress
  | Some class =>
      exists script,
        PayToAddrScript addr = Ok script /\ typeOfScript 0 script = class
  end.
Proof.
  intros Hs.
  destruct addr as [[a|]|[a|]|[k|]|[k|]|[k|]|]; try reflexivity;
    cbn [classOfAddress PayToAddrScript addressSized] in *.
  - apply Nat.eqb_eq in Hs. destruct a as [hash dsa].
    cbn [pkh_hash pkh_DSA] in *. explode hash 20 Hs.
    destruct (dsa =? STEcdsaSecp256k1); [eexists; split; reflexivity|].
    destruct (dsa =? STEd25519); [eexists; split; reflexivity|].
    destruct (dsa =? STSchnorrSecp256k1); [eexists; split; reflexivity|].
    reflexivity.
  - apply Nat.eqb_eq in Hs. destruct a as [hash].
    cbn [sh_hash] in *. explode hash 20 Hs.
    eexists; split; reflexivity.
  - unfold isStrictPubKeyEncoding in Hs.
    apply orb_true_iff in Hs. destruct Hs as [H|H];
      apply andb_true_iff in H; destruct H as [Hl Hb];
      apply Nat.eqb_eq in Hl.
    + explode k 33 Hl. cbn [at_ nth] in Hb. apply orb_true_iff in Hb.
      destruct Hb as [Hb|Hb]; apply Z.eqb_eq in Hb; subst;
        eexists; split; reflexivity.
    + explode k 65 Hl. cbn [at_ nth] in Hb. apply Z.eqb_eq in Hb; subst.
      eexists; split; reflexivity.
  - apply Nat.eqb_eq in Hs. explode k 32 Hs.
    eexists; split; reflexivity.
  - unfold IsStrictCompressedPubKeyEncoding in Hs.
    apply andb_true_iff in Hs. destruct Hs as [Hl Hb].
    apply Nat.eqb_eq in Hl. explode k 33 Hl.
    cbn [at_ nth] in Hb. apply orb_true_iff in Hb.
    destruct Hb as [Hb|Hb]; apply Z.eqb_eq in Hb; subst;
      eexists; split; reflexivity.
Qed.

Lemma PayToAddrScript_class_witness :
  exists script,
    PayToAddrScript
      (PayPubKeyHash (Some (mkAddressPubKeyHash (repeat 7 20) STEd25519)))
    = Ok script
    /\ typeOfScript 0 script = PubkeyHashAltTy.
Proof.
  exact (PayToAddrScript_class
           (PayPubKeyHash (Some (mkAddressPubKeyHash (repeat 7 20) STEd25519)))
           eq_refl).
Defined.

(* ------------------------------------------------------------------ *)
(** ** Stake-tagged scripts *)

(** X7.  For a script-hash address or an ECDSA pubkey-hash address
    with a 20-byte hash, [PayToSStx], [PayToSSGen], [PayToSSRtx] and
    [PayToSStxChange] return the stake opcode followed by the plain
    pay-to-hash script; the classifier returns StakeSubmission, StakeGen,
    StakeRevocation and StakeSubChange on them, and [GetStakeOutSubclass]
    returns the class of the plain script. *)
Theorem stake_builders_roundtrip (hash : bytes) (isP2SH : bool) :
  length hash = 20%nat ->
  let addr := stakeAddrOf isP2SH hash in
  let sub := if isP2SH then ScriptHashTy else PubKeyHashTy in
  exists body,
    (if isP2SH then payToScriptHashScript hash
     else payToPubKeyHashScript hash) = Ok body
    /\ PayToSStx addr = Ok (OP_SSTX :: body)
    /\ PayToSSGen addr = Ok (OP_SSGEN :: body)
    /\ PayToSSRtx addr = Ok (OP_SSRTX :: body)
    /\ PayToSStxChange addr = Ok (OP_SSTXCHANGE :: body)
    /\ typeOfScript 0 (OP_SSTX :: body) = StakeSubmissionTy
    /\ typeOfScript 0 (OP_SSGEN :: body) = StakeGenTy
    /\ typeOfScript 0 (OP_SSRTX :: body) = StakeRevocationTy
    /\ typeOfScript 0 (OP_SSTXCHANGE :: body) = StakeSubChangeTy
    /\ GetStakeOutSubclass (OP_SSTX :: body) = Returns (Ok sub)
    /\ GetStakeOutSubclass (OP_SSGEN :: body) = Returns (Ok sub)
    /\ GetStakeOutSubclass (OP_SSRTX :: body) = Returns (Ok sub)
    /\ GetStakeOutSubclass (OP_SSTXCHANGE :: body) = Returns (Ok sub).
Proof.
  intros H. explode hash 20 H.
  destruct isP2SH; eexists; repeat split.
Qed.

Lemma stake_builders_roundtrip_witness :
  exists body,
    PayToSStx (stakeAddrOf true (repeat 7 20)) = Ok (OP_SSTX :: body)
    /\ typeOfScript 0 (OP_SSTX :: body) = StakeSubmissionTy
    /\ GetStakeOutSubclass (OP_SSTX :: body) = Returns (Ok ScriptHashTy).
Proof.
  destruct (stake_builders_roundtrip (repeat 7 20) true eq_refl)
    as (b & _ & E & _ & _ & _ & C & _ & _ & _ & S & _).
  exists b. repeat split; assumption.
Defined.



(** X9.  On a nil address, an address that is neither pubkey-hash nor
    script-hash, and a pubkey-hash address whose signature scheme is not
    ECDSA, the four stake script builders and [GenerateSStxAddrPush] fail
    with ErrUnsupportedAddress. *)
Theorem stake_builders_unsupported (addr : Address) (amount limits : Z) :
  unsupportedStakeAddr addr = true ->
  PayToSStx addr = Err ErrUnsupportedAddress
  /\ PayToSSGen addr = Err ErrUnsupportedAddress
  /\ PayToSSRtx addr = Err ErrUnsupportedAddress
  /\ PayToSStxChange addr = Err ErrUnsupportedAddress
  /\ GenerateSStxAddrPush addr amount limits = Err ErrUnsupportedAddress.
Proof.
  intros H.
  destruct addr as [[a|]|[a|]|]; try discriminate H;
    unfold PayToSStx, PayToSSGen, PayToSSRtx, PayToSStxChange,
      GenerateSStxAddrPush, stakeAddress;
    cbn [unsupportedStakeAddr] in H; try rewrite H; repeat split.
Qed.

Lemma stake_builders_unsupported_witness :
  PayToSStx (PubKeyHashAddr (Some (mkAddressPubKeyHash (repeat 7 20) STEd25519)))
  = Err ErrUnsupportedAddress
  /\ GenerateSStxAddrPush
       (PubKeyHashAddr (Some (mkAddressPubKeyHash (repeat 7 20) STEd25519)))
       1000 0x0058
     = Err ErrUnsupportedAddress.
Proof.
  destruct (stake_builders_unsupported
              (PubKeyHashAddr
                 (Some (mkAddressPubKeyHash (repeat 7 20) STEd25519)))
              1000 0x0058 eq_refl)
    as (E1 & _ & _ & _ & E5).
  split; assumption.
Defined.

(* ------------------------------------------------------------------ *)
(** ** Vote and commitment pushes *)

(** X10.  For every 16-bit [votebits], [GenerateSSGenVotes] returns
    [OP_RETURN], a 2-byte push, and the vote bits in little-endian order;
    [PushedData] gives these two bytes back and the classifier returns
    NullData. *)
Theorem GenerateSSGenVotes_roundtrip (votebits : Z) :
  0 <= votebits < 2 ^ 16 ->
  exists payload,
    GenerateSSGenVotes votebits = Ok ([OP_RETURN; 0x02] ++ payload)
    /\ length payload = 2%nat
    /\ leDecode payload = votebits
    /\ PushedData ([OP_RETURN; 0x02] ++ payload) = Ok [Some payload]
    /\ typeOfScript 0 ([OP_RETURN; 0x02] ++ payload) = NullDataTy.
Proof.
  intros H. exists (leEncode 2 votebits).
  split; [reflexivity|]. split; [reflexivity|].
  split; [apply leDecode_leEncode; exact H|].
  split; [reflexivity|].
  apply nulldata_single_push with (op := 0x02) (d := Some (leEncode 2 votebits));
    [reflexivity | reflexivity | simpl; lia].
Qed.

Lemma GenerateSSGenVotes_roundtrip_witness :
  exists payload,
    GenerateSSGenVotes 0x0105 = Ok ([OP_RETURN; 0x02] ++ payload)
    /\ leDecode payload = 0x0105
    /\ typeOfScript 0 ([OP_RETURN; 0x02] ++ payload) = NullDataTy.
Proof.
  destruct (GenerateSSGenVotes_roundtrip 0x0105 ltac:(lia))
    as (p & E & _ & D & _ & C).
  exists p. repeat split; assumption.
Defined.

(** X11.  For every 32-byte block hash and 32-bit height,
    [GenerateSSGenBlockRef] returns [OP_RETURN], a 36-byte push, the hash and
    the height in little-endian order; the classifier returns NullData. *)
Theorem GenerateSSGenBlockRef_roundtrip (blockHash : bytes) (height : Z) :
  length blockHash = 32%nat ->
  0 <= height < 2 ^ 32 ->
  exists payload,
    GenerateSSGenBlockRef blockHash height = Ok ([OP_RETURN; 0x24] ++ payload)
    /\ payload = blockHash ++ leEncode 4 height
    /\ leDecode (skipn 32 payload) = height
    /\ typeOfScript 0 ([OP_RETURN; 0x24] ++ payload) = NullDataTy.
Proof.
  intros Hl Hh. exists (blockHash ++ leEncode 4 height).
  pose proof (leDecode_leEncode 4 height Hh) as Hd.
  explode blockHash 32 Hl.
  split; [reflexivity|]. split; [reflexivity|].
  split; [exact Hd|].
  eapply nulldata_single_push with (op := 0x24);
    [reflexivity | reflexivity | simpl; lia].
Qed.

Lemma GenerateSSGenBlockRef_roundtrip_witness :
  exists payload,
    GenerateSSGenBlockRef (repeat 9 32) 70000
    = Ok ([OP_RETURN; 0x24] ++ payload)
    /\ leDecode (skipn 32 payload) = 70000
    /\ typeOfScript 0 ([OP_RETURN; 0x24] ++ payload) = NullDataTy.
Proof.
  destruct (GenerateSSGenBlockRef_roundtrip (repeat 9 32) 70000 eq_refl
              ltac:(lia))
    as (p & E & _ & D & C).
  exists p. repeat split; assumption.
Defined.

(** X12.  For a script-hash address or an ECDSA pubkey-hash address
    with a 20-byte hash, [GenerateSStxAddrPush] returns [OP_RETURN
    OP_DATA_30] and a 30-byte payload; [PushedData] gives the payload back,
    the classifier returns NullData, and the last two payload bytes decode
    to the limits when these fit 16 bits. *)
Theorem GenerateSStxAddrPush_nulldata (hash : bytes) (amount limits : Z)
  (isP2SH : bool) :
  length hash = 20%nat ->
  exists payload,
    GenerateSStxAddrPush (stakeAddrOf isP2SH hash) amount limits
    = Ok ([OP_RETURN; OP_DATA_30] ++ payload)
    /\ length payload = 30%nat
    /\ PushedData ([OP_RETURN; OP_DATA_30] ++ payload) = Ok [Some payload]
    /\ typeOfScript 0 ([OP_RETURN; OP_DATA_30] ++ payload) = NullDataTy
    /\ (0 <= limits < 2 ^ 16 -> leDecode (skipn 28 payload) = limits).
Proof.
  intros Hl.
  pose proof (leDecode_leEncode 2 limits) as Hd.
  explode hash 20 Hl.
  destruct isP2SH; eexists;
    (split; [reflexivity|]); (split; [reflexivity|]);
    (split; [reflexivity|]);
    (split; [eapply nulldata_single_push with (op := OP_DATA_30);
               [reflexivity | reflexivity | simpl; lia]
            | exact Hd]).
Qed.

Lemma GenerateSStxAddrPush_nulldata_witness :
  exists payload,
    GenerateSStxAddrPush (stakeAddrOf false (repeat 7 20)) 1000 0x0058
    = Ok ([OP_RETURN; OP_DATA_30] ++ payload)
    /\ typeOfScript 0 ([OP_RETURN; OP_DATA_30] ++ payload) = NullDataTy
    /\ leDecode (skipn 28 payload) = 0x0058.
Proof.
  destruct (GenerateSStxAddrPush_nulldata (repeat 7 20) 1000 0x0058 false
              eq_refl)
    as (p & E & _ & _ & C & D).
  exists p. repeat split; [assumption | assumption | apply D; lia].
Defined.

(* ------------------------------------------------------------------ *)
(** ** The classifier only returns defined classes *)

Lemma typeOfScript_range (scriptVersion : Z) (script : bytes) :
  In (typeOfScript scriptVersion script)
    [NonStandardTy; PubKeyTy; PubKeyHashTy; ScriptHashTy; MultiSigTy;
     NullDataTy; StakeSubmissionTy; StakeGenTy; StakeRevocationTy;
     StakeSubChangeTy; PubkeyAltTy; PubkeyHashAltTy].
Proof.
  unfold typeOfScript.
  repeat match goal with
         | |- context [if ?c then _ else _] => destruct c
         | |- context [match parseScript ?s with _ => _ end] =>
             destruct (parseScript s)
         end; simpl; intuition.
Qed.

(** X14.  [String] never panics on a class returned by
    [GetScriptClass]: whatever the version and the script, it returns one of
    the twelve names of the table, never ["Invalid"]. *)
Theorem String_of_classified (version : Z) (script : bytes) :
  exists name,
    String_ (GetScriptClass version script) = Returns name
    /\ name <> "Invalid"%string
    /\ In name scriptClassToName.
Proof.
  assert (H : In (GetScriptClass version script)
                [NonStandardTy; PubKeyTy; PubKeyHashTy; ScriptHashTy;
                 MultiSigTy; NullDataTy; StakeSubmissionTy; StakeGenTy;
                 StakeRevocationTy; StakeSubChangeTy; PubkeyAltTy;
                 PubkeyHashAltTy]).
  { unfold GetScriptClass. destruct (negb _); [simpl; intuition|].
    apply typeOfScript_range. }
  simpl in H.
  repeat (destruct H as [<-|H];
          [eexists; split; [reflexivity|]; split; [discriminate|];
           simpl; intuition|]).
  contradiction.
Qed.

(* ------------------------------------------------------------------ *)
(** ** The templates exclude each other *)

Lemma isPubKeyScript_shape (script : bytes) :
  isPubKeyScript script = true ->
  (at_ script 0 = OP_DATA_33 /\ length script = 35%nat)
  \/ (at_ script 0 = OP_DATA_65 /\ length script = 67%nat).
Proof.
  unfold isPubKeyScript, extractPubKey, extractCompressedPubKey,
    extractUncompressedPubKey.
  intros H. split_ifs H; bool_facts; auto.
Qed.

Lemma isPubKeyAltScript_shape (script : bytes) :
  isPubKeyAltScript script = true ->
  (at_ script 0 = OP_DATA_32 /\ length script = 35%nat)
  \/ (at_ script 0 = OP_DATA_33 /\ length script = 36%nat).
Proof.
  unfold isPubKeyAltScript, extractPubKeyAltDetails.
  intros H. split_ifs H; bool_facts; auto.
Qed.

Lemma isPubKeyHashScript_shape (script : bytes) :
  isPubKeyHashScript script = true ->
  at_ script 0 = OP_DUP /\ length script = 25%nat.
Proof.
  unfold isPubKeyHashScript, extractPubKeyHash.
  intros H. split_ifs H; bool_facts; auto.
Qed.

Lemma isPubKeyHashAltScript_shape (script : bytes) :
  isPubKeyHashAltScript script = true ->
  at_ script 0 = OP_DUP /\ length script = 26%nat.
Proof.
  unfold isPubKeyHashAltScript, extractPubKeyHashAltDetails.
  intros H. split_ifs H; bool_facts; auto.
Qed.

Lemma isScriptHashScript_shape (script : bytes) :
  isScriptHashScript script = true ->
  at_ script 0 = OP_HASH160 /\ length script = 23%nat.
Proof.
  unfold isScriptHashScript, extractScriptHash.
  intros H. split_ifs H; bool_facts; auto.
Qed.

(** The first operation the tokenizer yields carries the first byte. *)
Lemma Next_first_opcode (b : Z) (tl : bytes) (t : ScriptTokenizer) :
  Next (MakeScriptTokenizer 0 (b :: tl)) = (true, t) -> Opcode t = b.
Proof.
  unfold Next, Done, MakeScriptTokenizer, tokAdvance, tokFail, Opcode.
  cbn [tk_err tk_script tk_offset tk_version tk_op tk_data skipn Z.eqb].
  change (length (b :: tl) <=? 0)%nat with false. cbv iota.
  repeat match goal with
         | |- context [if ?c then _ else _] => destruct c
         end; intros H; inversion H; reflexivity.
Qed.

Lemma isMultisigScript_shape (script : bytes) :
  isMultisigScript 0 script = true ->
  isSmallInt (at_ script 0) = true /\ (3 <= length script)%nat.
Proof.
  unfold isMultisigScript, extractMultisigScriptDetails.
  change (negb (0 =? 0)) with false. cbv iota.
  destruct ((length script <? 3)%nat
            || negb (lastByte script =? OP_CHECKMULTISIG)) eqn:E0;
    [simpl; intros; discriminate|].
  bool_facts.
  destruct script as [|b tl]; [simpl in *; lia|].
  destruct (Next (MakeScriptTokenizer 0 (b :: tl))) as [ok t] eqn:EN.
  destruct ok; [|simpl; intros; discriminate].
  apply Next_first_opcode in EN. rewrite EN.
  destruct (isSmallInt b) eqn:Es; [|simpl; intros; discriminate].
  intros _. split; [exact Es | assumption].
Qed.

Lemma isNullDataScript_shape (script : bytes) :
  isNullDataScript 0 script = true ->
  at_ script 0 = OP_RETURN /\ (1 <= length script)%nat.
Proof.
  unfold isNullDataScript.
  change (negb (0 =? 0)) with false. cbv iota.
  destruct ((length script <? 1)%nat || negb (at_ script 0 =? OP_RETURN))
    eqn:E0; [simpl; intros; discriminate|].
  intros _. bool_facts. auto.
Qed.

Lemma isStakeSubmissionScript_shape (script : bytes) :
  isStakeSubmissionScript 0 script = true ->
  at_ script 0 = OP_SSTX
  /\ (isPubKeyHashScript (skipn 1 script) = true
      \/ isScriptHashScript (skipn 1 script) = true).
Proof.
  unfold isStakeSubmissionScript, extractStakePubKeyHash,
    extractStakeScriptHash.
  change (negb (0 =? 0)) with false. cbv iota.
  unfold isPubKeyHashScript, isScriptHashScript.
  destruct ((length script <? 1)%nat || negb (at_ script 0 =? OP_SSTX))
    eqn:E0; [simpl; intros; discriminate|].
  intros H. apply orb_true_iff in H. bool_facts. split; assumption.
Qed.

Lemma isSmallInt_range (op : Z) :
  isSmallInt op = true -> op = 0 \/ 0x51 <= op <= 0x60.
Proof.
  unfold isSmallInt, OP_0, OP_1, OP_16. intros H.
  apply orb_true_iff in H. destruct H as [H|H]; bool_facts; lia.
Qed.

(** At most one of the eight template checks holds. *)
Lemma templateChecks_exclusive (script : bytes) :
  (length (filter fst (templateChecks script)) <= 1)%nat.
Proof.
  pose proof (isPubKeyScript_shape script) as H1.
  pose proof (isPubKeyAltScript_shape script) as H2.
  pose proof (isPubKeyHashScript_shape script) as H3.
  pose proof (isPubKeyHashAltScript_shape script) as H4.
  pose proof (isScriptHashScript_shape script) as H5.
  pose proof (isMultisigScript_shape script) as H6.
  pose proof (isNullDataScript_shape script) as H7.
  pose proof (isStakeSubmissionScript_shape script) as H8.
  unfold templateChecks.
  unfold OP_DATA_33, OP_DATA_65, OP_DATA_32, OP_DUP, OP_HASH160, OP_RETURN,
    OP_SSTX in *.
  destruct (isPubKeyScript script);
  destruct (isPubKeyAltScript script);
  destruct (isPubKeyHashScript script);
  destruct (isPubKeyHashAltScript script);
  destruct (isScriptHashScript script);
  destruct (isMultisigScript 0 script);
  destruct (isNullDataScript 0 script);
  destruct (isStakeSubmissionScript 0 script);
  cbn [filter fst length];
  try lia;
  repeat match goal with
         | H : true = true -> _ |- _ => specialize (H eq_refl)
         | H : false = true -> _ |- _ => clear H
         end;
  try (destruct H6 as [H6 ?]; apply isSmallInt_range in H6);
  try (destruct H8 as [H8 _]);
  lia.
Qed.

Lemma parsedFallback_range (script : bytes) :
  In (parsedFallback script)
    [StakeGenTy; StakeRevocationTy; StakeSubChangeTy; NonStandardTy].
Proof.
  unfold parsedFallback, parsedChecks.
  destruct (parseScript script) as [pops|e]; [|simpl; intuition].
  cbn [firstMatch].
  destruct (isStakeGen pops); [simpl; intuition|].
  destruct (isStakeRevocation pops); [simpl; intuition|].
  destruct (isSStxChange pops); simpl; intuition.
Qed.

(** The classifier returns the class of a template exactly when the check
    of that template holds. *)
Lemma typeOfScript_templates (script : bytes) :
  Forall (fun p => typeOfScript 0 script = snd p <-> fst p = true)
    (templateChecks script).
Proof.
  pose proof (templateChecks_exclusive script) as Hex.
  rewrite typeOfScript_firstMatch.
  pose proof (parsedFallback_range script) as Hfb.
  generalize dependent (parsedFallback script). intros f Hfb.
  unfold templateChecks in *.
  destruct (isPubKeyScript script);
  destruct (isPubKeyAltScript script);
  destruct (isPubKeyHashScript script);
  destruct (isPubKeyHashAltScript script);
  destruct (isScriptHashScript script);
  destruct (isMultisigScript 0 script);
  destruct (isNullDataScript 0 script);
  destruct (isStakeSubmissionScript 0 script);
  cbn [filter fst length] in Hex; try lia;
  cbn [firstMatch fst snd];
  repeat (constructor;
          [cbn [fst snd]; split; intros E;
           first [ reflexivity
                 | discriminate E
                 | simpl in Hfb;
                   destruct Hfb as [<-|[<-|[<-|[<-|[]]]]]; discriminate E ]|]);
  constructor.
Qed.

(** X15.  On every version 0 script at most one of the eight
    template checks holds, and the classifier returns the class of a
    template exactly when the check of that template holds; the order of
    the checks does not change the result. *)
Theorem typeOfScript_iff_template (script : bytes) :
  (length (filter fst (templateChecks script)) <= 1)%nat
  /\ Forall (fun p => typeOfScript 0 script = snd p <-> fst p = true)
       (templateChecks script).
Proof.
  split; [apply templateChecks_exclusive | apply typeOfScript_templates].
Qed.

(** For each template class, the classifier returns it exactly when the
    matcher of that class holds. *)
Lemma typeOfScript_template_iffs (script : bytes) :
  (typeOfScript 0 script = PubKeyHashTy <-> isPubKeyHashScript script = true)
  /\ (typeOfScript 0 script = PubkeyHashAltTy
      <-> isPubKeyHashAltScript script = true)
  /\ (typeOfScript 0 script = ScriptHashTy
      <-> isScriptHashScript script = true)
  /\ (typeOfScript 0 script = MultiSigTy
      <-> isMultisigScript 0 script = true)
  /\ (typeOfScript 0 script = NullDataTy
      <-> isNullDataScript 0 script = true)
  /\ (typeOfScript 0 script = StakeSubmissionTy
      <-> isStakeSubmissionScript 0 script = true).
Proof.
  pose proof (typeOfScript_templates script) as H.
  unfold templateChecks in H.
  repeat match goal with
         | H : Forall _ (_ :: _) |- _ => inversion H; clear H; subst
         end.
  cbn [fst snd] in *. repeat split; tauto.
Qed.

(* ------------------------------------------------------------------ *)
(** ** Stake outputs and their subclass *)

Lemma parseOne_opcode op tl pop rest :
  parseOne op tl = Some (pop, rest) -> opcode_value pop = op.
Proof.
  unfold parseOne.
  repeat match goal with
         | |- context [if ?c then _ else _] => destruct c
         end; intros H; inversion H; reflexivity.
Qed.

Lemma parseScript_cons_inv (script : bytes) pop pops :
  parseScript script = Ok (pop :: pops) ->
  exists tl rest,
    script = opcode_value pop :: tl
    /\ parseOne (opcode_value pop) tl = Some (pop, rest)
    /\ parseScript rest = Ok pops.
Proof.
  destruct script as [|op tl]; [discriminate|].
  rewrite parseScript_cons.
  destruct (parseOne op tl) as [[pop' rest]|] eqn:E; [|discriminate].
  destruct (parseScript rest) as [pops'|] eqn:E'; [|discriminate].
  intros H. inversion H; subst.
  pose proof (parseOne_opcode _ _ _ _ E) as Ho. subst op.
  exists tl, rest. auto.
Qed.

(** A plain opcode takes one byte. *)
Lemma parseScript_plain_inv (script : bytes) pop pops :
  parseScript script = Ok (pop :: pops) ->
  opLength (opcode_value pop) = 1 ->
  exists tl, script = opcode_value pop :: tl /\ parseScript tl = Ok pops.
Proof.
  intros H Hl. apply parseScript_cons_inv in H.
  destruct H as (tl & rest & -> & E & HP).
  unfold parseOne in E. rewrite Hl in E. cbn in E.
  inversion E; subst. exists rest. auto.
Qed.

(** [OP_DATA_20] takes its 20 bytes. *)
Lemma parseScript_data20_inv (script : bytes) pop pops :
  parseScript script = Ok (pop :: pops) ->
  opcode_value pop = OP_DATA_20 ->
  exists h tl,
    script = OP_DATA_20 :: h ++ tl /\ length h = 20%nat
    /\ parseScript tl = Ok pops.
Proof.
  intros H Ho. apply parseScript_cons_inv in H.
  destruct H as (tl & rest & -> & E & HP). rewrite Ho in *.
  unfold parseOne in E. change (opLength OP_DATA_20) with 21 in E.
  cbn [Z.eqb Z.gtb Z.compare Pos.compare Pos.compare_cont] in E.
  change (Z.to_nat 21) with 21%nat in E.
  destruct (S (length tl) <? 21)%nat eqn:El; [discriminate|].
  apply Nat.ltb_ge in El. inversion E; subst.
  exists (firstn 20 tl), (skipn 20 tl).
  rewrite firstn_skipn. repeat split; [|exact HP].
  rewrite length_firstn. lia.
Qed.

(** The byte strings behind the two shapes of a stake-tagged operation
    sequence. *)
Lemma stake_tagged_bytes (so : Z) (script : bytes) (pops : list parsedOpcode) :
  opLength so = 1 ->
  parseScript script = Ok pops ->
  ((length pops =? 6)%nat && (opAt pops 0 =? so) && (opAt pops 1 =? OP_DUP)
   && (opAt pops 2 =? OP_HASH160) && (opAt pops 3 =? OP_DATA_20)
   && (opAt pops 4 =? OP_EQUALVERIFY) && (opAt pops 5 =? OP_CHECKSIG) = true ->
   exists h, length h = 20%nat
             /\ script = so :: [OP_DUP; OP_HASH160; OP_DATA_20] ++ h
                         ++ [OP_EQUALVERIFY; OP_CHECKSIG])
  /\ ((length pops =? 4)%nat && (opAt pops 0 =? so) && (opAt pops 1 =? OP_HASH160)
      && (opAt pops 2 =? OP_DATA_20) && (opAt pops 3 =? OP_EQUAL) = true ->
      exists h, length h = 20%nat
                /\ script = so :: [OP_HASH160; OP_DATA_20] ++ h ++ [OP_EQUAL]).
Proof.
  intros Hso HP. split; intros H; bool_facts.
  - do 6 (destruct pops as [|? pops]; [discriminate|]).
    destruct pops; [|discriminate].
    unfold opAt in *. cbn [nth] in *.
    apply parseScript_plain_inv in HP; [|congruence].
    destruct HP as (t0 & -> & HP).
    apply parseScript_plain_inv in HP;
      [|match goal with E : _ = OP_DUP |- _ => rewrite E end; reflexivity].
    destruct HP as (t1 & -> & HP).
    apply parseScript_plain_inv in HP;
      [|match goal with E : _ = OP_HASH160 |- _ => rewrite E end; reflexivity].
    destruct HP as (t2 & -> & HP).
    apply parseScript_data20_inv in HP; [|assumption].
    destruct HP as (h & t3 & -> & Hh & HP).
    apply parseScript_plain_inv in HP;
      [|match goal with E : _ = OP_EQUALVERIFY |- _ => rewrite E end;
        reflexivity].
    destruct HP as (t4 & -> & HP).
    apply parseScript_plain_inv in HP;
      [|match goal with E : _ = OP_CHECKSIG |- _ => rewrite E end;
        reflexivity].
    destruct HP as (t5 & -> & HP).
    apply parseScript_nil_inv in HP. subst t5.
    exists h. split; [exact Hh|]. cbn [app]. congruence.
  - do 4 (destruct pops as [|? pops]; [discriminate|]).
    destruct pops; [|discriminate].
    unfold opAt in *. cbn [nth] in *.
    apply parseScript_plain_inv in HP; [|congruence].
    destruct HP as (t0 & -> & HP).
    apply parseScript_plain_inv in HP;
      [|match goal with E : _ = OP_HASH160 |- _ => rewrite E end; reflexivity].
    destruct HP as (t1 & -> & HP).
    apply parseScript_data20_inv in HP; [|assumption].
    destruct HP as (h & t3 & -> & Hh & HP).
    apply parseScript_plain_inv in HP;
      [|match goal with E : _ = OP_EQUAL |- _ => rewrite E end; reflexivity].
    destruct HP as (t4 & -> & HP).
    apply parseScript_nil_inv in HP. subst t4.
    exists h. split; [exact Hh|]. cbn [app]. congruence.
Qed.

Lemma isPubKeyHashScript_bytes (script : bytes) :
  isPubKeyHashScript script = true ->
  exists h, length h = 20%nat
            /\ script = [OP_DUP; OP_HASH160; OP_DATA_20] ++ h
                        ++ [OP_EQUALVERIFY; OP_CHECKSIG].
Proof.
  unfold isPubKeyHashScript, extractPubKeyHash.
  intros H. split_ifs H. bool_facts.
  exists (slice 3 23 script).
  match goal with E : length script = _ |- _ => explode script 25 E end.
  cbn [at_ nth] in *. subst.
  split; reflexivity.
Qed.

Lemma isScriptHashScript_bytes (script : bytes) :
  isScriptHashScript script = true ->
  exists h, length h = 20%nat
            /\ script = [OP_HASH160; OP_DATA_20] ++ h ++ [OP_EQUAL].
Proof.
  unfold isScriptHashScript, extractScriptHash.
  intros H. split_ifs H. bool_facts.
  exists (slice 2 22 script).
  match goal with E : length script = _ |- _ => explode script 23 E end.
  cbn [at_ nth] in *. subst.
  split; reflexivity.
Qed.

Lemma typeOfScript_parsed_classes (script : bytes) :
  (typeOfScript 0 script = StakeGenTy ->
     exists pops, parseScript script = Ok pops /\ isStakeGen pops = true)
  /\ (typeOfScript 0 script = StakeRevocationTy ->
        exists pops, parseScript script = Ok pops
                     /\ isStakeRevocation pops = true)
  /\ (typeOfScript 0 script = StakeSubChangeTy ->
        exists pops, parseScript script = Ok pops /\ isSStxChange pops = true).
Proof.
  unfold typeOfScript. change (negb (0 =? 0)) with false. cbv iota.
  destruct (isPubKeyScript script); [repeat split; discriminate|].
  destruct (isPubKeyAltScript script); [repeat split; discriminate|].
  destruct (isPubKeyHashScript script); [repeat split; discriminate|].
  destruct (isPubKeyHashAltScript script); [repeat split; discriminate|].
  destruct (isScriptHashScript script); [repeat split; discriminate|].
  destruct (isMultisigScript 0 script); [repeat split; discriminate|].
  destruct (isNullDataScript 0 script); [repeat split; discriminate|].
  destruct (isStakeSubmissionScript 0 script); [repeat split; discriminate|].
  destruct (parseScript script) as [pops|e]; [|repeat split; discriminate].
  destruct (isStakeGen pops) eqn:E1;
    [repeat split; try discriminate; intros _; exists pops; auto|].
  destruct (isStakeRevocation pops) eqn:E2;
    [repeat split; try discriminate; intros _; exists pops; auto|].
  destruct (isSStxChange pops) eqn:E3;
    [repeat split; try discriminate; intros _; exists pops; auto|].
  repeat split; discriminate.
Qed.

(** A stake output is its stake opcode followed by a pay-to-pubkey-hash or
    a pay-to-script-hash script. *)
Lemma stake_output_bytes (script : bytes) :
  IsStakeOutput script = true ->
  exists so h,
    In so [OP_SSTX; OP_SSGEN; OP_SSRTX; OP_SSTXCHANGE]
    /\ length h = 20%nat
    /\ (script = so :: [OP_DUP; OP_HASH160; OP_DATA_20] ++ h
                 ++ [OP_EQUALVERIFY; OP_CHECKSIG]
        \/ script = so :: [OP_HASH160; OP_DATA_20] ++ h ++ [OP_EQUAL]).
Proof.
  unfold IsStakeOutput. intros H.
  destruct (typeOfScript_template_iffs script) as (_ & _ & _ & _ & _ & Hsub).
  destruct (typeOfScript_parsed_classes script) as (Hg & Hr & Hc).
  repeat (apply orb_true_iff in H; destruct H as [H|H]); apply Z.eqb_eq in H.
  - apply Hsub in H. apply isStakeSubmissionScript_shape in H.
    destruct H as [H0 Ht].
    destruct script as [|b tl];
      [destruct Ht as [Ht|Ht]; discriminate Ht|].
    cbn [at_ nth skipn] in *. subst b.
    destruct Ht as [Ht|Ht].
    + apply isPubKeyHashScript_bytes in Ht. destruct Ht as (h & Hl & ->).
      exists OP_SSTX, h. simpl; auto.
    + apply isScriptHashScript_bytes in Ht. destruct Ht as (h & Hl & ->).
      exists OP_SSTX, h. simpl; auto.
  - destruct (Hg H) as (pops & HP & Hm). unfold isStakeGen in Hm.
    destruct (stake_tagged_bytes OP_SSGEN script pops eq_refl HP) as [S6 S4].
    split_ifs Hm.
    + destruct (S6 eq_refl) as (h & Hl & ->). exists OP_SSGEN, h. simpl; auto.
    + destruct (S4 eq_refl) as (h & Hl & ->). exists OP_SSGEN, h. simpl; auto 10.
  - destruct (Hr H) as (pops & HP & Hm). unfold isStakeRevocation in Hm.
    destruct (stake_tagged_bytes OP_SSRTX script pops eq_refl HP) as [S6 S4].
    split_ifs Hm.
    + destruct (S6 eq_refl) as (h & Hl & ->). exists OP_SSRTX, h. simpl; auto 10.
    + destruct (S4 eq_refl) as (h & Hl & ->). exists OP_SSRTX, h. simpl; auto 10.
  - destruct (Hc H) as (pops & HP & Hm). unfold isSStxChange in Hm.
    destruct (stake_tagged_bytes OP_SSTXCHANGE script pops eq_refl HP)
      as [S6 S4].
    split_ifs Hm.
    + destruct (S6 eq_refl) as (h & Hl & ->).
      exists OP_SSTXCHANGE, h. simpl; auto 10.
    + destruct (S4 eq_refl) as (h & Hl & ->).
      exists OP_SSTXCHANGE, h. simpl; auto 10.
Qed.

(** A stake output has a pubkey-hash or script-hash script behind its tag,
    which is what the subclass query returns. *)
Lemma stake_output_subclass (script : bytes) :
  IsStakeOutput script = true ->
  exists sub,
    GetStakeOutSubclass script = Returns (Ok sub)
    /\ (sub = PubKeyHashTy \/ sub = ScriptHashTy)
    /\ typeOfScript 0 (skipn 1 script) = sub
    /\ ContainsStakeOpCodes script = Ok true.
Proof.
  intros H.
  destruct (stake_output_bytes script H) as (so & h & Hso & Hl & Hs).
  explode h 20 Hl.
  simpl in Hso.
  destruct Hs as [->| ->];
    repeat (destruct Hso as [<-|Hso];
            [eexists; repeat split; auto|]);
    contradiction.
Qed.

(** X16.  On a stake output (class StakeSubmission, StakeGen,
    StakeRevocation or StakeSubChange) [GetStakeOutSubclass] never panics
    and returns PubKeyHash or ScriptHash, the class of the script after its
    first byte, and [ContainsStakeOpCodes] reports a stake opcode; on every
    other script [GetStakeOutSubclass] returns an error. *)
Theorem GetStakeOutSubclass_total (script : bytes) :
  (IsStakeOutput script = true ->
     exists sub,
       GetStakeOutSubclass script = Returns (Ok sub)
       /\ (sub = PubKeyHashTy \/ sub = ScriptHashTy)
       /\ typeOfScript 0 (skipn 1 script) = sub
       /\ ContainsStakeOpCodes script = Ok true)
  /\ (IsStakeOutput script = false ->
        exists e, GetStakeOutSubclass script = Returns (Err e)).
Proof.
  split; intros H.
  - apply stake_output_subclass. exact H.
  - unfold GetStakeOutSubclass, IsStakeOutput in *.
    destruct (checkScriptParses 0 script); [eexists; reflexivity|].
    unfold isStakeClass. cbv zeta in H. rewrite H. eexists; reflexivity.
Qed.

Lemma GetStakeOutSubclass_total_witness :
  (exists sub,
     GetStakeOutSubclass (OP_SSGEN :: exampleP2SH) = Returns (Ok sub)
     /\ sub = ScriptHashTy)
  /\ exists e, GetStakeOutSubclass exampleP2SH = Returns (Err e).
Proof.
  split.
  - destruct (proj1 (GetStakeOutSubclass_total (OP_SSGEN :: exampleP2SH))
                eq_refl) as (sub & E & _ & C & _).
    exists sub. split; [exact E | symmetry; exact C].
  - apply (proj2 (GetStakeOutSubclass_total exampleP2SH)). reflexivity.
Defined.

(* ------------------------------------------------------------------ *)
(** ** When the script-info analyser panics *)

Lemma multisig_parse_nonempty (script : bytes) (pops : list parsedOpcode) :
  typeOfScript 0 script = MultiSigTy -> parseScript script = Ok pops ->
  pops <> [].
Proof.
  intros Hc HP ->. apply parseScript_nil_inv in HP. subst script.
  discriminate Hc.
Qed.

Lemma expectedInputs_returns (pops : list parsedOpcode) (class sub : ScriptClass) :
  (class = MultiSigTy -> pops <> []) ->
  exists n, expectedInputs pops class sub = Returns n.
Proof.
  intros H. unfold expectedInputs.
  repeat match goal with
         | |- context [if ?c then _ else _] => destruct c eqn:?
         end; try (eexists; reflexivity).
  bool_facts. destruct pops as [|p pops];
    [exfalso; apply H; [assumption | reflexivity]|].
  eexists; reflexivity.
Qed.

(** X17.  [CalcScriptInfo] panics exactly when the signature script
    is empty, [bip16] is set, the public key script parses, and that script
    is pay-to-script-hash or a stake output whose script after the tag is
    pay-to-script-hash: the last operation of the empty signature script is
    then read.  In every other case it returns, with the analysis or with
    an error. *)
Theorem CalcScriptInfo_panics_iff
  (getSigOpCount : list parsedOpcode -> bool -> Z)
  (sigScript pkScript : bytes) (bip16 : bool) :
  CalcScriptInfo getSigOpCount sigScript pkScript bip16 = Panics
  <-> sigScript = [] /\ bip16 = true
      /\ (exists pops, parseScript pkScript = Ok pops)
      /\ (typeOfScript 0 pkScript = ScriptHashTy
          \/ (IsStakeOutput pkScript = true
              /\ typeOfScript 0 (skipn 1 pkScript) = ScriptHashTy)).
Proof.
  unfold CalcScriptInfo.
  destruct (parseScript sigScript) as [sigPops|e] eqn:Es.
  2:{ split; [discriminate|]. intros (-> & _). discriminate Es. }
  destruct (parseScript pkScript) as [pkPops|e] eqn:Ep.
  2:{ split; [discriminate|]. intros (_ & _ & [pops Hp] & _). discriminate Hp. }
  destruct (isPushOnly sigPops) eqn:Epo; cbn [negb].
  2:{ split; [discriminate|]. intros (-> & _).
      inversion Es; subst. discriminate Epo. }
  set (class := typeOfScript 0 pkScript) in *.
  assert (Hstake : isStakeClass class = IsStakeOutput pkScript) by reflexivity.
  assert (Hsub : exists sub,
             (if isStakeClass class then GetStakeOutSubclass pkScript
              else Returns (Ok 0)) = Returns (Ok sub)
             /\ (sub = ScriptHashTy
                 <-> IsStakeOutput pkScript = true
                     /\ typeOfScript 0 (skipn 1 pkScript) = ScriptHashTy)).
  { rewrite Hstake. destruct (IsStakeOutput pkScript) eqn:Eso.
    - destruct (stake_output_subclass pkScript Eso) as (sub & -> & _ & Hs & _).
      exists sub. split; [reflexivity|]. rewrite Hs. tauto.
    - exists 0. split; [reflexivity|]. split; [discriminate|].
      intros [H _]; discriminate H. }
  destruct Hsub as (sub & -> & Hsub). cbn [bind].
  destruct (expectedInputs_returns pkPops class sub) as [n ->].
  { intros Hc. exact (multisig_parse_nonempty _ _ Hc Ep). }
  cbn [bind].
  destruct (((class =? ScriptHashTy) || (sub =? ScriptHashTy)) && bip16) eqn:Ec.
  - apply andb_true_iff in Ec. destruct Ec as [Ec ->].
    apply orb_true_iff in Ec.
    destruct sigPops as [|sp sigPops].
    + apply parseScript_nil_inv in Es. subst sigScript. cbn.
      split; [intros _|reflexivity].
      repeat split; [exists pkPops; reflexivity|].
      destruct Ec as [Ec|Ec]; apply Z.eqb_eq in Ec; [left; exact Ec|].
      right. apply Hsub. exact Ec.
    + destruct (lastPop_cons sp sigPops) as [final ->]. cbn [bind].
      split; [|intros (-> & _); discriminate Es].
      destruct (parseScript (asScript (data final))) as [shPops|e] eqn:Er;
        [|discriminate].
      destruct (expectedInputs_returns shPops
                  (typeOfScript 0 (asScript (data final))) 0) as [m ->].
      { intros Hc. exact (multisig_parse_nonempty _ _ Hc Er). }
      discriminate.
  - split; [discriminate|].
    intros (_ & -> & _ & Hc). exfalso.
    rewrite andb_true_r in Ec. apply orb_false_iff in Ec.
    destruct Ec as [E1 E2].
    destruct Hc as [Hc|Hc].
    + apply Z.eqb_neq in E1. apply E1. exact Hc.
    + apply Hsub in Hc. subst sub. discriminate E2.
Qed.

Lemma CalcScriptInfo_panics_iff_witness :
  CalcScriptInfo (fun _ _ => 0) [] exampleP2SH true = Panics
  /\ CalcScriptInfo (fun _ _ => 0) [] exampleP2SH false <> Panics.
Proof.
  split.
  - apply (proj2 (CalcScriptInfo_panics_iff (fun _ _ => 0) [] exampleP2SH
                    true)).
    repeat split; [eexists; reflexivity | left; reflexivity].
  - intros H.
    apply (proj1 (CalcScriptInfo_panics_iff (fun _ _ => 0) [] exampleP2SH
                    false)) in H.
    destruct H as (_ & H & _). discriminate H.
Defined.

(* ------------------------------------------------------------------ *)
(** ** The signature type of alternative scripts *)

Lemma extractOneBytePush_returns (pop : parsedOpcode) :
  popWf pop -> exists v, extractOneBytePush pop = Returns v.
Proof.
  intros Hwf. unfold extractOneBytePush.
  destruct (isOneByteMaxDataPush pop) eqn:E1; cbn [negb];
    [|eexists; reflexivity].
  match goal with
  | |- context [if ?c then _ else _] => destruct c eqn:E2
  end; [eexists; reflexivity|].
  unfold isOneByteMaxDataPush in E1. rewrite E2 in E1. cbn [orb] in E1.
  apply Z.eqb_eq in E1.
  destruct Hwf as (d & Hd & Hl);
    [rewrite E1; unfold OP_DATA_1, OP_DATA_75; lia|].
  rewrite Hd. rewrite E1 in Hl.
  destruct d as [|b d]; [discriminate Hl|].
  eexists; reflexivity.
Qed.

Lemma isStandardAltSignatureType_cases (op : Z) :
  isStandardAltSignatureType op = true -> op = 0x51 \/ op = 0x52.
Proof.
  unfold isStandardAltSignatureType, asSmallInt.
  destruct (isSmallInt op) eqn:Es; [|discriminate].
  apply isSmallInt_range in Es. cbn [negb].
  unfold OP_0, OP_1, STEd25519, STSchnorrSecp256k1.
  destruct (op =? 0) eqn:E0; [discriminate|].
  intros H. apply orb_true_iff in H. destruct H as [H|H];
    apply Z.eqb_eq in H; lia.
Qed.

Lemma smallInt_value (op v : Z) :
  isSmallInt op = true -> asSmallInt op = v -> 1 <= v -> op = 0x50 + v.
Proof.
  intros Hs Ha Hv. apply isSmallInt_range in Hs.
  unfold asSmallInt, OP_0, OP_1 in Ha.
  destruct (op =? 0) eqn:E0; lia.
Qed.

(** X18.  [ExtractPkScriptAltSigType] never panics, and on a script
    the classifier returns PubkeyHashAlt or PubkeyAlt on, it returns the
    signature type the byte-level extractor of that class reports. *)
Theorem ExtractPkScriptAltSigType_agrees (script : bytes) :
  (exists r, ExtractPkScriptAltSigType script = Returns r)
  /\ (typeOfScript 0 script = PubkeyHashAltTy ->
        ExtractPkScriptAltSigType script
        = Returns (Success (snd (extractPubKeyHashAltDetails script))))
  /\ (typeOfScript 0 script = PubkeyAltTy ->
        ExtractPkScriptAltSigType script
        = Returns (Success (snd (extractPubKeyAltDetails script)))).
Proof.
  split; [|split].
  - unfold ExtractPkScriptAltSigType.
    destruct (parseScript script) as [pops|e] eqn:HP; [|eexists; reflexivity].
    apply parseScript_wf in HP.
    destruct (isPubkeyAlt pops || isPubkeyHashAlt pops) eqn:E; cbn [negb];
      [|eexists; reflexivity].
    assert (Hidx : exists pop,
               index pops (if isPubkeyHashAlt pops then 4%nat else 1%nat)
               = Returns pop /\ popWf pop).
    { destruct (isPubkeyHashAlt pops) eqn:Eh.
      - unfold isPubkeyHashAlt in Eh. bool_facts.
        do 6 (destruct pops as [|? pops]; [discriminate|]).
        repeat match goal with
               | H : Forall _ (_ :: _) |- _ => inversion H; clear H; subst
               end.
        eexists. split; [reflexivity | assumption].
      - rewrite orb_false_r in E. unfold isPubkeyAlt in E. bool_facts.
        do 3 (destruct pops as [|? pops]; [discriminate|]).
        repeat match goal with
               | H : Forall _ (_ :: _) |- _ => inversion H; clear H; subst
               end.
        eexists. split; [reflexivity | assumption]. }
    destruct Hidx as (pop & -> & Hwf). cbn [bind].
    destruct (extractOneBytePush_returns pop Hwf) as [v ->]. cbn [bind].
    repeat match goal with
           | |- context [if ?c then _ else _] => destruct c
           end; eexists; reflexivity.
  - intros H.
    destruct (typeOfScript_template_iffs script) as (_ & Ha & _).
    apply Ha in H. unfold isPubKeyHashAltScript, extractPubKeyHashAltDetails in H.
    split_ifs H. bool_facts.
    match goal with
    | E : isStandardAltSignatureType _ = true |- _ =>
        apply isStandardAltSignatureType_cases in E; rename E into Et
    end.
    match goal with E : length script = _ |- _ => explode script 26 E end.
    cbn [at_ nth] in *. subst.
    destruct Et as [-> | ->]; reflexivity.
  - intros H. apply typeOfScript_PubkeyAltTy in H. destruct H as [_ H].
    unfold isPubKeyAltScript, extractPubKeyAltDetails in H.
    split_ifs H; bool_facts.
    + match goal with
      | Es : isSmallInt _ = true, Ea : asSmallInt _ = _ |- _ =>
          pose proof (smallInt_value _ _ Es Ea ltac:(unfold STEd25519; lia))
            as Hv
      end.
      match goal with E : length script = 35%nat |- _ => explode script 35 E end.
      unfold lastByte in *. cbn [at_ nth length Nat.sub] in *. subst.
      reflexivity.
    + match goal with
      | Es : isSmallInt _ = true, Ea : asSmallInt _ = _ |- _ =>
          pose proof (smallInt_value _ _ Es Ea
                        ltac:(unfold STSchnorrSecp256k1; lia)) as Hv
      end.
      match goal with E : length script = 36%nat |- _ => explode script 36 E end.
      unfold lastByte in *. cbn [at_ nth length Nat.sub] in *. subst.
      match goal with
      | E : isStrictPubKeyEncoding _ = true |- _ =>
          cbn in E; rewrite orb_false_r in E; apply orb_true_iff in E;
          destruct E as [E|E]; apply Z.eqb_eq in E; subst
      end; reflexivity.
Qed.

Lemma ExtractPkScriptAltSigType_agrees_witness :
  ExtractPkScriptAltSigType
    ([OP_DATA_32] ++ repeat 5 32 ++ [OP_1; OP_CHECKSIGALT])
  = Returns (Success STEd25519).
Proof.
  apply (proj2 (proj2 (ExtractPkScriptAltSigType_agrees
           ([OP_DATA_32] ++ repeat 5 32 ++ [OP_1; OP_CHECKSIGALT])))).
  reflexivity.
Defined.

(* ------------------------------------------------------------------ *)
(** ** The tokenizer and the parser read the same operations *)

Lemma leDecode_bound (l : bytes) :
  allBytes l -> 0 <= leDecode l < 2 ^ (8 * Z.of_nat (length l)).
Proof.
  induction 1 as [|b l Hb Hl IH].
  - simpl. lia.
  - cbn [leDecode length]. rewrite Nat2Z.inj_succ.
    replace (8 * Z.succ (Z.of_nat (length l)))
      with (8 * Z.of_nat (length l) + 8) by lia.
    rewrite Z.pow_add_r by lia.
    assert (Hd : Z.lor b (Z.shiftl (leDecode l) 8)
                 = b + leDecode l * 2 ^ 8).
    { rewrite <- Z.shiftl_mul_pow2 by lia.
      rewrite <- Z.lxor_lor, <- Z.add_nocarry_lxor; try reflexivity.
      all: apply Z.bits_inj'; intros n Hn; rewrite Z.land_spec, Z.bits_0;
        destruct (Z.ltb_spec n 8);
        [ rewrite Z.shiftl_spec_low by lia; apply andb_false_r
        | replace b with (b mod 2 ^ 8) by (apply Z.mod_small; lia);
          rewrite Z.mod_pow2_bits_high by lia; reflexivity ]. }
    rewrite Hd. nia.
Qed.

Lemma allBytes_firstn (n : nat) (l : bytes) : allBytes l -> allBytes (firstn n l).
Proof.
  unfold allBytes. revert n. induction l as [|b l IH]; intros [|n] H;
    simpl; try constructor; inversion H; subst; auto.
Qed.

Lemma allBytes_skipn (n : nat) (l : bytes) : allBytes l -> allBytes (skipn n l).
Proof.
  unfold allBytes. revert n. induction l as [|b l IH]; intros [|n] H;
    simpl; try constructor; inversion H; subst; auto.
Qed.

Lemma skipn_step (A : Type) (o m : nat) (l tl : list A) (x : A) :
  skipn o l = x :: tl -> skipn (o + S m) l = skipn m tl.
Proof.
  intros H. rewrite Nat.add_comm, <- skipn_skipn, H. reflexivity.
Qed.

Lemma Next_parseOne (t t' : ScriptTokenizer) :
  allBytes (tk_script t) -> Next t = (true, t') ->
  exists op tl,
    skipn (tk_offset t) (tk_script t) = op :: tl
    /\ parseOne op tl
       = Some (mkPop (Opcode t') (Data t'),
               skipn (tk_offset t') (tk_script t))
    /\ tk_script t' = tk_script t
    /\ tk_err t = None /\ tk_err t' = None
    /\ (tk_offset t < tk_offset t')%nat
    /\ (tk_offset t < length (tk_script t))%nat.
Proof.
  intros Hb HN.
  destruct (Next_true _ _ HN) as (Hs & Ho & Hlt).
  revert HN. unfold Next, Done.
  destruct (tk_err t) eqn:Ee; [discriminate|].
  destruct (length (tk_script t) <=? tk_offset t)%nat; [discriminate|].
  destruct (skipn (tk_offset t) (tk_script t)) as [|op tl] eqn:Esk;
    [discriminate|].
  assert (Htl : allBytes tl).
  { pose proof (allBytes_skipn (tk_offset t) _ Hb) as H.
    rewrite Esk in H. inversion H; assumption. }
  intros HN. exists op, tl. split; [reflexivity|].
  unfold parseOne, tokAdvance, tokFail in *. cbv zeta in *.
  destruct (opLength op =? 1) eqn:E1.
  { inversion HN; subst t'; cbn [tk_script tk_offset tk_err Opcode Data tk_op tk_data].
    rewrite (skipn_step _ _ 0 _ _ _ Esk). cbn [skipn].
    repeat split; auto; lia. }
  destruct (opLength op >? 1) eqn:E2.
  { destruct (S (length tl) <? Z.to_nat (opLength op))%nat; [discriminate|].
    inversion HN; subst t'; cbn [tk_script tk_offset tk_err Opcode Data tk_op tk_data].
    apply Z.gtb_lt in E2.
    replace (skipn (tk_offset t + Z.to_nat (opLength op)) (tk_script t))
      with (skipn (Z.to_nat (opLength op) - 1) tl)
      by (rewrite <- (skipn_step _ _ _ _ _ _ Esk); f_equal; lia).
    repeat split; auto; lia. }
  destruct (length tl <? Z.to_nat (- opLength op))%nat eqn:E3; [discriminate|].
  set (n := Z.to_nat (- opLength op)) in *.
  assert (Hn : (n <= 4)%nat).
  { subst n. unfold opLength.
    repeat match goal with
           | |- context [if ?c then _ else _] => destruct c eqn:?
           end; try lia.
    bool_facts. unfold OP_DATA_1 in *. lia. }
  pose proof (leDecode_bound _ (allBytes_firstn n _ Htl)) as Hd.
  assert (Hl : (length (firstn n tl) <= 4)%nat)
    by (rewrite length_firstn; lia).
  assert (Hd' : 0 <= leDecode (firstn n tl) < 2 ^ 32).
  { split; [lia|]. eapply Z.lt_le_trans; [apply Hd|].
    apply Z.pow_le_mono_r; lia. }
  clear Hd.
  set (z := leDecode (firstn n tl)) in *. clearbody z n.
  destruct ((int32 z >? Z.of_nat (length (skipn n tl))) || (int32 z <? 0))
    eqn:E4; [discriminate|].
  apply orb_false_iff in E4. destruct E4 as [E4 E5].
  apply Z.ltb_ge in E5.
  assert (Hz : int32 z = z).
  { revert E5. unfold int32. cbv zeta.
    rewrite (Z.mod_small z (2 ^ 32)) by lia.
    destruct (z >=? 2 ^ 31) eqn:E6; [|lia].
    rewrite Z.geb_leb in E6. apply Z.leb_le in E6. lia. }
  rewrite Hz in *. rewrite E4.
  inversion HN; subst t'; cbn [tk_script tk_offset tk_err Opcode Data tk_op tk_data].
  rewrite (skipn_step _ _ _ _ _ _ Esk), skipn_skipn,
    (Nat.add_comm (Z.to_nat z) n).
  repeat split; auto; lia.
Qed.

Lemma Next_false_Done (t t' : ScriptTokenizer) :
  Next t = (false, t') -> Done t' = true.
Proof.
  unfold Next. destruct (Done t) eqn:Ed.
  { intros H; inversion H; subst; exact Ed. }
  destruct (skipn (tk_offset t) (tk_script t)) as [|op tl] eqn:Esk.
  { intros _. exfalso. unfold Done in Ed.
    destruct (tk_err t); [discriminate|].
    apply Nat.leb_gt in Ed.
    apply (f_equal (@length Z)) in Esk. rewrite length_skipn in Esk.
    simpl in Esk. lia. }
  unfold tokAdvance, tokFail. cbv zeta.
  repeat match goal with
         | |- context [if ?c then _ else _] => destruct c
         end; intros H; inversion H; reflexivity.
Qed.

Lemma parsesTo_app (ps qs : list parsedOpcode) (s mid rest : bytes) :
  parsesTo ps s mid -> parsesTo qs mid rest -> parsesTo (ps ++ qs) s rest.
Proof.
  revert s. induction ps as [|p ps IH]; intros s H1 H2.
  - simpl in *. subst. exact H2.
  - destruct H1 as (op & tl & m & -> & HP & H1).
    exists op, tl, m. repeat split; auto.
Qed.

Lemma parsesTo_parseScript (ps qs : list parsedOpcode) (s rest : bytes) :
  parsesTo ps s rest -> parseScript rest = Ok qs ->
  parseScript s = Ok (ps ++ qs).
Proof.
  revert s. induction ps as [|p ps IH]; intros s H1 H2.
  - simpl in *. subst. exact H2.
  - destruct H1 as (op & tl & m & -> & HP & H1).
    rewrite parseScript_cons, HP, (IH _ H1 H2). reflexivity.
Qed.

(** The key-counting loop of the multi-signature matcher, ended on a
    tokenizer that is not done, has read decoded operations the parser reads
    too: one per key counted, then the operation it stopped on. *)
Lemma pubKeyLoop_parse (fuel : nat) :
  forall (t : ScriptTokenizer) (k : Z) (pk : option (list (option bytes)))
         (t' : ScriptTokenizer) (k' : Z) (pk' : option (list (option bytes))),
    allBytes (tk_script t) ->
    (length (tk_script t) - tk_offset t < fuel)%nat ->
    pubKeyLoop fuel t k pk = (t', k', pk') ->
    Done t' = false ->
    exists ps final,
      parsesTo (ps ++ [final])
        (skipn (tk_offset t) (tk_script t))
        (skipn (tk_offset t') (tk_script t))
      /\ tk_script t' = tk_script t
      /\ opcode_value final = Opcode t'
      /\ k' = k + Z.of_nat (length ps).
Proof.
  induction fuel as [|fuel IH]; intros t k pk t' k' pk' Hb Hf HL Hd;
    [lia|].
  cbn [pubKeyLoop] in HL.
  destruct (Next t) as [ok t1] eqn:EN.
  destruct ok.
  2:{ inversion HL; subst. rewrite (Next_false_Done _ _ EN) in Hd.
      discriminate Hd. }
  destruct (Next_parseOne _ _ Hb EN)
    as (op & tl & Esk & HP & Hs & He & He' & Ho & Hlt).
  destruct (negb (isStrictPubKeyEncoding (Data t1))).
  - inversion HL; subst. exists [], (mkPop (Opcode t') (Data t')).
    split; [|repeat split; auto; simpl; lia].
    exists op, tl, (skipn (tk_offset t') (tk_script t)).
    repeat split; auto.
  - rewrite <- Hs in Hb.
    destruct (IH t1 (k + 1)
                (option_map (fun ks => ks ++ [Data t1]) pk) t' k' pk' Hb)
      as (ps & final & Hps & Hs' & Hop & Hk);
      [rewrite Hs; lia | exact HL | exact Hd |].
    rewrite Hs in *.
    exists (mkPop (Opcode t1) (Data t1) :: ps), final.
    split; [|repeat split; auto; cbn [length]; lia].
    exists op, tl, (skipn (tk_offset t1) (tk_script t)).
    repeat split; auto.
Qed.

(* ------------------------------------------------------------------ *)
(** ** Multi-signature scripts: the matcher and the statistics *)

Lemma skipn_last_byte (k : nat) (l : bytes) :
  Z.of_nat (length l) - Z.of_nat k = 1 -> skipn k l = [lastByte l].
Proof.
  intros H.
  assert (Hl : length (skipn k l) = 1%nat) by (rewrite length_skipn; lia).
  destruct (skipn k l) as [|x [|y r]] eqn:E; try discriminate Hl.
  unfold lastByte, at_.
  replace (length l - 1)%nat with (k + 0)%nat by lia.
  rewrite <- nth_skipn, E. reflexivity.
Qed.

Lemma asSmallInt_range (op : Z) :
  isSmallInt op = true -> 0 <= asSmallInt op <= 16.
Proof.
  intros H. apply isSmallInt_range in H. unfold asSmallInt, OP_0, OP_1.
  destruct (op =? 0) eqn:E; [lia|]. apply Z.eqb_neq in E. lia.
Qed.

Lemma multisig_accepted_parse (script : bytes) (extractPubKeys : bool) :
  allBytes script ->
  valid (extractMultisigScriptDetails 0 script extractPubKeys) = true ->
  exists first keys final,
    parseScript script
    = Ok (first :: keys ++ [final; mkPop OP_CHECKMULTISIG None])
    /\ isSmallInt (opcode_value first) = true
    /\ isSmallInt (opcode_value final) = true
    /\ requiredSigs (extractMultisigScriptDetails 0 script extractPubKeys)
       = asSmallInt (opcode_value first)
    /\ numPubKeys (extractMultisigScriptDetails 0 script extractPubKeys)
       = asSmallInt (opcode_value final)
    /\ asSmallInt (opcode_value final) = Z.of_nat (length keys).
Proof.
  intros Hb. unfold extractMultisigScriptDetails.
  change (negb (0 =? 0)) with false. cbv iota.
  destruct ((length script <? 3)%nat
            || negb (lastByte script =? OP_CHECKMULTISIG)) eqn:E0;
    [simpl; intros; discriminate|].
  cbv zeta.
  destruct (Next (MakeScriptTokenizer 0 script)) as [ok t1] eqn:EN1.
  destruct (negb ok || negb (isSmallInt (Opcode t1))) eqn:E1;
    [simpl; intros; discriminate|].
  destruct (pubKeyLoop (length script) t1 0
              (if extractPubKeys then Some [] else None))
    as [[t2 n] pks] eqn:EL.
  destruct (Done t2) eqn:Ed; [simpl; intros; discriminate|].
  destruct (negb (isSmallInt (Opcode t2)) || negb (asSmallInt (Opcode t2) =? n))
    eqn:E2; [simpl; intros; discriminate|].
  destruct (negb (Z.of_nat (length (Script t2)) - Z.of_nat (ByteIndex t2) =? 1))
    eqn:E3; [simpl; intros; discriminate|].
  intros _. cbn [requiredSigs numPubKeys].
  bool_facts. subst ok.
  destruct (Next_parseOne (MakeScriptTokenizer 0 script) t1 Hb EN1)
    as (op & tl & Esk & HP & Hs & _ & _ & Ho & _).
  cbn [MakeScriptTokenizer tk_script tk_offset skipn] in Esk, HP, Hs, Ho.
  rewrite <- Hs in Hb.
  destruct (pubKeyLoop_parse (length script) t1 0
              (if extractPubKeys then Some [] else None) t2 n pks Hb)
    as (ps & final & Hps & Hs2 & Hop & Hn);
    [rewrite Hs; lia | exact EL | exact Ed |].
  rewrite Hs in Hps, Hs2.
  unfold Script, ByteIndex in *. rewrite Hs2 in *.
  rewrite (skipn_last_byte _ _ E3) in Hps.
  match goal with H : lastByte script = _ |- _ => rewrite H in Hps end.
  exists (mkPop (Opcode t1) (Data t1)), ps, final.
  assert (HPS : parsesTo (mkPop (Opcode t1) (Data t1) :: ps ++ [final])
                  script [OP_CHECKMULTISIG]).
  { exists op, tl, (skipn (tk_offset t1) script). repeat split; auto. }
  pose proof (parsesTo_parseScript _ [mkPop OP_CHECKMULTISIG None] _ _ HPS
                eq_refl) as Hparse.
  cbn [app] in Hparse. rewrite <- app_assoc in Hparse. cbn [app] in Hparse.
  cbn [opcode_value]. rewrite Hop.
  repeat split; auto. lia.
Qed.

(** What the statistics return on a script the matcher accepts. *)
Lemma multisig_accepted_stats (script : bytes) :
  allBytes script ->
  isMultisigScript 0 script = true ->
  let details := extractMultisigScriptDetails 0 script false in
  CalcMultiSigStats script
  = (if numPubKeys details =? 0 then Err ErrNotMultisigScript
     else Ok (numPubKeys details, requiredSigs details)).
Proof.
  intros Hb Hm details. subst details.
  destruct (multisig_accepted_parse script false Hb Hm)
    as (first & keys & final & HP & H1 & H2 & -> & -> & Hn).
  unfold CalcMultiSigStats. rewrite HP.
  destruct keys as [|k keys].
  - simpl in Hn. rewrite Hn. reflexivity.
  - replace (asSmallInt (opcode_value final) =? 0) with false
      by (symmetry; apply Z.eqb_neq; cbn [length] in Hn; lia).
    replace (length (first :: (k :: keys) ++ [final; mkPop OP_CHECKMULTISIG None])
             <? 4)%nat with false
      by (symmetry; apply Nat.ltb_ge; cbn [length app];
          rewrite length_app; simpl; lia).
    unfold opAt.
    replace (length (first :: (k :: keys) ++ [final; mkPop OP_CHECKMULTISIG None])
             - 2)%nat with (S (length (k :: keys)))
      by (cbn [length app]; rewrite length_app; simpl; lia).
    cbn [nth]. rewrite app_nth2 by (cbn [length]; lia).
    replace (length (k :: keys) - length (k :: keys))%nat with 0%nat by lia.
    reflexivity.
Qed.

(** X19.  On every byte string the multi-signature matcher accepts,
    the script parses into the key count plus three operations, the
    required signatures and the key count lie between 0 and 16, the
    classifier returns MultiSig, [expectedInputs] returns the required
    signatures, and [CalcMultiSigStats] and [GetMultisigMandN] return the
    counts the matcher extracted, except that they fail with
    ErrNotMultisigScript when the key count is 0. *)
Theorem multisig_stats_agree (script : bytes) :
  allBytes script ->
  isMultisigScript 0 script = true ->
  let details := extractMultisigScriptDetails 0 script false in
  let m := requiredSigs details in
  let n := numPubKeys details in
  0 <= m <= 16 /\ 0 <= n <= 16
  /\ typeOfScript 0 script = MultiSigTy
  /\ CalcMultiSigStats script
     = (if n =? 0 then Err ErrNotMultisigScript else Ok (n, m))
  /\ GetMultisigMandN script
     = (if n =? 0 then Err ErrNotMultisigScript else Ok (m, n))
  /\ exists pops,
       parseScript script = Ok pops
       /\ Z.of_nat (length pops) = n + 3
       /\ expectedInputs pops MultiSigTy 0 = Returns m.
Proof.
  intros Hb Hm details m n. subst m n details.
  pose proof (multisig_accepted_stats script Hb Hm) as Hstats.
  cbv zeta in Hstats.
  destruct (multisig_accepted_parse script false Hb Hm)
    as (first & keys & final & HP & H1 & H2 & E1 & E2 & Hn).
  rewrite E1, E2 in *.
  pose proof (asSmallInt_range _ H1) as R1.
  pose proof (asSmallInt_range _ H2) as R2.
  split; [exact R1|]. split; [exact R2|].
  split; [apply (typeOfScript_template_iffs script); exact Hm|].
  split; [exact Hstats|].
  split.
  - unfold GetMultisigMandN. rewrite Hstats.
    destruct (asSmallInt (opcode_value final) =? 0); [reflexivity|].
    unfold uint8. rewrite !Z.mod_small by lia. reflexivity.
  - eexists. split; [exact HP|]. split.
    + cbn [length]. rewrite length_app. cbn [length]. lia.
    + reflexivity.
Qed.

Lemma multisig_stats_agree_witness :
  CalcMultiSigStats oneOfOneMultisig = Ok (1, 1)
  /\ GetMultisigMandN oneOfOneMultisig = Ok (1, 1)
  /\ CalcMultiSigStats [OP_0; OP_0; OP_CHECKMULTISIG]
     = Err ErrNotMultisigScript.
Proof.
  split; [|split].
  - apply (multisig_stats_agree oneOfOneMultisig
             (allBytes_check oneOfOneMultisig eq_refl) eq_refl).
  - apply (multisig_stats_agree oneOfOneMultisig
             (allBytes_check oneOfOneMultisig eq_refl) eq_refl).
  - apply (multisig_stats_agree [OP_0; OP_0; OP_CHECKMULTISIG]
             (allBytes_check [OP_0; OP_0; OP_CHECKMULTISIG] eq_refl) eq_refl).
Defined.

(* ------------------------------------------------------------------ *)
(** ** Building a multi-signature script *)

Lemma strict_key_length (k : bytes) :
  isStrictPubKeyEncoding (Some k) = true ->
  length k = 33%nat \/ length k = 65%nat.
Proof.
  unfold isStrictPubKeyEncoding. intros H.
  apply orb_true_iff in H. destruct H as [H|H]; bool_facts; auto.
Qed.

Lemma keyPushes_length (keys : list bytes) :
  strictKeys keys ->
  Z.of_nat (length (keyPushes keys)) <= 66 * Z.of_nat (length keys).
Proof.
  induction 1 as [|k keys Hk _ IH]; [simpl; lia|].
  unfold keyPushes in *. cbn [flat_map length]. rewrite length_app.
  cbn [length]. destruct (strict_key_length k Hk); lia.
Qed.

Lemma AddData_key (b : ScriptBuilder) (k : bytes) :
  sb_err b = None ->
  isStrictPubKeyEncoding (Some k) = true ->
  Z.of_nat (length (sb_script b)) + 66 <= MaxScriptSize ->
  AddData b k
  = {| sb_script := sb_script b ++ Z.of_nat (length k) :: k;
       sb_err := None |}.
Proof.
  intros He Hk Hl. unfold AddData. rewrite He.
  destruct (strict_key_length k Hk) as [H|H].
  - explode k 33 H.
    match goal with
    | |- context [canonicalDataSize ?d] =>
        change (canonicalDataSize d) with 34%nat
    end.
    destruct (MaxScriptSize <? _) eqn:E; [apply Z.ltb_lt in E; lia|].
    reflexivity.
  - explode k 65 H.
    match goal with
    | |- context [canonicalDataSize ?d] =>
        change (canonicalDataSize d) with 66%nat
    end.
    destruct (MaxScriptSize <? _) eqn:E; [apply Z.ltb_lt in E; lia|].
    reflexivity.
Qed.

Lemma fold_AddData_keys (keys : list bytes) :
  forall b : ScriptBuilder,
    sb_err b = None -> strictKeys keys ->
    Z.of_nat (length (sb_script b)) + 66 * Z.of_nat (length keys)
    <= MaxScriptSize ->
    fold_left AddData keys b
    = {| sb_script := sb_script b ++ keyPushes keys; sb_err := None |}.
Proof.
  induction keys as [|k keys IH]; intros b He Hk Hl.
  - simpl. rewrite app_nil_r. destruct b; simpl in *; subst; reflexivity.
  - inversion Hk as [|? ? Hk1 Hk2]; subst.
    cbn [fold_left length] in *.
    rewrite AddData_key by (auto; lia).
    rewrite IH; [| reflexivity | exact Hk2 |].
    + cbn [sb_script]. unfold keyPushes. cbn [flat_map].
      rewrite <- app_assoc. reflexivity.
    + cbn [sb_script]. rewrite length_app. cbn [length].
      destruct (strict_key_length k Hk1); lia.
Qed.

Lemma AddInt64_small (b : ScriptBuilder) (v : Z) :
  sb_err b = None -> 0 <= v <= 16 ->
  Z.of_nat (length (sb_script b)) + 1 <= MaxScriptSize ->
  AddInt64 b v
  = {| sb_script := sb_script b ++ [smallIntOp v]; sb_err := None |}.
Proof.
  intros He Hv Hl. unfold AddInt64, smallIntOp. rewrite He.
  destruct (MaxScriptSize <? _) eqn:E; [apply Z.ltb_lt in E; lia|].
  destruct (v =? 0) eqn:E0; [reflexivity|]. apply Z.eqb_neq in E0.
  replace ((v =? -1) || ((1 <=? v) && (v <=? 16))) with true; [reflexivity|].
  symmetry. apply orb_true_iff. right. apply andb_true_iff.
  split; apply Z.leb_le; lia.
Qed.

Lemma Next_plain (t : ScriptTokenizer) (op : Z) (rest : bytes) :
  tk_err t = None ->
  skipn (tk_offset t) (tk_script t) = op :: rest ->
  opLength op = 1 ->
  Next t = (true,
            {| tk_script := tk_script t; tk_version := tk_version t;
               tk_offset := tk_offset t + 1; tk_op := op; tk_data := None;
               tk_err := None |}).
Proof.
  intros He Hs Hl. unfold Next, Done. rewrite He.
  destruct (length (tk_script t) <=? tk_offset t)%nat eqn:E.
  { apply Nat.leb_le in E. rewrite skipn_all2 in Hs by exact E.
    discriminate Hs. }
  rewrite Hs. cbv zeta. rewrite Hl. unfold tokAdvance. rewrite He.
  reflexivity.
Qed.

Lemma Next_key (t : ScriptTokenizer) (k rest : bytes) :
  tk_err t = None ->
  skipn (tk_offset t) (tk_script t) = Z.of_nat (length k) :: k ++ rest ->
  isStrictPubKeyEncoding (Some k) = true ->
  Next t = (true,
            {| tk_script := tk_script t; tk_version := tk_version t;
               tk_offset := tk_offset t + S (length k);
               tk_op := Z.of_nat (length k); tk_data := Some k;
               tk_err := None |}).
Proof.
  intros He Hs Hk. unfold Next, Done. rewrite He.
  destruct (length (tk_script t) <=? tk_offset t)%nat eqn:E.
  { apply Nat.leb_le in E. rewrite skipn_all2 in Hs by exact E.
    discriminate Hs. }
  rewrite Hs. cbv zeta.
  assert (Hl : opLength (Z.of_nat (length k)) = Z.of_nat (length k) + 1).
  { destruct (strict_key_length k Hk) as [-> | ->]; reflexivity. }
  rewrite Hl.
  assert (Hn : Z.to_nat (Z.of_nat (length k) + 1) = S (length k)) by lia.
  rewrite Hn.
  replace (Z.of_nat (length k) + 1 =? 1) with false
    by (symmetry; apply Z.eqb_neq; destruct (strict_key_length k Hk); lia).
  replace (Z.of_nat (length k) + 1 >? 1) with true
    by (symmetry; apply Z.gtb_lt; destruct (strict_key_length k Hk); lia).
  replace (S (length (k ++ rest)) <? S (length k))%nat with false
    by (symmetry; apply Nat.ltb_ge; rewrite length_app; lia).
  unfold tokAdvance. rewrite He.
  replace (S (length k) - 1)%nat with (length k) by lia.
  rewrite firstn_app_exact. reflexivity.
Qed.

Lemma smallIntOp_small (v : Z) :
  0 <= v <= 16 ->
  isSmallInt (smallIntOp v) = true /\ asSmallInt (smallIntOp v) = v
  /\ opLength (smallIntOp v) = 1.
Proof.
  intros H.
  assert (Hc : In v [0; 1; 2; 3; 4; 5; 6; 7; 8; 9; 10; 11; 12; 13; 14; 15; 16]).
  { simpl. lia. }
  simpl in Hc.
  repeat (destruct Hc as [<-|Hc]; [repeat split|]). contradiction.
Qed.

(** The key-counting loop on a run of key pushes followed by a small
    integer: it counts and collects every key and stops on the integer. *)
Lemma pubKeyLoop_keys (keys : list bytes) :
  forall (fuel : nat) (t : ScriptTokenizer) (n : Z)
         (pk : option (list (option bytes))) (final : Z) (rest : bytes),
    (length keys < fuel)%nat ->
    tk_err t = None ->
    strictKeys keys ->
    skipn (tk_offset t) (tk_script t) = keyPushes keys ++ final :: rest ->
    opLength final = 1 ->
    pubKeyLoop fuel t n pk
    = ({| tk_script := tk_script t; tk_version := tk_version t;
          tk_offset := tk_offset t + length (keyPushes keys) + 1;
          tk_op := final; tk_data := None; tk_err := None |},
       n + Z.of_nat (length keys),
       option_map (fun ks => ks ++ map Some keys) pk).
Proof.
  induction keys as [|k keys IH]; intros fuel t n pk final rest Hf He Hk Hs Hl;
    (destruct fuel as [|fuel]; [cbn [length] in Hf; lia|]);
    cbn [pubKeyLoop].
  - cbn [keyPushes flat_map app] in Hs.
    rewrite (Next_plain t final rest He Hs Hl).
    cbn [Data tk_data isStrictPubKeyEncoding negb keyPushes flat_map length map].
    rewrite Nat.add_0_r, Z.add_0_r.
    destruct pk; cbn [option_map]; [rewrite app_nil_r|]; reflexivity.
  - inversion Hk as [|? ? Hk1 Hk2]; subst. cbn [length] in Hf.
    unfold keyPushes in Hs. cbn [flat_map] in Hs.
    rewrite <- app_assoc in Hs. cbn [app] in Hs.
    fold (keyPushes keys) in Hs.
    rewrite (Next_key t k _ He Hs Hk1).
    unfold Data. cbn [tk_data]. rewrite Hk1. cbn [negb].
    rewrite (IH fuel _ (n + 1) _ final rest);
      cbn [tk_script tk_offset tk_err tk_version length]; auto; try lia.
    + f_equal; [f_equal|].
      * f_equal.
        change (keyPushes (k :: keys))
          with ((Z.of_nat (length k) :: k) ++ keyPushes keys).
        rewrite length_app. cbn [length]. lia.
      * lia.
      * destruct pk; cbn [option_map map]; [|reflexivity].
        rewrite <- app_assoc. reflexivity.
    + rewrite (skipn_step _ _ _ _ _ _ Hs). apply skipn_app_exact.
Qed.

Lemma lastByte_app (l : bytes) (b : Z) : lastByte (l ++ [b]) = b.
Proof.
  unfold lastByte, at_. rewrite length_app. cbn [length].
  rewrite app_nth2 by lia.
  replace (length l + 1 - 1 - length l)%nat with 0%nat by lia. reflexivity.
Qed.

Lemma multisig_script_details (m : Z) (keys : list bytes)
  (extractPubKeys : bool) :
  0 <= m <= 16 -> Z.of_nat (length keys) <= 16 -> strictKeys keys ->
  extractMultisigScriptDetails 0
    (smallIntOp m :: keyPushes keys
       ++ [smallIntOp (Z.of_nat (length keys)); OP_CHECKMULTISIG])
    extractPubKeys
  = {| requiredSigs := m;
       numPubKeys := Z.of_nat (length keys);
       pubKeys := if extractPubKeys then Some (map Some keys) else None;
       valid := true |}.
Proof.
  intros Hm Hn Hk.
  destruct (smallIntOp_small m Hm) as (Hm1 & Hm2 & Hm3).
  destruct (smallIntOp_small (Z.of_nat (length keys))) as (Hn1 & Hn2 & Hn3);
    [lia|].
  set (n := smallIntOp (Z.of_nat (length keys))) in *.
  set (script := smallIntOp m :: keyPushes keys ++ [n; OP_CHECKMULTISIG]).
  assert (Hlen : length script = (length (keyPushes keys) + 3)%nat).
  { subst script. cbn [length]. rewrite length_app. cbn [length]. lia. }
  assert (Hlast : lastByte script = OP_CHECKMULTISIG).
  { subst script.
    replace (smallIntOp m :: keyPushes keys ++ [n; OP_CHECKMULTISIG])
      with ((smallIntOp m :: keyPushes keys ++ [n]) ++ [OP_CHECKMULTISIG])
      by (cbn [app]; rewrite <- app_assoc; reflexivity).
    apply lastByte_app. }
  assert (HN1 : Next (MakeScriptTokenizer 0 script)
                = (true,
                   {| tk_script := script; tk_version := 0; tk_offset := 1;
                      tk_op := smallIntOp m; tk_data := None;
                      tk_err := None |})).
  { apply (Next_plain (MakeScriptTokenizer 0 script) (smallIntOp m)
             (keyPushes keys ++ [n; OP_CHECKMULTISIG]));
      [reflexivity | reflexivity | exact Hm3]. }
  unfold extractMultisigScriptDetails.
  change (negb (0 =? 0)) with false. cbv iota.
  replace (length script <? 3)%nat with false
    by (symmetry; apply Nat.ltb_ge; lia).
  rewrite Hlast. change (negb (OP_CHECKMULTISIG =? OP_CHECKMULTISIG)) with false.
  cbn [orb]. cbv zeta. rewrite HN1.
  unfold Opcode at 1. cbn [tk_op negb orb]. rewrite Hm1. cbn [negb].
  rewrite (pubKeyLoop_keys keys (length script) _ 0 _ n [OP_CHECKMULTISIG]);
    [| | reflexivity | exact Hk | reflexivity | exact Hn3].
  2:{ rewrite Hlen. pose proof (keyPushes_length keys Hk).
      assert (length keys <= length (keyPushes keys))%nat; [|lia].
      clear. induction keys as [|k keys IH]; [simpl; lia|].
      unfold keyPushes in *. cbn [flat_map length]. rewrite length_app.
      cbn [length]. lia. }
  unfold Done, Opcode, Script, ByteIndex.
  cbn [tk_err tk_script tk_offset tk_op].
  replace (length script <=? 1 + length (keyPushes keys) + 1)%nat with false
    by (symmetry; apply Nat.leb_gt; lia).
  rewrite Hn1, Hn2, Z.eqb_refl. cbn [negb orb].
  replace (Z.of_nat (length script)
           - Z.of_nat (1 + length (keyPushes keys) + 1) =? 1) with true
    by (symmetry; apply Z.eqb_eq; lia).
  cbn [negb]. rewrite Hm2.
  destruct extractPubKeys; reflexivity.
Qed.

Lemma allBytes_keyPushes (keys : list bytes) :
  strictKeys keys -> Forall allBytes keys -> allBytes (keyPushes keys).
Proof.
  intros Hk Hb. induction keys as [|k keys IH]; [constructor|].
  inversion Hk as [|? ? Hk1 Hk2]; inversion Hb as [|? ? Hb1 Hb2]; subst.
  change (keyPushes (k :: keys))
    with ((Z.of_nat (length k) :: k) ++ keyPushes keys).
  apply Forall_app. split; [|apply IH; assumption].
  constructor; [|exact Hb1].
  destruct (strict_key_length k Hk1); lia.
Qed.

(** X20.  For 1 to 16 strictly encoded public keys and a number of
    required signatures between 0 and the number of keys, [MultiSigScript]
    returns the small-integer opcode of the required signatures, the pushes
    of the keys in order, the small-integer opcode of the key count and
    [OP_CHECKMULTISIG]; [extractMultisigScriptDetails] reads the two counts
    and the keys back, the classifier returns MultiSig and
    [CalcMultiSigStats] returns the two counts. *)
Theorem MultiSigScript_roundtrip (pubkeys : list bytes) (nrequired : Z) :
  strictKeys pubkeys -> Forall allBytes pubkeys ->
  1 <= Z.of_nat (length pubkeys) <= 16 ->
  0 <= nrequired <= Z.of_nat (length pubkeys) ->
  let n := Z.of_nat (length pubkeys) in
  exists script,
    MultiSigScript pubkeys nrequired = Success script
    /\ script = smallIntOp nrequired :: keyPushes pubkeys
                ++ [smallIntOp n; OP_CHECKMULTISIG]
    /\ extractMultisigScriptDetails 0 script true
       = {| requiredSigs := nrequired; numPubKeys := n;
            pubKeys := Some (map Some pubkeys); valid := true |}
    /\ typeOfScript 0 script = MultiSigTy
    /\ CalcMultiSigStats script = Ok (n, nrequired).
Proof.
  intros Hk Hb Hn Hm n.
  pose proof (keyPushes_length pubkeys Hk) as Hlen.
  exists (smallIntOp nrequired :: keyPushes pubkeys
          ++ [smallIntOp n; OP_CHECKMULTISIG]).
  assert (Hd : forall b,
             extractMultisigScriptDetails 0
               (smallIntOp nrequired :: keyPushes pubkeys
                ++ [smallIntOp n; OP_CHECKMULTISIG]) b
             = {| requiredSigs := nrequired; numPubKeys := n;
                  pubKeys := if b then Some (map Some pubkeys) else None;
                  valid := true |}).
  { intros b. apply multisig_script_details; [lia | lia | exact Hk]. }
  assert (Hbytes : allBytes (smallIntOp nrequired :: keyPushes pubkeys
                             ++ [smallIntOp n; OP_CHECKMULTISIG])).
  { destruct (smallIntOp_small nrequired) as (H1 & _); [lia|].
    destruct (smallIntOp_small n) as (H2 & _); [lia|].
    apply isSmallInt_range in H1, H2.
    constructor; [lia|]. apply Forall_app. split.
    - apply allBytes_keyPushes; assumption.
    - constructor; [lia|]. constructor; [unfold OP_CHECKMULTISIG; lia|].
      constructor. }
  assert (Hmatch : isMultisigScript 0
                     (smallIntOp nrequired :: keyPushes pubkeys
                      ++ [smallIntOp n; OP_CHECKMULTISIG]) = true).
  { unfold isMultisigScript. rewrite Hd. reflexivity. }
  pose proof (multisig_accepted_stats _ Hbytes Hmatch) as Hstats.
  cbv zeta in Hstats.
  rewrite Hd in Hstats. cbn [numPubKeys requiredSigs] in Hstats.
  assert (Hclass : typeOfScript 0
                     (smallIntOp nrequired :: keyPushes pubkeys
                      ++ [smallIntOp n; OP_CHECKMULTISIG]) = MultiSigTy).
  { apply (typeOfScript_template_iffs _). exact Hmatch. }
  replace (n =? 0) with false in Hstats
    by (symmetry; apply Z.eqb_neq; lia).
  split; [|repeat split; auto; apply Hd].
  unfold MultiSigScript.
  replace (Z.of_nat (length pubkeys) <? nrequired) with false
    by (symmetry; apply Z.ltb_ge; lia).
  cbv zeta.
  rewrite (AddInt64_small NewScriptBuilder nrequired);
    [| reflexivity | lia
     | unfold MaxScriptSize; cbn [sb_script NewScriptBuilder length]; lia].
  rewrite fold_AddData_keys;
    [| reflexivity | exact Hk
     | unfold MaxScriptSize; cbn [sb_script NewScriptBuilder app length];
       lia].
  cbn [sb_script NewScriptBuilder app].
  rewrite AddInt64_small;
    [| reflexivity | lia
     | unfold MaxScriptSize; cbn [sb_script length]; lia].
  unfold AddOp. cbn [sb_err sb_script].
  destruct (MaxScriptSize <? _) eqn:E.
  { apply Z.ltb_lt in E. unfold MaxScriptSize in E.
    cbn [app length] in E. rewrite length_app in E. cbn [length] in E.
    lia. }
  unfold BuilderScript. cbn [sb_err sb_script].
  cbn [app]. rewrite <- app_assoc. reflexivity.
Qed.

Lemma MultiSigScript_roundtrip_witness :
  exists script,
    MultiSigScript [0x02 :: repeat 0x11 32; 0x04 :: repeat 0x22 64] 1
    = Success script
    /\ typeOfScript 0 script = MultiSigTy
    /\ CalcMultiSigStats script = Ok (2, 1).
Proof.
  destruct (MultiSigScript_roundtrip
              [0x02 :: repeat 0x11 32; 0x04 :: repeat 0x22 64] 1
              ltac:(repeat constructor)
              ltac:(repeat (constructor; [apply allBytes_check; reflexivity|]);
                    constructor)
              ltac:(simpl; lia) ltac:(simpl; lia))
    as (s & E & _ & _ & C & S).
  exists s. repeat split; assumption.
Defined.
